(** * image-compressor: size-targeted compression and artifact lifecycle

    A shallow embedding of [compression.js], [cleanup.js], the request
    handlers of [server.js], and the file list and upload queue of the
    browser client.

    - The file system is a pair of flat directories holding finite maps from
      file names to files.
      Deleting a file that is there succeeds.
    - The codec ([sharp]) and the renderer (Ghostscript) are opaque: they
      enter as a record of functions, and every call is recorded in a
      trace.
    - JavaScript control flow (exceptions, [try]/[catch], the [while] loops)
      is written in a small state-and-exception monad.  Promises are
      sequentialised: an [await]ed call is run to completion where it is
      awaited, and a callback-style file-system call ([fs.unlink],
      [fs.readdir], [fs.stat]) invokes its callback where it is issued; so
      does a timer.
    - Paths are not normalised: a request parameter that names a file
      ([:id], an element of [fileIds]) is followed only when it is a plain
      file name, which the properties about it assume. *)

From Stdlib Require Import ZArith QArith Lia String Ascii List Bool.
From stdpp Require Import base gmap strings list fin_maps.

Import ListNotations.
Local Open Scope string_scope.
Local Open Scope Z_scope.

(** ** JavaScript numbers *)

Module JsNum.

(** The values a JavaScript number can take.  A finite double is a rational,
    so [Fin] carries it exactly. *)
Inductive t : Type :=
| NaN
| Inf (negative : bool)
| Fin (q : Q).

(** [!x] for a number: [NaN], [0] and [-0] are falsy. *)
Definition falsy (x : t) : bool :=
  match x with
  | NaN => true
  | Inf _ => false
  | Fin q => Qeq_bool q 0
  end.

(** [x * 1024].  Scaling a double by a power of two is exact; where it
    overflows to [Infinity] the comparison with a buffer length below gives
    the same answer as with the exact product. *)
Definition mul1024 (x : t) : t :=
  match x with
  | NaN => NaN
  | Inf s => Inf s
  | Fin q => Fin (q * 1024)
  end.

(** [n <= x] for an integer [n] (a buffer length or a file size). *)
Definition int_le (n : Z) (x : t) : bool :=
  match x with
  | NaN => false
  | Inf s => negb s
  | Fin q => Qle_bool (inject_Z n) q
  end.

(** [x > y] on finite doubles. *)
Definition gt (x y : Q) : bool := negb (Qle_bool x y).

(** [0 < x]. *)
Definition positive (x : t) : Prop :=
  match x with
  | NaN => False
  | Inf s => s = false
  | Fin q => (0 < q)%Q
  end.

(** The mathematical statement [n <= x * 1024]. *)
Definition int_le_kb (n : Z) (x : t) : Prop :=
  match x with
  | NaN => False
  | Inf s => s = false
  | Fin q => (inject_Z n <= q * 1024)%Q
  end.

(** The significand of the double nearest to [0.70]:
    [0.70 = 3152519739159347 * 2^-52]. *)
Definition mantissa_070 : Z := 3152519739159347.

(** Round a positive integer to 53 significant bits, ties to even: the
    rounding of an IEEE-754 double operation, on the numerator of a value
    with a fixed power-of-two denominator. *)
Definition round53 (p : Z) : Z :=
  let s := Z.log2 p - 52 in
  if s <=? 0 then p
  else
    let q := Z.shiftr p s in
    let r := p - Z.shiftl q s in
    let half := Z.shiftl 1 (s - 1) in
    let q' := if (half <? r) || ((half =? r) && Z.odd q) then q + 1 else q in
    Z.shiftl q' s.

(** [Math.floor(width * 0.70)] for an integer [width]: the exact product
    [width * mantissa_070 / 2^52] is rounded to a double, then floored. *)
Definition floor_mul_070 (width : Z) : Z :=
  Z.shiftr (round53 (width * mantissa_070)) 52.

End JsNum.

(** ** The artifact store *)

(** The two staging areas of [server.js]. *)
Inductive Dir : Type := UPLOAD_DIR | PROCESSED_DIR.

#[global] Instance Dir_eq_dec : EqDecision Dir.
Proof. solve_decision. Defined.

(** A file directly under one of the two directories; [path.basename] is
    the projection. *)
Record Path : Type := mkPath { dirname : Dir; basename : string }.

#[global] Instance Path_eq_dec : EqDecision Path.
Proof. solve_decision. Defined.

(** A plain file name: not empty, not [.] or [..], and without a
    separator or a NUL. *)
Definition plain_name (name : string) : bool :=
  negb (name =? "")%string && negb (name =? ".")%string
  && negb (name =? "..")%string
  && forallb (fun c => negb (Ascii.eqb c "/"%char)
                       && negb (Ascii.eqb c "092"%char)   (* backslash *)
                       && negb (Ascii.eqb c Ascii.zero))
       (list_ascii_of_string name).

(** [path.join(dir, name)] for a plain [name].  On any other name the real
    function resolves the separators and the dot segments, and the result
    may lie outside [dir]; [path_join] does not follow it there.  The names
    that the code builds itself (a [basename], a [readdir] entry, the name
    of a stored upload) are plain; a name taken from a request is assumed
    to be, with [plain_name], where a property depends on it. *)
Definition path_join (d : Dir) (name : string) : Path := mkPath d name.

Abbreviation bytes := (list Byte.byte).

(** [Buffer.length], [stats.size]. *)
Definition byte_length (b : bytes) : Z := Z.of_nat (List.length b).

(** [mtimeMs] is a double holding milliseconds with a fractional part; the
    values it takes are rationals. *)
Record File : Type := mkFile { content : bytes; mtimeMs : Q }.

Record FS : Type := mkFS {
  uploads : gmap string File;
  processed : gmap string File
}.

Definition dir_files (s : FS) (d : Dir) : gmap string File :=
  match d with
  | UPLOAD_DIR => uploads s
  | PROCESSED_DIR => processed s
  end.

Definition set_dir_files (s : FS) (d : Dir) (m : gmap string File) : FS :=
  match d with
  | UPLOAD_DIR => mkFS m (processed s)
  | PROCESSED_DIR => mkFS (uploads s) m
  end.

Definition fs_lookup (s : FS) (p : Path) : option File :=
  dir_files s (dirname p) !! basename p.

Definition fs_write (p : Path) (f : File) (s : FS) : FS :=
  set_dir_files s (dirname p) (<[basename p := f]> (dir_files s (dirname p))).

Definition fs_remove (p : Path) (s : FS) : FS :=
  set_dir_files s (dirname p) (delete (basename p) (dir_files s (dirname p))).

(** ** Worlds, outcomes and the monad *)

(** Options handed to the encoder.  [CFromName] stands for a pipeline on
    which no format method was called: [toFile] then picks the format from
    the extension of the output name, with the library's defaults. *)
Inductive Codec : Type :=
| CJpeg (quality : Z) (mozjpeg : bool)
| CPng (quality : option Z) (compressionLevel : Z) (palette : bool)
| CWebp (quality : Z)
| CFromName (filename : string).

(** Calls to the external engines, in the order they are made. *)
Inductive Event : Type :=
| EvMetadata
| EvToBuffer (resize : option (Z * Z))
| EvEncode (width : option Z) (codec : Codec)
| EvGsVersion (cmd : string)
| EvGsRender (cmd : string) (flags : list string).

(** The encodes of a trace that are made with explicit codec options
    ([getBuffer] and [toFile]), with their width and options.  The
    [toBuffer] of the preprocessing step also runs the encoder, with the
    defaults of the input format: it is not listed here, [encoder_passes]
    lists both. *)
Fixpoint encode_calls (tr : list Event) : list (option Z * Codec) :=
  match tr with
  | [] => []
  | EvEncode w c :: tr' => (w, c) :: encode_calls tr'
  | _ :: tr' => encode_calls tr'
  end.

(** An engine call that makes the codec write an image. *)
Definition is_encoder_pass (e : Event) : bool :=
  match e with
  | EvToBuffer _ | EvEncode _ _ => true
  | _ => false
  end.

(** The encoder passes of a trace, in order: every [toBuffer] and every
    encode with explicit options. *)
Definition encoder_passes (tr : list Event) : list Event :=
  List.filter is_encoder_pass tr.

(** The renderer invocations of a trace, with their flags. *)
Fixpoint render_calls (tr : list Event) : list (list string) :=
  match tr with
  | [] => []
  | EvGsRender _ flags :: tr' => flags :: render_calls tr'
  | _ :: tr' => render_calls tr'
  end.

Record World : Type := mkWorld {
  fs : FS;
  clock : Z;              (* Date.now(), in milliseconds *)
  trace : list Event;
  console : list string   (* console.error / console.warn lines *)
}.

Inductive Err : Type :=
| SystemError (code : string)   (* an error with a [.code], from [fs] *)
| Error (message : string).     (* any other exception *)

Definition err_code (e : Err) : option string :=
  match e with
  | SystemError c => Some c
  | Error _ => None
  end.

(** [OutOfFuel] is not a JavaScript outcome: it marks a run of the model
    whose loop bound was reached before the loop exited. *)
Inductive Res (A : Type) : Type :=
| Ok (a : A)
| Throw (e : Err)
| OutOfFuel.

Arguments Ok {A} a.
Arguments Throw {A} e.
Arguments OutOfFuel {A}.

Definition M (A : Type) : Type := World -> Res A * World.

Definition ret {A} (a : A) : M A := fun w => (Ok a, w).

Definition throw {A} (e : Err) : M A := fun w => (Throw e, w).

Definition out_of_fuel {A} : M A := fun w => (OutOfFuel, w).

Definition bind {A B} (m : M A) (k : A -> M B) : M B :=
  fun w =>
    match m w with
    | (Ok a, w') => k a w'
    | (Throw e, w') => (Throw e, w')
    | (OutOfFuel, w') => (OutOfFuel, w')
    end.

(** [try { m } catch (e) { h e }] *)
Definition try_catch {A} (m : M A) (h : Err -> M A) : M A :=
  fun w =>
    match m w with
    | (Throw e, w') => h e w'
    | r => r
    end.

Declare Scope js_scope.
Delimit Scope js_scope with js.
Notation "x <- m ;; k" := (bind m (fun x => k))
  (at level 100, m at next level, right associativity) : js_scope.
Notation "m ;;; k" := (bind m (fun _ => k))
  (at level 100, right associativity) : js_scope.
Local Open Scope js_scope.

Definition get_fs : M FS := fun w => (Ok (fs w), w).

Definition set_fs (s : FS) : M unit :=
  fun w => (Ok tt, mkWorld s (clock w) (trace w) (console w)).

Definition Date_now : M Z := fun w => (Ok (clock w), w).

Definition emit (e : Event) : M unit :=
  fun w => (Ok tt, mkWorld (fs w) (clock w) (trace w ++ [e]) (console w)).

Definition console_error (line : string) : M unit :=
  fun w => (Ok tt, mkWorld (fs w) (clock w) (trace w) (console w ++ [line])).

(** *** [fs] primitives *)

Definition existsSync (p : Path) : M bool :=
  s <- get_fs ;; ret (bool_decide (is_Some (fs_lookup s p))).

Definition readFile (p : Path) : M bytes :=
  s <- get_fs ;;
  match fs_lookup s p with
  | Some f => ret (content f)
  | None => throw (SystemError "ENOENT")
  end.

Definition statSync (p : Path) : M File :=
  s <- get_fs ;;
  match fs_lookup s p with
  | Some f => ret f
  | None => throw (SystemError "ENOENT")
  end.

Definition writeFileSync (p : Path) (b : bytes) : M unit :=
  s <- get_fs ;; now <- Date_now ;;
  set_fs (fs_write p (mkFile b (inject_Z now)) s).

Definition unlinkSync (p : Path) : M unit :=
  s <- get_fs ;;
  match fs_lookup s p with
  | Some _ => set_fs (fs_remove p s)
  | None => throw (SystemError "ENOENT")
  end.

Definition copyFileSync (src dst : Path) : M unit :=
  b <- readFile src ;; writeFileSync dst b.

(** [fs.unlink(p, cb)]: the value is the [err] argument handed to [cb]. *)
Definition unlink (p : Path) : M (option Err) :=
  s <- get_fs ;;
  match fs_lookup s p with
  | Some _ => set_fs (fs_remove p s) ;;; ret None
  | None => ret (Some (SystemError "ENOENT"))
  end.

(** [fs.readdir(dir, cb)]: the names in the directory. *)
Definition readdir (d : Dir) : M (list string) :=
  s <- get_fs ;; ret ((map_to_list (dir_files s d)).*1).

(** ** cleanup.js *)

(** [deleteFile(filePath)].  [None] is a falsy argument
    ([undefined], [null], the empty string). *)
Definition deleteFile (filePath : option Path) : M unit :=
  match filePath with
  | None => ret tt
  | Some p =>
      err <- unlink p ;;
      match err with
      | Some e =>
          if negb (bool_decide (err_code e = Some "ENOENT"))
          then console_error "Error deleting file"
          else ret tt
      | None => ret tt
      end
  end.

Fixpoint forEach {A} (l : list A) (f : A -> M unit) : M unit :=
  match l with
  | [] => ret tt
  | x :: l' => f x ;;; forEach l' f
  end.

(** [deleteFiles(filePaths)] *)
Definition deleteFiles (filePaths : list (option Path)) : M unit :=
  forEach filePaths deleteFile.

(** ** The external engines *)

(** What [sharp(...).metadata()] reports. *)
Record Metadata : Type := mkMetadata {
  format : string;
  width : Z;
  height : Z
}.

(** What one Ghostscript process did: whether it closed with code 0, and
    the file it left at [-sOutputFile], if any. *)
Record GsResult : Type := mkGsResult {
  exit_ok : bool;
  written : option bytes
}.

(** The codec, the renderer and [parseFloat], as functions of their inputs.
    [None] from a codec function is a rejected promise. *)
Record Engines : Type := mkEngines {
  sharp_metadata : bytes -> option Metadata;
  (* sharp(x).resize({width, height, fit: 'inside'})?.toBuffer() *)
  sharp_toBuffer : bytes -> option (Z * Z) -> option bytes;
  (* sharp(x).resize({width, fit: 'inside'})?.<codec>().toBuffer() *)
  sharp_encode : bytes -> option Z -> Codec -> option bytes;
  (* spawn(cmd, ['--version']) closes with code 0 *)
  gs_version : string -> bool;
  (* spawn(cmd, flags ++ [-sOutputFile=out, in]), on the content of [in] *)
  gs_render : string -> list string -> option bytes -> GsResult;
  parseFloat : string -> JsNum.t
}.

(** ** compression.js *)

Section Compression.

Variable E : Engines.

Definition of_codec {A} (o : option A) : M A :=
  match o with
  | Some a => ret a
  | None => throw (Error "sharp")
  end.

(** [sharp(inputPath)]: the bytes the pipeline will read. *)
Definition sharp_input (p : Path) : M bytes :=
  s <- get_fs ;;
  match fs_lookup s p with
  | Some f => ret (content f)
  | None => throw (Error "Input file is missing")
  end.

(** [sharp(input).metadata()] *)
Definition metadata_of (input : bytes) : M Metadata :=
  emit EvMetadata ;;; of_codec (sharp_metadata E input).

(** [sharp(input).resize(...)?.toBuffer()] *)
Definition toBuffer_of (input : bytes) (resize : option (Z * Z)) : M bytes :=
  emit (EvToBuffer resize) ;;; of_codec (sharp_toBuffer E input resize).

(** [sharp(input).resize(...)?.<codec>().toBuffer()] *)
Definition encode (input : bytes) (w : option Z) (c : Codec) : M bytes :=
  emit (EvEncode w c) ;;; of_codec (sharp_encode E input w c).

(** [sharp(input).<codec>().toFile(outputPath)] *)
Definition toFile (input : bytes) (c : Codec) (outputPath : Path) : M unit :=
  b <- encode input None c ;; writeFileSync outputPath b.

(** [!targetSizeKB]: [null], [NaN] and zero are falsy. *)
Definition no_target (targetSizeKB : option JsNum.t) : bool :=
  match targetSizeKB with
  | None => true
  | Some x => JsNum.falsy x
  end.

(** [targetSizeKB * 1024]; [null * 1024] is [0]. *)
Definition target_bytes (targetSizeKB : option JsNum.t) : JsNum.t :=
  match targetSizeKB with
  | None => JsNum.Fin 0
  | Some x => JsNum.mul1024 x
  end.

(** The format method of the no-target pipeline. *)
Definition preset_codec (fmt : string) (outputPath : Path) : Codec :=
  if (fmt =? "jpeg")%string || (fmt =? "jpg")%string then CJpeg 70 true
  else if (fmt =? "png")%string then CPng None 8 true
  else if (fmt =? "webp")%string then CWebp 65
  else CFromName (basename outputPath).

(** The format method of [getBuffer]. *)
Definition quality_codec (fmt : string) (q : Z) : Codec :=
  if (fmt =? "png")%string then CPng (Some q) 9 true
  else if (fmt =? "webp")%string then CWebp q
  else CJpeg q true.

(** [if (w)]: [null] and [0] are falsy. *)
Definition resize_width (w : option Z) : option Z :=
  match w with
  | Some x => if x =? 0 then None else Some x
  | None => None
  end.

Section TargetSearch.

Variable fmt : string.
Variable targetBytes : JsNum.t.
Variable currentBuffer : bytes.

(** The closure [getBuffer(buf, w, q)], always called on [currentBuffer]. *)
Definition getBuffer (w : option Z) (q : Z) : M bytes :=
  encode currentBuffer (resize_width w) (quality_codec fmt q).

(** [buf.length <= targetBytes] *)
Definition fits (buf : bytes) : bool :=
  JsNum.int_le (byte_length buf) targetBytes.

(** The loop [while (l <= r) { ... }] of both quality searches, at a fixed
    width [w]; [best] is [bestBuffer] in the first and [finalBuf] in the
    second.  ([bestQ] of the first is only written, never read.) *)
Fixpoint quality_search (fuel : nat) (w : option Z) (l r : Z) (best : bytes)
  : M bytes :=
  if l <=? r then
    match fuel with
    | O => out_of_fuel
    | S fuel' =>
        let mid := (l + r) / 2 in
        buf <- getBuffer w mid ;;
        if fits buf
        then quality_search fuel' w (mid + 1) r buf
        else quality_search fuel' w l (mid - 1) best
    end
  else ret best.

(** The loop [while (true) { ... }]; the value is [bestBuffer] at the
    [break].  [qfuel] bounds the inner quality search. *)
Fixpoint resize_loop (qfuel fuel : nat) (width0 : Z) : M bytes :=
  match fuel with
  | O => out_of_fuel
  | S fuel' =>
      let width1 := JsNum.floor_mul_070 width0 in
      let width := if width1 <? 1 then 1 else width1 in
      buf <- getBuffer (Some width) 50 ;;
      if fits buf then
        quality_search qfuel (Some width) 1 100 buf
      else
        bufLow <- getBuffer (Some width) 1 ;;
        if fits bufLow then ret bufLow
        else if width =? 1 then getBuffer (Some 1) 1
        else resize_loop qfuel fuel' width
  end.

End TargetSearch.

(** [compressBufferRecursive(input, outputPath, format, targetSizeKB)].
    [input] is always a [Buffer] here, so the [Buffer.isBuffer] conversion
    is not taken. *)
Definition compressBufferRecursive (fuel : nat) (input : bytes)
    (outputPath : Path) (fmt : string) (targetSizeKB : option JsNum.t)
  : M Path :=
  if no_target targetSizeKB then
    toFile input (preset_codec fmt outputPath) outputPath ;;;
    ret outputPath
  else
    let targetBytes := target_bytes targetSizeKB in
    let currentBuffer := input in
    lowQBuffer <- getBuffer fmt currentBuffer None 1 ;;
    if fits targetBytes lowQBuffer then
      bestBuffer <- quality_search fmt targetBytes currentBuffer
                      fuel None 1 100 lowQBuffer ;;
      writeFileSync outputPath bestBuffer ;;;
      ret outputPath
    else
      meta <- metadata_of currentBuffer ;;
      bestBuffer <- resize_loop fmt targetBytes currentBuffer
                      fuel fuel (width meta) ;;
      writeFileSync outputPath bestBuffer ;;;
      ret outputPath.

(** [compressImage(inputPath, outputDir, targetSizeKB)] *)
Definition compressImage (fuel : nat) (inputPath : Path) (outputDir : Dir)
    (targetSizeKB : option JsNum.t) : M Path :=
  let filename := basename inputPath in
  let outputPath := path_join outputDir filename in
  metadata <- (file <- sharp_input inputPath ;; metadata_of file) ;;
  let fmt := format metadata in
  inputBuffer <-
    (if (4000 <? width metadata) || (4000 <? height metadata)
     then file <- sharp_input inputPath ;;
          toBuffer_of file (Some (4000, 4000))
     else file <- sharp_input inputPath ;;
          toBuffer_of file None) ;;
  compressBufferRecursive fuel inputBuffer outputPath fmt targetSizeKB.

(** *** PDF *)

Record Strategy : Type := mkStrategy { name : string; args : list string }.

Definition ebook : Strategy := mkStrategy "ebook" ["-dPDFSETTINGS=/ebook"].

Definition screen : Strategy := mkStrategy "screen" ["-dPDFSETTINGS=/screen"].

Definition low_res : Strategy :=
  mkStrategy "low-res"
    [ "-dPDFSETTINGS=/screen";
      "-dColorImageResolution=50";
      "-dGrayImageResolution=50";
      "-dMonoImageResolution=50";
      "-dDownsampleColorImages=true";
      "-dDownsampleGrayImages=true";
      "-dDownsampleMonoImages=true" ].

Definition strategies : list Strategy := [ebook; screen; low_res].

(** The arguments of a ladder attempt, without the two trailing ones
    ([-sOutputFile=outputPath] and [inputPath]), which the model passes as
    paths. *)
Definition ladder_flags (strat : Strategy) : list string :=
  ["-sDEVICE=pdfwrite"; "-dCompatibilityLevel=1.4"] ++ args strat
    ++ ["-dNOPAUSE"; "-dQUIET"; "-dBATCH"].

Definition no_target_flags : list string :=
  [ "-sDEVICE=pdfwrite"; "-dCompatibilityLevel=1.4"; "-dPDFSETTINGS=/screen";
    "-dNOPAUSE"; "-dQUIET"; "-dBATCH" ].

(** The loop of [checkGhostscript] over the candidate commands. *)
Fixpoint checkGhostscript_from (cmds : list string) : M (option string) :=
  match cmds with
  | [] => ret None
  | cmd :: rest =>
      emit (EvGsVersion cmd) ;;;
      if gs_version E cmd then ret (Some cmd)
      else checkGhostscript_from rest
  end.

Definition checkGhostscript : M (option string) :=
  checkGhostscript_from ["gswin64c"; "gswin32c"; "gs"].

(** [runGs(args)]: the process runs, leaves what it wrote at the output
    path, and the promise rejects unless it closed with code 0. *)
Definition runGs (gsStatus : string) (flags : list string)
    (outputPath inputPath : Path) : M unit :=
  emit (EvGsRender gsStatus flags) ;;;
  s <- get_fs ;;
  let r := gs_render E gsStatus flags (content <$> fs_lookup s inputPath) in
  match written r with
  | Some b => writeFileSync outputPath b
  | None => ret tt
  end ;;;
  if exit_ok r then ret tt else throw (Error "GS code").

(** One [try { ... } catch (err) { ... }] body of the ladder; [Some] is the
    [return outputPath] inside it. *)
Definition attempt (gsStatus : string) (targetBytes : JsNum.t)
    (inputPath outputPath : Path) (strat : Strategy) : M (option Path) :=
  try_catch
    (ex <- existsSync outputPath ;;
     (if ex then unlinkSync outputPath else ret tt) ;;;
     runGs gsStatus (ladder_flags strat) outputPath inputPath ;;;
     ex' <- existsSync outputPath ;;
     if ex' then
       stats <- statSync outputPath ;;
       if JsNum.int_le (byte_length (content stats)) targetBytes
       then ret (Some outputPath)
       else ret None
     else ret None)
    (fun err => console_error "PDF Strategy failed" ;;; ret None).

(** The loop [for (let i = 0; i < strategies.length; i++)]. *)
Fixpoint ladder (gsStatus : string) (targetBytes : JsNum.t)
    (inputPath outputPath : Path) (strats : list Strategy)
  : M (option Path) :=
  match strats with
  | [] => ret None
  | strat :: rest =>
      r <- attempt gsStatus targetBytes inputPath outputPath strat ;;
      match r with
      | Some p => ret (Some p)
      | None => ladder gsStatus targetBytes inputPath outputPath rest
      end
  end.

(** [compressPdf(inputPath, outputDir, targetSizeKB)] *)
Definition compressPdf (inputPath : Path) (outputDir : Dir)
    (targetSizeKB : option JsNum.t) : M Path :=
  let filename := basename inputPath in
  let outputPath := path_join outputDir filename in
  gsStatus <- checkGhostscript ;;
  match gsStatus with
  | None =>
      console_error "Ghostscript not found. Copying file." ;;;
      copyFileSync inputPath outputPath ;;;
      ret outputPath
  | Some gs =>
      if no_target targetSizeKB then
        try_catch
          (runGs gs no_target_flags outputPath inputPath ;;;
           ret outputPath)
          (fun e =>
             console_error "GS Error" ;;;
             copyFileSync inputPath outputPath ;;;
             ret outputPath)
      else
        let targetBytes := target_bytes targetSizeKB in
        r <- ladder gs targetBytes inputPath outputPath strategies ;;
        match r with
        | Some p => ret p
        | None =>
            ex <- existsSync outputPath ;;
            (if negb ex then copyFileSync inputPath outputPath
             else ret tt) ;;;
            ret outputPath
        end
  end.

End Compression.

(** ** server.js *)

(** [req.file] as multer's disk storage leaves it:
    [req.file.path] is [path.join(UPLOAD_DIR, filename)]. *)
Record UploadedFile : Type := mkUploadedFile {
  filename : string;
  originalname : string;
  mimetype : string
}.

Definition file_path (f : UploadedFile) : Path :=
  path_join UPLOAD_DIR (filename f).

Record UploadRequest : Type := mkUploadRequest {
  req_file : option UploadedFile;
  body_targetSizeKB : option string
}.

Inductive Response : Type :=
| RespError (status : Z) (message : string)
| RespDone (id originalName : string) (originalSize compressedSize : Z)
| RespDownload (data : bytes) (userFilename : string)
| RespAborted.   (* the transfer of [res.download] failed *)

(** Truthiness of a string-valued field: absent and empty are falsy. *)
Definition truthy_string (o : option string) : option string :=
  match o with
  | Some s => if (s =? "")%string then None else Some s
  | None => None
  end.

Section Server.

Variable E : Engines.

(** [req.body.targetSizeKB ? parseFloat(req.body.targetSizeKB) : null] *)
Definition parse_target (field : option string) : option JsNum.t :=
  match truthy_string field with
  | Some s => Some (parseFloat E s)
  | None => None
  end.

(** The statements of the [try] block after [processedPath] is known. *)
Definition respond_done (file : UploadedFile) (inputPath processedPath : Path)
  : M Response :=
  originalStats <- statSync inputPath ;;
  processedStats <- statSync processedPath ;;
  deleteFile (Some inputPath) ;;;
  ret (RespDone (basename processedPath) (originalname file)
         (byte_length (content originalStats))
         (byte_length (content processedStats))).

(** The [catch (err) { ... }] block of the upload handler. *)
Definition on_error (file : UploadedFile) (err : Err) : M Response :=
  console_error "Processing Error" ;;;
  deleteFile (Some (file_path file)) ;;;
  ret (RespError 500 "Processing failed").

(** [app.post('/upload', ...)] *)
Definition upload (fuel : nat) (req : UploadRequest) : M Response :=
  match req_file req with
  | None => ret (RespError 400 "No file uploaded")
  | Some file =>
      try_catch
        (let inputPath := file_path file in
         let targetSizeKB := parse_target (body_targetSizeKB req) in
         if (mimetype file =? "application/pdf")%string then
           processedPath <- compressPdf E inputPath PROCESSED_DIR targetSizeKB ;;
           respond_done file inputPath processedPath
         else if String.prefix "image/" (mimetype file) then
           processedPath <-
             compressImage E fuel inputPath PROCESSED_DIR targetSizeKB ;;
           respond_done file inputPath processedPath
         else
           deleteFile (Some inputPath) ;;;
           ret (RespError 400 "Unsupported file type"))
        (on_error file)
  end.

(** [app.get('/download/:id', ...)].  [name] is [req.query.name];
    [send_err] is the [err] that [res.download] hands to its callback. *)
Definition download (id : string) (name : option string)
    (send_err : option Err) : M Response :=
  let filename := id in
  let filePath := path_join PROCESSED_DIR filename in
  let userFilename :=
    match truthy_string name with Some n => n | None => filename end in
  ex <- existsSync filePath ;;
  if negb ex then ret (RespError 404 "File not found or already deleted.")
  else
    data <- readFile filePath ;;
    match send_err with
    | None => deleteFile (Some filePath) ;;; ret (RespDownload data userFilename)
    | Some _ => ret RespAborted
    end.

(** [maxAge], in milliseconds. *)
Definition maxAge : Z := 2 * 60 * 1000.

(** The body of [files.forEach(file => ...)]: [fs.stat(filePath, ...)] and
    its callback. *)
Definition sweep_entry (now : Z) (d : Dir) (file : string) : M unit :=
  let filePath := path_join d file in
  s <- get_fs ;;
  match fs_lookup s filePath with
  | None => ret tt                        (* if (err) return *)
  | Some stats =>
      if JsNum.gt (inject_Z now - mtimeMs stats) (inject_Z maxAge)
      then deleteFile (Some filePath)
      else ret tt
  end.

(** One [fs.readdir(dir, ...)] of the auto-cleanup and its callback. *)
Definition sweep (now : Z) (d : Dir) : M unit :=
  files <- readdir d ;;
  forEach files (sweep_entry now d).

(** The body of the [setInterval] callback. *)
Definition auto_cleanup : M unit :=
  now <- Date_now ;;
  sweep now PROCESSED_DIR ;;;
  sweep now UPLOAD_DIR.

End Server.

(** ** server.js: the ZIP endpoint *)

Inductive ZipResponse : Type :=
| ZipError (status : Z) (message : string)
| ZipAttachment (entries : list (string * bytes))
| ZipFailed (err : Err)   (* status 500 with [{ error: err.message }] *)
| ZipBroken.              (* an archive error after the headers were sent *)

(** The loop [fileIds.forEach(id => ...)]: the value is the queue of the
    archive, each path under its entry name; the paths are
    [filesToDelete]. *)
Fixpoint queue_files (fileIds : list string) : M (list (string * Path)) :=
  match fileIds with
  | [] => ret []
  | id :: rest =>
      let filePath := path_join PROCESSED_DIR id in
      ex <- existsSync filePath ;;
      queued <- queue_files rest ;;
      ret (if ex then (id, filePath) :: queued else queued)
  end.

(** What [archive.finalize()] streams: each queued file under its name.
    The archiver reads the queued files concurrently and appends each as
    it becomes ready, so the order of the archive is its own: [appended]
    gives it, from the entries in the order they were queued. *)
Definition archive_entries
    (appended : list (string * bytes) -> list (string * bytes))
    (queued : list (string * Path)) : M (list (string * bytes)) :=
  s <- get_fs ;;
  ret (appended
         (omap (fun e => f ← fs_lookup s (snd e); Some (fst e, content f))
               queued)).

(** [app.post('/stream-zip', ...)].  [fileIds] is the array left by the
    [try]/[catch] around [JSON.parse]; [appended] is the order in which the
    archiver appends what was queued; [ended] tells whether the archive
    emitted ['end'], [archive_err] is the error it emitted, if any, and
    [headersSent] is [res.headersSent] at that moment.  The deletion that
    the ['end'] handler schedules one second later is run in place. *)
Definition streamZip (fileIds : list string)
    (appended : list (string * bytes) -> list (string * bytes))
    (ended : bool) (archive_err : option Err) (headersSent : bool)
  : M ZipResponse :=
  match fileIds with
  | [] => ret (ZipError 400 "No files specified")
  | _ =>
      filesToDelete <- queue_files fileIds ;;
      entries <- archive_entries appended filesToDelete ;;
      (if ended then deleteFiles ((Some ∘ snd) <$> filesToDelete)
       else ret tt) ;;;
      match archive_err with
      | Some err =>
          console_error "Archive error" ;;;
          if negb headersSent then ret (ZipFailed err)
          else ret ZipBroken
      | None => ret (ZipAttachment entries)
      end
  end.

(** ** The client script *)

Definition MAX_FILES : nat := 200.

Definition CONCURRENT_UPLOADS : nat := 5.

(** An element of [files]: the generated id and the status; the [File]
    object and the result are not looked at by what follows. *)
Record Entry : Type := mkEntry { entry_id : string; status : string }.

(** [handleFiles(fileList)], on the ids that [Math.random] yields for the
    new entries. *)
Definition handleFiles (files : list Entry) (new_ids : list string)
  : list Entry :=
  if (MAX_FILES <? List.length files + List.length new_ids)%nat then files
  else (files ++ List.map (fun id => mkEntry id "pending") new_ids)%list.

(** The click handler of a remove button. *)
Definition removeFile (files : list Entry) (id : string) : list Entry :=
  List.filter (fun item => negb (entry_id item =? id)%string) files.

(** What the user does to the list: a selection or a drop of files, a
    click on a remove button, and a confirmed clear (or the button that
    starts over). *)
Inductive Action : Type :=
| Add (new_ids : list string)
| Remove (id : string)
| ClearAll.

Definition act (files : list Entry) (a : Action) : list Entry :=
  match a with
  | Add new_ids => handleFiles files new_ids
  | Remove id => removeFile files id
  | ClearAll => []
  end.

(** [queue.slice(i, j)] for [0 <= i <= j]. *)
Definition slice {A} (queue : list A) (i j : nat) : list A :=
  take (j - i) (drop i queue).

(** The batches of the loop
    [for (let i = 0; i < queue.length; i += CONCURRENT_UPLOADS)], from [i]
    on, in the order they are awaited. *)
Fixpoint batches {A} (fuel : nat) (queue : list A) (i : nat)
  : option (list (list A)) :=
  if (i <? List.length queue)%nat then
    match fuel with
    | O => None
    | S fuel' =>
        let batch := slice queue i (i + CONCURRENT_UPLOADS) in
        match batches fuel' queue (i + CONCURRENT_UPLOADS) with
        | Some rest => Some (batch :: rest)
        | None => None
        end
    end
  else Some [].

(** [startCompression].  The queue holds objects of [files], not copies:
    an object is named by its position in [files], and [processFile]
    updates [files] at that position.  [responds_ok id] tells whether the
    upload of the object [id] is answered with a success status and a JSON
    body.  Within a batch every [processFile] runs up to its [await fetch]
    before any of them resumes; they resume here in the order of the
    batch. *)
Definition set_status (s : string) (f : Entry) : Entry :=
  mkEntry (entry_id f) s.

(** [files.filter(f => f.status === 'pending')], from position [i] on. *)
Fixpoint pending_from (i : nat) (files : list Entry) : list nat :=
  match files with
  | [] => []
  | f :: rest =>
      if (status f =? "pending")%string then i :: pending_from (S i) rest
      else pending_from (S i) rest
  end.

Section Client.

Variable responds_ok : string -> bool.

(** [processFile] up to [await fetch]. *)
Definition processFile_start (files : list Entry) (i : nat) : list Entry :=
  alter (set_status "processing") i files.

(** [processFile] from the answer on; the [finally] block counts it. *)
Definition processFile_finish (st : list Entry * nat) (i : nat)
  : list Entry * nat :=
  (alter (fun f => set_status (if responds_ok (entry_id f) then "done"
                               else "error") f) i (fst st),
   S (snd st)).

(** [await Promise.all(batch.map(processFile))] *)
Definition run_batch (st : list Entry * nat) (batch : list nat)
  : list Entry * nat :=
  fold_left processFile_finish batch
    (fold_left processFile_start batch (fst st), snd st).

(** The value is [files] and [completed] when the loop is left. *)
Definition startCompression (fuel : nat) (files : list Entry)
  : option (list Entry * nat) :=
  let queue := pending_from 0 files in
  match batches fuel queue 0 with
  | Some bs => Some (fold_left run_batch bs (files, O))
  | None => None
  end.

End Client.

(** * Vocabulary of the properties *)

(** ** Worlds *)

(** The world after one engine call was recorded. *)
Definition logged (e : Event) (w : World) : World :=
  mkWorld (fs w) (clock w) (trace w ++ [e]) (console w).

(** What [deleteFile] does to a world: the file is removed, and nothing
    else changes. *)
Definition without (p : Path) (w : World) : World :=
  mkWorld (fs_remove p (fs w)) (clock w) (trace w) (console w).

(** The world after [writeFileSync(p, b)]. *)
Definition written_to (p : Path) (b : bytes) (w : World) : World :=
  mkWorld (fs_write p (mkFile b (inject_Z (clock w))) (fs w)) (clock w)
    (trace w)
    (console w).

(** ** Loops *)

(** [m] never reaches the loop bound of the model. *)
Definition terminates {A} (m : M A) : Prop :=
  forall w, fst (m w) <> OutOfFuel.

(** The width after the first two statements of the loop body. *)
Definition next_width (width0 : Z) : Z :=
  let width1 := JsNum.floor_mul_070 width0 in
  if width1 <? 1 then 1 else width1.

(** A number of loop iterations that is enough for
    [compressBufferRecursive] on [input]: seven for a quality search, and
    twice the binary logarithm of the width that [sharp] reports, plus
    three, for the resize loop. *)
Definition search_fuel (E : Engines) (input : bytes) : nat :=
  Nat.max 7
    match sharp_metadata E input with
    | Some m => 2 * Z.to_nat (Z.log2 (width m)) + 3
    | None => 0
    end.

(** Every encoder call of the search on [input] succeeds, and so does the
    metadata probe. *)
Definition codec_total (E : Engines) (fmt : string) (input : bytes) : Prop :=
  (forall w q, is_Some (sharp_encode E input w (quality_codec fmt q))) /\
  is_Some (sharp_metadata E input).

(** ** Images *)

(** The [resize] of the preprocessing step. *)
Definition bound_of (m : Metadata) : option (Z * Z) :=
  if (4000 <? width m) || (4000 <? height m) then Some (4000, 4000) else None.

(** The world in which the search starts. *)
Definition preprocessed (m : Metadata) (w : World) : World :=
  logged (EvToBuffer (bound_of m)) (logged EvMetadata w).

(** ** The auto-cleanup *)

(** [now - stats.mtimeMs > maxAge] *)
Definition expired (now : Z) (f : File) : bool :=
  JsNum.gt (inject_Z now - mtimeMs f) (inject_Z maxAge).

(** The store after a sweep over [names], entry by entry. *)
Definition swept (now : Z) (d : Dir) (names : list string) (s : FS) (q : Path)
  : option File :=
  match fs_lookup s q with
  | Some f =>
      if bool_decide (dirname q = d /\ basename q ∈ names) && expired now f
      then None else Some f
  | None => None
  end.

(** ** The PDF ladder *)

(** What Ghostscript [gs] does with [strat] on a source with bytes [src]. *)
Definition render (E : Engines) (gs : string) (strat : Strategy) (src : bytes)
  : GsResult :=
  gs_render E gs (ladder_flags strat) (Some src).

(** The process closed with code 0 and left a file within the target: the
    condition under which the loop returns. *)
Definition meets (targetBytes : JsNum.t) (r : GsResult) : bool :=
  exit_ok r &&
  match written r with
  | Some b => JsNum.int_le (byte_length b) targetBytes
  | None => false
  end.

(** The command that [checkGhostscript] settles on. *)
Definition found_gs (E : Engines) : option string :=
  List.find (gs_version E) ["gswin64c"; "gswin32c"; "gs"].

(** The file that a process leaves at the output path. *)
Definition left_by (r : GsResult) (now : Z) : option File :=
  match written r with
  | Some b => Some (mkFile b (inject_Z now))
  | None => None
  end.

(** The output that C7, as it is worded, promises when no
    strategy meets the target: the file of the last strategy in ladder
    order whose process closed with code 0 and left a file, and the source
    when there is none. *)
Definition last_produced (E : Engines) (gs : string) (src : bytes)
  : option bytes :=
  last (omap (fun s => let r := render E gs s src in
                       if exit_ok r then written r else None) strategies).

(** The statement of C7 as it is worded. *)
Definition best_effort_as_worded : Prop :=
  forall (E : Engines) (inputPath : Path) (outputDir : Dir) (t : JsNum.t)
         (w : World) (f : File) (gs : string),
    dirname inputPath <> outputDir ->
    fs_lookup (fs w) inputPath = Some f ->
    found_gs E = Some gs ->
    JsNum.falsy t = false ->
    Forall (fun s' => meets (JsNum.mul1024 t) (render E gs s' (content f)) = false)
      strategies ->
    exists w',
      compressPdf E inputPath outputDir (Some t) w
        = (Ok (path_join outputDir (basename inputPath)), w') /\
      content <$> fs_lookup (fs w') (path_join outputDir (basename inputPath))
        = Some (default (content f) (last_produced E gs (content f))).

(** ** The no-target path *)

(** The statement of C8 as it is worded: a compression without target that
    returns has run the encoder exactly once. *)
Definition single_encode_as_worded : Prop :=
  forall (E : Engines) (fuel : nat) (inputPath : Path) (outputDir : Dir)
         (w : World) (out : Path) (w' : World),
    compressImage E fuel inputPath outputDir None w = (Ok out, w') ->
    exists e,
      encoder_passes (trace w') = (encoder_passes (trace w) ++ [e])%list.

(** ** Costs, qualities and frames *)

(** The number of encode operations recorded so far. *)
Definition encodes (w : World) : nat := List.length (encode_calls (trace w)).

(** [sharp_encode] on [input] at width [w], as a function of the quality. *)
Definition at_quality (E : Engines) (fmt : string) (input : bytes)
    (w : option Z) (q : Z) : option bytes :=
  sharp_encode E input (resize_width w) (quality_codec fmt q).

(** Quality [q] is the best that fits at width [w]: its encoding fits, and
    the encoding at [q + 1] does not, unless [q] is 100. *)
Definition best_quality (E : Engines) (fmt : string) (tb : JsNum.t)
    (input : bytes) (w : option Z) (q : Z) (b : bytes) : Prop :=
  1 <= q <= 100 /\
  at_quality E fmt input w q = Some b /\
  fits tb b = true /\
  (q = 100 \/
   exists b', at_quality E fmt input w (q + 1) = Some b' /\ fits tb b' = false).

(** A larger quality never gives an encoding that fits when a smaller one
    does not. *)
Definition monotone_fit (E : Engines) (fmt : string) (tb : JsNum.t)
    (input : bytes) (w : option Z) : Prop :=
  forall q1 q2 b1 b2,
    1 <= q1 <= q2 -> q2 <= 100 ->
    at_quality E fmt input w q1 = Some b1 ->
    at_quality E fmt input w q2 = Some b2 ->
    fits tb b2 = true -> fits tb b1 = true.

(** [w'] differs from [w] at most in the file at [out]; the clock has not
    moved. *)
Definition only_at (out : Path) (w w' : World) : Prop :=
  (forall q, q <> out -> fs_lookup (fs w') q = fs_lookup (fs w) q) /\
  clock w' = clock w.

(** [m] changes no file other than [out], whatever its outcome. *)
Definition touches_only (out : Path) {A} (m : M A) : Prop :=
  forall w, only_at out w (snd (m w)).

(** The world after the [console.error] of the upload handler's [catch]. *)
Definition complained (w : World) : World :=
  mkWorld (fs w) (clock w) (trace w) (console w ++ ["Processing Error"]).

(** ** The client *)

(** What [processFile] leaves of an object once the answer is in. *)
Definition settled (responds_ok : string -> bool) (f : Entry) : Entry :=
  set_status (if responds_ok (entry_id f) then "done" else "error") f.

(** ** The resize loop *)

(** The width of the [n]-th iteration of the resize loop. *)
Definition loop_width (width0 : Z) (n : nat) : Z :=
  Nat.iter n next_width width0.

(** Neither probe of an iteration at [width] fits. *)
Definition no_probe_fits (E : Engines) (fmt : string) (tb : JsNum.t)
    (input : bytes) (width : Z) : Prop :=
  exists b50 b1,
    at_quality E fmt input (Some width) 50 = Some b50 /\ fits tb b50 = false /\
    at_quality E fmt input (Some width) 1 = Some b1 /\ fits tb b1 = false.

(** What the resize loop breaks with at [width]: the best quality, not
    below 50, when the probe at 50 fits; the encoding at quality 1
    otherwise, which fits unless the width is 1. *)
Definition break_at (E : Engines) (fmt : string) (tb : JsNum.t)
    (input : bytes) (width : Z) (b : bytes) : Prop :=
  (exists q, 50 <= q /\ best_quality E fmt tb input (Some width) q b) \/
  (at_quality E fmt input (Some width) 1 = Some b /\
   (exists b50, at_quality E fmt input (Some width) 50 = Some b50 /\
                fits tb b50 = false) /\
   (fits tb b = true \/ width = 1)).

(** ** The ZIP endpoint *)

(** What the loop over [fileIds] queues for [id] in the store [s]. *)
Definition queued_entry (s : FS) (id : string) : option (string * Path) :=
  if bool_decide (is_Some (fs_lookup s (path_join PROCESSED_DIR id)))
  then Some (id, path_join PROCESSED_DIR id) else None.

(** The archive entry of [id]: its name and the bytes of its file. *)
Definition zip_entry (s : FS) (id : string) : option (string * bytes) :=
  f ← fs_lookup s (path_join PROCESSED_DIR id); Some (id, content f).

(** ** Concrete runs *)

Module Demo.

Definition zeros (n : Z) : bytes := repeat Byte.x00 (Z.to_nat n).

Definition ones (n : Z) : bytes := repeat Byte.x01 (Z.to_nat n).

Definition quality_of (c : Codec) : Z :=
  match c with
  | CJpeg q _ => q
  | CPng (Some q) _ _ => q
  | CPng None _ _ => 80
  | CWebp q => q
  | CFromName _ => 80
  end.

(** An encoder whose output grows with the width and the quality:
    [10 * width + quality] bytes, with 1000 for the native width. *)
Definition encode_size (w : option Z) (c : Codec) : Z :=
  match w with
  | None => 1000
  | Some x => 10 * x
  end + quality_of c.

Definition parse (s : string) : JsNum.t :=
  if (s =? "0")%string then JsNum.Fin 0
  else if (s =? "1")%string then JsNum.Fin 1
  else JsNum.NaN.

(** Ghostscript is installed as [gs]; every preset leaves five bytes. *)
Definition engines : Engines :=
  mkEngines
    (fun _ => Some (mkMetadata "jpeg" 100 50))
    (fun b _ => Some b)
    (fun _ w c => Some (zeros (encode_size w c)))
    (fun cmd => (cmd =? "gs")%string)
    (fun _ _ _ => mkGsResult true (Some (ones 5)))
    parse.

(** Ghostscript whose two first presets leave three bytes and whose last
    preset fails without leaving a file. *)
Definition failing_last : Engines :=
  mkEngines
    (fun _ => Some (mkMetadata "jpeg" 100 50))
    (fun b _ => Some b)
    (fun _ w c => Some (zeros (encode_size w c)))
    (fun _ => true)
    (fun _ flags _ =>
       if (6 <? List.length flags)%nat then mkGsResult false None
       else mkGsResult true (Some (ones 3)))
    parse.

Definition upload_path : Path := path_join UPLOAD_DIR "a.jpg".

Definition store : FS :=
  mkFS {[ "a.jpg" := mkFile (zeros 3000) 5%Q;
          "old.pdf" := mkFile (zeros 2) 7%Q ]}
       {[ "b.jpg" := mkFile (zeros 40) 900000%Q;
          "c.jpg" := mkFile (zeros 40) (201 # 2) ]}.

Definition world : World := mkWorld store 1000000 [] [].

Definition half_kb : JsNum.t := JsNum.Fin (1 # 2).

Definition one_byte : JsNum.t := JsNum.Fin (1 # 1024).

End Demo.

(** ** More sample data *)

Module Samples.

(** No Ghostscript command answers. *)
Definition no_gs : Engines :=
  mkEngines
    (fun _ => Some (mkMetadata "jpeg" 100 50))
    (fun b _ => Some b)
    (fun _ w c => Some (Demo.zeros (Demo.encode_size w c)))
    (fun _ => false)
    (fun _ _ _ => mkGsResult false None)
    Demo.parse.

Definition pdf_path : Path := path_join UPLOAD_DIR "old.pdf".

Definition pdf_file : File := mkFile (Demo.zeros 2) 7%Q.

Definition photo : UploadedFile :=
  mkUploadedFile "a.jpg" "photo.jpg" "image/jpeg".

Definition note : UploadedFile :=
  mkUploadedFile "a.jpg" "note.txt" "text/plain".

Definition photo_request : UploadRequest :=
  mkUploadRequest (Some photo) (Some "1").

Definition note_request : UploadRequest :=
  mkUploadRequest (Some note) None.

(** 1050 bytes. *)
Definition kb_1050 : JsNum.t := JsNum.Fin (1050 # 1024).

Definition out_path : Path := path_join PROCESSED_DIR "a.jpg".

End Samples.

(** * Properties *)

(** ** [Math.floor(width * 0.70)] on small widths *)

Example floor_mul_070_10 : JsNum.floor_mul_070 10 = 7.
Proof. reflexivity. Qed.

Example floor_mul_070_90 : JsNum.floor_mul_070 90 = 62.
Proof. reflexivity. Qed.

Example floor_mul_070_4000 : JsNum.floor_mul_070 4000 = 2800.
Proof. reflexivity. Qed.

Example floor_mul_070_1 : JsNum.floor_mul_070 1 = 0.
Proof. reflexivity. Qed.

(** ** The store *)

Lemma fs_lookup_write_eq p f s : fs_lookup (fs_write p f s) p = Some f.
Proof.
  destruct p as [[] n]; unfold fs_lookup, fs_write; simpl;
    apply lookup_insert_eq.
Qed.

Lemma fs_lookup_write_ne p q f s :
  p ≠ q → fs_lookup (fs_write p f s) q = fs_lookup s q.
Proof.
  destruct p as [[] n], q as [[] n']; unfold fs_lookup, fs_write; simpl;
    intros Hne; try reflexivity; apply lookup_insert_ne; congruence.
Qed.

Lemma fs_lookup_remove_eq p s : fs_lookup (fs_remove p s) p = None.
Proof.
  destruct p as [[] n]; unfold fs_lookup, fs_remove; simpl;
    apply lookup_delete_eq.
Qed.

Lemma fs_lookup_remove_ne p q s :
  p ≠ q → fs_lookup (fs_remove p s) q = fs_lookup s q.
Proof.
  destruct p as [[] n], q as [[] n']; unfold fs_lookup, fs_remove; simpl;
    intros Hne; try reflexivity; apply lookup_delete_ne; congruence.
Qed.

Lemma fs_remove_absent p s : fs_lookup s p = None → fs_remove p s = s.
Proof.
  destruct p as [[] n], s as [u pr]; unfold fs_lookup, fs_remove; simpl;
    intros H; rewrite delete_id by exact H; reflexivity.
Qed.

Lemma fs_write_other_dir p f s d :
  dirname p ≠ d → dir_files (fs_write p f s) d = dir_files s d.
Proof. destruct p as [[] n], d; simpl; congruence. Qed.

(** ** Plain names *)

Example plain_name_artifact : plain_name "b.jpg" = true.
Proof. reflexivity. Qed.

Example plain_name_traversal : plain_name "../uploads/a.jpg" = false.
Proof. reflexivity. Qed.

Example plain_name_dots : plain_name ".." = false.
Proof. reflexivity. Qed.

(** ** [deleteFile] *)

Lemma deleteFile_run p w : deleteFile (Some p) w = (Ok tt, without p w).
Proof.
  unfold deleteFile, unlink, bind, get_fs, set_fs, ret, without; simpl.
  destruct (fs_lookup (fs w) p) eqn:Hl; simpl; [reflexivity|].
  rewrite fs_remove_absent by exact Hl. destruct w; reflexivity.
Qed.

Lemma without_absent p w : fs_lookup (fs w) p = None → without p w = w.
Proof.
  intros H. unfold without. rewrite fs_remove_absent by exact H.
  destruct w; reflexivity.
Qed.

Lemma lookup_without_eq p w : fs_lookup (fs (without p w)) p = None.
Proof. apply fs_lookup_remove_eq. Qed.

Lemma lookup_without_ne p q w :
  p ≠ q → fs_lookup (fs (without p w)) q = fs_lookup (fs w) q.
Proof. apply fs_lookup_remove_ne. Qed.

(** C4.  [deleteFile] never throws, whatever its argument and whatever the
    state of the store.  On a path that is absent it leaves the world as it
    was (nothing is removed and nothing is logged), so a second call on the
    same path is a no-op that does not throw either. *)
Theorem deleteFile_idempotent (filePath : option Path) (w : World) :
  (exists w', deleteFile filePath w = (Ok tt, w')) /\
  (forall p, filePath = Some p -> fs_lookup (fs w) p = None ->
             deleteFile filePath w = (Ok tt, w)) /\
  (forall w', deleteFile filePath w = (Ok tt, w') ->
              deleteFile filePath w' = (Ok tt, w')).
Proof.
  destruct filePath as [p|].
  - rewrite deleteFile_run. split; [eauto|]. split.
    + intros q [= <-] Habs. rewrite without_absent by exact Habs. reflexivity.
    + intros w' [= <-]. rewrite deleteFile_run.
      rewrite (without_absent p (without p w)) by apply lookup_without_eq.
      reflexivity.
  - simpl. unfold ret. split; [eauto|]. split; [discriminate|].
    intros w' [= <-]. reflexivity.
Qed.

(** ** Delivery *)

Lemma existsSync_run p w :
  existsSync p w = (Ok (bool_decide (is_Some (fs_lookup (fs w) p))), w).
Proof. reflexivity. Qed.

Lemma download_absent id name send_err w :
  fs_lookup (fs w) (path_join PROCESSED_DIR id) = None ->
  download id name send_err w =
    (Ok (RespError 404 "File not found or already deleted."), w).
Proof.
  intros H. unfold download, bind. rewrite existsSync_run, H.
  rewrite bool_decide_eq_false_2 by (intros [? ?]; discriminate).
  reflexivity.
Qed.

Lemma download_present id name f w :
  fs_lookup (fs w) (path_join PROCESSED_DIR id) = Some f ->
  download id name None w =
    (Ok (RespDownload (content f)
           match truthy_string name with Some n => n | None => id end),
     without (path_join PROCESSED_DIR id) w).
Proof.
  intros H. unfold download, bind. rewrite existsSync_run, H.
  rewrite bool_decide_eq_true_2 by eauto. cbn [negb].
  unfold readFile, bind, get_fs. rewrite H. unfold ret at 1.
  rewrite deleteFile_run. reflexivity.
Qed.

(** C3.  For an id that is a plain file name: a delivery read of an id
    that is not in the output area answers 404 and changes nothing.  A
    delivery read of an id that is there, whose transfer succeeds, sends
    the bytes; any delivery read of the same id after it answers 404. *)
Theorem download_single_delivery (id : string) (w : World) :
  plain_name id = true ->
  (fs_lookup (fs w) (path_join PROCESSED_DIR id) = None ->
   forall name send_err,
     download id name send_err w =
       (Ok (RespError 404 "File not found or already deleted."), w)) /\
  (forall f, fs_lookup (fs w) (path_join PROCESSED_DIR id) = Some f ->
   forall name, exists userFilename w1,
     download id name None w = (Ok (RespDownload (content f) userFilename), w1) /\
     forall name' send_err',
       download id name' send_err' w1 =
         (Ok (RespError 404 "File not found or already deleted."), w1)).
Proof.
  intros _. split.
  - intros H name send_err. apply download_absent, H.
  - intros f H name. eexists _, _. split.
    + apply download_present, H.
    + intros name' send_err'. apply download_absent, lookup_without_eq.
Qed.

(** ** The auto-cleanup *)

Lemma sweep_entry_run now d file w :
  exists w', sweep_entry now d file w = (Ok tt, w') /\
    clock w' = clock w /\ trace w' = trace w /\
    forall q, fs_lookup (fs w') q = swept now d [file] (fs w) q.
Proof.
  unfold sweep_entry, bind, get_fs.
  destruct (fs_lookup (fs w) (path_join d file)) as [stats|] eqn:Hl.
  - fold (expired now stats). destruct (expired now stats) eqn:Hex.
    + rewrite deleteFile_run. eexists; split; [reflexivity|].
      split; [reflexivity|]. split; [reflexivity|].
      intros q. unfold swept. destruct (decide (path_join d file = q)) as [<-|Hne].
      * rewrite lookup_without_eq, Hl, Hex.
        rewrite bool_decide_eq_true_2; [reflexivity|].
        split; [reflexivity|]. simpl. apply list_elem_of_singleton. reflexivity.
      * rewrite lookup_without_ne by exact Hne.
        destruct (fs_lookup (fs w) q) as [f|]; [|reflexivity].
        rewrite bool_decide_eq_false_2; [reflexivity|].
        intros [Hd Hb]. apply list_elem_of_singleton in Hb.
        apply Hne. destruct q; simpl in *; subst; reflexivity.
    + eexists; split; [reflexivity|]. split; [reflexivity|].
      split; [reflexivity|].
      intros q. unfold swept.
      destruct (fs_lookup (fs w) q) as [f|] eqn:Hq; [|reflexivity].
      destruct (bool_decide _) eqn:Hb; [|reflexivity].
      apply bool_decide_eq_true_1 in Hb as [Hd Hb].
      apply list_elem_of_singleton in Hb.
      assert (q = path_join d file) as -> by (destruct q; simpl in *; subst; reflexivity).
      rewrite Hl in Hq. injection Hq as <-. rewrite Hex. reflexivity.
  - eexists; split; [reflexivity|]. split; [reflexivity|].
    split; [reflexivity|].
    intros q. unfold swept.
    destruct (fs_lookup (fs w) q) as [f|] eqn:Hq; [|reflexivity].
    rewrite bool_decide_eq_false_2; [reflexivity|].
    intros [Hd Hb]. apply list_elem_of_singleton in Hb.
    assert (q = path_join d file) as -> by (destruct q; simpl in *; subst; reflexivity).
    congruence.
Qed.

Lemma forEach_sweep now d names :
  forall w, exists w',
    forEach names (sweep_entry now d) w = (Ok tt, w') /\
    clock w' = clock w /\ trace w' = trace w /\
    forall q, fs_lookup (fs w') q = swept now d names (fs w) q.
Proof.
  induction names as [|x names IH]; intros w.
  - exists w. repeat split; try reflexivity.
    intros q. unfold swept. destruct (fs_lookup (fs w) q); [|reflexivity].
    rewrite bool_decide_eq_false_2; [reflexivity|].
    intros [_ H]. inversion H.
  - destruct (sweep_entry_run now d x w) as (w1 & Hrun & Hc1 & Ht1 & Hq1).
    destruct (IH w1) as (w2 & Hrun2 & Hc2 & Ht2 & Hq2).
    exists w2. split; [|split; [congruence|split; [congruence|]]].
    + simpl. unfold bind. rewrite Hrun. exact Hrun2.
    + intros q. rewrite Hq2. unfold swept at 1. rewrite Hq1. unfold swept.
      destruct (fs_lookup (fs w) q) as [f|]; [|reflexivity].
      destruct (expired now f) eqn:Hex; rewrite ?andb_true_r, ?andb_false_r.
      * destruct (decide (dirname q = d /\ basename q = x)) as [[Hd Hb]|Hn].
        -- rewrite (bool_decide_eq_true_2 (_ /\ _ ∈ [x])) by
             (split; [exact Hd|apply list_elem_of_singleton, Hb]).
           rewrite bool_decide_eq_true_2; [reflexivity|].
           split; [exact Hd|]. subst x. left.
        -- rewrite (bool_decide_eq_false_2 (_ /\ _ ∈ [x])) by
             (intros [Hd Hb]; apply list_elem_of_singleton in Hb; tauto).
           rewrite Hex, andb_true_r.
           erewrite bool_decide_ext; [reflexivity|]. split.
           ++ intros [Hd Hb]. split; [exact Hd|]. right. exact Hb.
           ++ intros [Hd Hb]. split; [exact Hd|].
              apply elem_of_cons in Hb as [Hb|Hb]; [tauto|exact Hb].
      * rewrite Hex, andb_false_r. reflexivity.
Qed.

Lemma sweep_run now d w :
  exists w', sweep now d w = (Ok tt, w') /\
    clock w' = clock w /\ trace w' = trace w /\
    forall q, fs_lookup (fs w') q =
      match fs_lookup (fs w) q with
      | Some f =>
          if bool_decide (dirname q = d) && expired now f then None else Some f
      | None => None
      end.
Proof.
  destruct (forEach_sweep now d ((map_to_list (dir_files (fs w) d)).*1) w)
    as (w' & Hrun & Hc & Ht & Hq).
  exists w'. split; [exact Hrun|]. split; [exact Hc|]. split; [exact Ht|].
  intros q. rewrite Hq. unfold swept.
  destruct (fs_lookup (fs w) q) as [f|] eqn:Hl; [|reflexivity].
  erewrite bool_decide_ext; [reflexivity|]. split; [tauto|].
  intros Hd. split; [exact Hd|]. subst d.
  apply list_elem_of_fmap. exists (basename q, f). split; [reflexivity|].
  apply elem_of_map_to_list. exact Hl.
Qed.

(** C9.  One run of the auto-cleanup removes every file of the upload area
    and of the output area whose age [now - mtimeMs] is above 120 000 ms,
    whether or not it was ever delivered, and leaves every file whose age is
    at most 120 000 ms as it was. *)
Theorem auto_cleanup_expiry (w : World) :
  exists w', auto_cleanup w = (Ok tt, w') /\
    forall (d : Dir) (id : string) (f : File),
      fs_lookup (fs w) (path_join d id) = Some f ->
      ((120000 < inject_Z (clock w) - mtimeMs f)%Q ->
         fs_lookup (fs w') (path_join d id) = None) /\
      ((inject_Z (clock w) - mtimeMs f <= 120000)%Q ->
         fs_lookup (fs w') (path_join d id) = Some f).
Proof.
  destruct (sweep_run (clock w) PROCESSED_DIR w) as (w1 & H1 & Hc1 & _ & Hq1).
  destruct (sweep_run (clock w) UPLOAD_DIR w1) as (w2 & H2 & Hc2 & _ & Hq2).
  exists w2. split.
  - unfold auto_cleanup, bind, Date_now. rewrite H1. exact H2.
  - intros d id f Hl. rewrite Hq2, Hq1, Hl.
    assert (Hexp : expired (clock w) f = true <->
                   (120000 < inject_Z (clock w) - mtimeMs f)%Q).
    { unfold expired, JsNum.gt.
      change (inject_Z maxAge) with 120000%Q.
      rewrite negb_true_iff, <- not_true_iff_false, Qle_bool_iff.
      split; [apply Qnot_le_lt|apply Qlt_not_le]. }
    destruct (expired (clock w) f) eqn:Hex.
    + split; [intros _|].
      * destruct d; simpl; rewrite ?Hex; reflexivity.
      * intros Hle. exfalso. apply (Qlt_not_le _ _ (proj1 Hexp eq_refl) Hle).
    + split.
      * intros Hlt. apply Hexp in Hlt. discriminate.
      * intros _. rewrite andb_false_r. simpl. rewrite Hex, andb_false_r.
        reflexivity.
Qed.

(** ** [Math.floor(width * 0.70)] *)

Lemma round53_upper (p : Z) :
  0 < p -> JsNum.round53 p * 2 ^ 53 <= p * (2 ^ 53 + 1).
Proof.
  intros Hp. unfold JsNum.round53.
  destruct (Z.leb_spec (Z.log2 p - 52) 0) as [Hs|Hs]; [lia|].
  set (s := Z.log2 p - 52) in *.
  rewrite !Z.shiftl_mul_pow2, Z.shiftr_div_pow2 by lia.
  assert (Hlog : 2 ^ Z.log2 p <= p) by (apply Z.log2_spec; exact Hp).
  assert (Hsplit : 2 ^ Z.log2 p = 2 ^ 53 * 2 ^ (s - 1)).
  { rewrite <- Z.pow_add_r by lia. f_equal. lia. }
  assert (Hdouble : 2 ^ s = 2 * 2 ^ (s - 1)).
  { replace s with (1 + (s - 1)) at 1 by lia.
    rewrite Z.pow_add_r by lia. reflexivity. }
  assert (Hh : 0 < 2 ^ (s - 1)) by (apply Z.pow_pos_nonneg; lia).
  set (h := 2 ^ (s - 1)) in *.
  pose proof (Z.div_mod p (2 ^ s) ltac:(lia)) as Hdm.
  pose proof (Z.mod_pos_bound p (2 ^ s) ltac:(lia)) as Hmod.
  set (q := p / 2 ^ s) in *.
  assert (Hr : p - q * 2 ^ s = p mod 2 ^ s) by lia.
  rewrite Z.mul_1_l.
  destruct ((h <? p - q * 2 ^ s) || ((h =? p - q * 2 ^ s) && Z.odd q)) eqn:Hup.
  - assert (h <= p - q * 2 ^ s).
    { apply orb_true_iff in Hup as [Hup|Hup].
      - apply Z.ltb_lt in Hup. lia.
      - apply andb_true_iff in Hup as [Hup _]. apply Z.eqb_eq in Hup. lia. }
    nia.
  - nia.
Qed.

Lemma floor_mul_070_decreases (width : Z) :
  1 <= width -> JsNum.floor_mul_070 width < width.
Proof.
  intros Hw. unfold JsNum.floor_mul_070.
  rewrite Z.shiftr_div_pow2 by lia.
  apply Z.div_lt_upper_bound; [lia|].
  pose proof (round53_upper (width * JsNum.mantissa_070)
                ltac:(unfold JsNum.mantissa_070; lia)) as H.
  unfold JsNum.mantissa_070 in *.
  change (2 ^ 53) with 9007199254740992 in H.
  change (2 ^ 52) with 4503599627370496.
  lia.
Qed.

Lemma floor_mul_070_nonpositive (width : Z) :
  width <= 0 -> JsNum.floor_mul_070 width <= 0.
Proof.
  intros Hw. unfold JsNum.floor_mul_070, JsNum.round53.
  assert (Hp : width * JsNum.mantissa_070 <= 0)
    by (unfold JsNum.mantissa_070; lia).
  rewrite Z.log2_nonpos by exact Hp. simpl (0 - 52 <=? 0).
  rewrite Z.shiftr_div_pow2 by lia.
  apply Z.div_le_upper_bound; [reflexivity|]. rewrite Z.mul_0_r. exact Hp.
Qed.

Lemma next_width_bounds (width0 : Z) :
  1 <= next_width width0 /\
  (next_width width0 <> 1 -> next_width width0 < width0).
Proof.
  unfold next_width.
  destruct (Z.ltb_spec (JsNum.floor_mul_070 width0) 1) as [Hlt|Hge].
  - split; [lia|congruence].
  - split; [exact Hge|intros _].
    destruct (Z_le_gt_dec width0 0) as [Hw|Hw].
    + pose proof (floor_mul_070_nonpositive width0 Hw). lia.
    + apply floor_mul_070_decreases. lia.
Qed.

Lemma below_pow2 (n : Z) : n < 2 ^ Z.of_nat (S (Z.to_nat (Z.log2 n))).
Proof.
  rewrite Nat2Z.inj_succ, Z2Nat.id by apply Z.log2_nonneg.
  destruct (Z_le_gt_dec n 0) as [Hn|Hn].
  - apply Z.le_lt_trans with 0; [exact Hn|].
    apply Z.pow_pos_nonneg; [lia|]. pose proof (Z.log2_nonneg n). lia.
  - apply Z.log2_spec. lia.
Qed.

(** One step multiplies the width by less than [0.70 * (1 + 2^-53)]. *)
Lemma floor_mul_070_ratio (width : Z) :
  1 <= width ->
  JsNum.floor_mul_070 width * 2 ^ 105 <=
    width * (JsNum.mantissa_070 * (2 ^ 53 + 1)).
Proof.
  intros Hw. unfold JsNum.floor_mul_070.
  rewrite Z.shiftr_div_pow2 by lia.
  pose proof (round53_upper (width * JsNum.mantissa_070)
                ltac:(unfold JsNum.mantissa_070; lia)) as H.
  pose proof (Z.mul_div_le (JsNum.round53 (width * JsNum.mantissa_070))
                (2 ^ 52) ltac:(lia)) as Hdiv.
  unfold JsNum.mantissa_070 in *.
  change (2 ^ 105) with (2 ^ 52 * 2 ^ 53).
  change (2 ^ 53) with 9007199254740992 in *.
  change (2 ^ 52) with 4503599627370496 in *.
  lia.
Qed.

(** Two steps that do not reach 1 more than halve the width. *)
Lemma next_width_twice_halves (width0 : Z) :
  next_width width0 <> 1 ->
  next_width (next_width width0) <> 1 ->
  2 * next_width (next_width width0) < width0.
Proof.
  intros H1 H2.
  destruct (next_width_bounds width0) as [Hlow1 Hdec1].
  destruct (next_width_bounds (next_width width0)) as [Hlow2 Hdec2].
  specialize (Hdec1 H1). specialize (Hdec2 H2).
  assert (Hw0 : 1 <= width0) by lia.
  assert (Hn1 : next_width width0 = JsNum.floor_mul_070 width0).
  { unfold next_width in *.
    destruct (JsNum.floor_mul_070 width0 <? 1); [congruence|reflexivity]. }
  assert (Hn2 : next_width (next_width width0)
                = JsNum.floor_mul_070 (next_width width0)).
  { unfold next_width at 1. unfold next_width at 1 in H2.
    destruct (JsNum.floor_mul_070 (next_width width0) <? 1);
      [congruence|reflexivity]. }
  pose proof (floor_mul_070_ratio width0 Hw0) as R1.
  pose proof (floor_mul_070_ratio (next_width width0) ltac:(lia)) as R2.
  rewrite <- Hn1 in R1. rewrite <- Hn2 in R2.
  unfold JsNum.mantissa_070 in *.
  change (2 ^ 105) with 40564819207303340847894502572032 in *.
  change (2 ^ 53) with 9007199254740992 in *.
  lia.
Qed.

(** ** The image search *)

(** Case analysis on the encoder call that [H] is stuck on. *)
Tactic Notation "case_encode" hyp(H) "as" ident(buf) :=
  match type of H with
  | context [match sharp_encode ?e ?i ?w ?c with _ => _ end] =>
      let Henc := fresh "Henc" in
      destruct (sharp_encode e i w c) as [buf|] eqn:Henc
  end.

Section SearchFacts.

Variable E : Engines.
Variable fmt : string.
Variable targetBytes : JsNum.t.
Variable currentBuffer : bytes.

Local Abbreviation getBuf := (getBuffer E fmt currentBuffer).
Local Abbreviation fitsT := (fits targetBytes).
Local Abbreviation qsearch := (quality_search E fmt targetBytes currentBuffer).
Local Abbreviation rloop := (resize_loop E fmt targetBytes currentBuffer).

Lemma encode_run input w c world :
  encode E input w c world =
    (match sharp_encode E input w c with
     | Some b => Ok b
     | None => Throw (Error "sharp")
     end, logged (EvEncode w c) world).
Proof.
  unfold encode, bind, emit, of_codec. simpl.
  destruct (sharp_encode E input w c); reflexivity.
Qed.

Lemma getBuffer_run w q world :
  getBuf w q world =
    (match sharp_encode E currentBuffer (resize_width w) (quality_codec fmt q) with
     | Some b => Ok b
     | None => Throw (Error "sharp")
     end, logged (EvEncode (resize_width w) (quality_codec fmt q)) world).
Proof. apply encode_run. Qed.

(** The interval halves at each probe, so [fuel] probes are enough for an
    interval of fewer than [2 ^ fuel] qualities. *)
Lemma quality_search_terminates (fuel : nat) :
  forall w l r best world,
    r - l + 1 < 2 ^ Z.of_nat fuel ->
    fst (qsearch fuel w l r best world) <> OutOfFuel.
Proof.
  induction fuel as [|fuel IH]; intros w l r best world Hlen.
  - simpl in *. destruct (Z.leb_spec l r); [lia|]. discriminate.
  - cbn [quality_search].
    destruct (Z.leb_spec l r) as [Hle|Hgt]; [|discriminate].
    unfold bind. rewrite getBuffer_run.
    destruct (sharp_encode _ _ _ _) as [buf|]; [|discriminate].
    rewrite Nat2Z.inj_succ, Z.pow_succ_r in Hlen by lia.
    pose proof (Z.div_mod (l + r) 2 ltac:(lia)) as Hdm.
    pose proof (Z.mod_pos_bound (l + r) 2 ltac:(lia)) as Hmod.
    destruct (fitsT buf); apply IH; lia.
Qed.

(** The search only ever replaces [best] by a buffer that fits. *)
Lemma quality_search_fits (fuel : nat) :
  forall w l r best world b world',
    fitsT best = true ->
    qsearch fuel w l r best world = (Ok b, world') ->
    fitsT b = true.
Proof.
  induction fuel as [|fuel IH]; intros w l r best world b world' Hbest Hrun.
  - simpl in Hrun. destruct (l <=? r); [discriminate|].
    injection Hrun as <- _. exact Hbest.
  - cbn [quality_search] in Hrun.
    destruct (l <=? r).
    + unfold bind in Hrun. rewrite getBuffer_run in Hrun.
      destruct (sharp_encode _ _ _ _) as [buf|]; [|discriminate].
      destruct (fitsT buf) eqn:Hbuf; eapply IH; eauto.
    + injection Hrun as <- _. exact Hbest.
Qed.

(** One iteration: the loop goes round again only when the new width is
    not 1. *)
Lemma resize_loop_step (qfuel fuel : nat) (width0 : Z) (world : World) :
  (7 <= qfuel)%nat ->
  (next_width width0 <> 1 ->
   forall world', fst (rloop qfuel fuel (next_width width0) world')
                  <> OutOfFuel) ->
  fst (rloop qfuel (S fuel) width0 world) <> OutOfFuel.
Proof.
  intros Hq Hnext.
  cbn [resize_loop]. fold (next_width width0).
  unfold bind. rewrite getBuffer_run.
  destruct (sharp_encode _ _ _ _) as [buf|]; [|discriminate].
  destruct (fitsT buf).
  - apply quality_search_terminates.
    apply Z.lt_le_trans with (2 ^ 7); [reflexivity|].
    apply Z.pow_le_mono_r; lia.
  - rewrite getBuffer_run.
    destruct (sharp_encode _ _ _ _) as [bufLow|]; [|discriminate].
    destruct (fitsT bufLow); [discriminate|].
    destruct (Z.eqb_spec (next_width width0) 1) as [H1|H1].
    + rewrite getBuffer_run. destruct (sharp_encode _ _ _ _); discriminate.
    + apply Hnext. exact H1.
Qed.

(** The loop exits once the width has reached 1, and two iterations more
    than halve the width until then: [2 * k + 1] iterations are enough for
    a starting width below [2 ^ k]. *)
Lemma resize_loop_terminates (qfuel : nat) :
  (7 <= qfuel)%nat ->
  forall (k fuel : nat) width0 world,
    width0 < 2 ^ Z.of_nat k -> (2 * k + 1 <= fuel)%nat ->
    fst (rloop qfuel fuel width0 world) <> OutOfFuel.
Proof.
  intros Hq. induction k as [|k IH]; intros fuel width0 world Hw Hfuel.
  - destruct fuel as [|fuel]; [lia|].
    apply resize_loop_step; [exact Hq|]. intros Hne.
    destruct (next_width_bounds width0) as [Hlow Hdec].
    specialize (Hdec Hne). simpl in Hw. lia.
  - destruct fuel as [|[|fuel]]; [lia|lia|].
    apply resize_loop_step; [exact Hq|]. intros H1 world1.
    apply resize_loop_step; [exact Hq|]. intros H2 world2.
    apply IH; [|lia].
    pose proof (next_width_twice_halves width0 H1 H2) as Hhalf.
    rewrite Nat2Z.inj_succ, Z.pow_succ_r in Hw by lia. lia.
Qed.

(** At its [break] the loop holds a buffer that fits, or the encoding at
    width 1 and quality 1. *)
Lemma resize_loop_result (qfuel fuel : nat) :
  forall width0 world b world',
    rloop qfuel fuel width0 world = (Ok b, world') ->
    fitsT b = true \/
    sharp_encode E currentBuffer (Some 1) (quality_codec fmt 1) = Some b.
Proof.
  induction fuel as [|fuel IH]; intros width0 world b world' Hrun;
    [discriminate|].
  cbn [resize_loop] in Hrun.
  fold (next_width width0) in Hrun.
  unfold bind in Hrun. rewrite getBuffer_run in Hrun.
  case_encode Hrun as buf; [|discriminate].
  destruct (fitsT buf) eqn:Hbuf.
  - left. eapply quality_search_fits; eauto.
  - rewrite getBuffer_run in Hrun.
    case_encode Hrun as bufLow; [|discriminate].
    destruct (fitsT bufLow) eqn:Hlow.
    + unfold ret in Hrun. assert (bufLow = b) as <- by congruence.
      left. exact Hlow.
    + destruct (next_width width0 =? 1).
      * rewrite getBuffer_run in Hrun.
        change (resize_width (Some 1)) with (Some 1) in Hrun.
        case_encode Hrun as b1; [|discriminate].
        assert (b1 = b) as <- by congruence. right. reflexivity.
      * eapply IH; eauto.
Qed.

End SearchFacts.

(** ** Running a bind *)

Lemma bind_ok {A B} (m : M A) (k : A -> M B) w a w' :
  m w = (Ok a, w') -> bind m k w = k a w'.
Proof. intros H. unfold bind. rewrite H. reflexivity. Qed.

Lemma bind_throw {A B} (m : M A) (k : A -> M B) w e w' :
  m w = (Throw e, w') -> bind m k w = (Throw e, w').
Proof. intros H. unfold bind. rewrite H. reflexivity. Qed.

Lemma bind_assoc {A B C} (m : M A) (k : A -> M B) (h : B -> M C) w :
  bind (bind m k) h w = bind m (fun a => bind (k a) h) w.
Proof. unfold bind. destruct (m w) as [[a|e|] w']; reflexivity. Qed.

(** ** Runs that come to an end *)

Lemma terminates_ret {A} (a : A) : terminates (ret a).
Proof. intros w. discriminate. Qed.

Lemma terminates_throw {A} (e : Err) : terminates (@throw A e).
Proof. intros w. discriminate. Qed.

Lemma terminates_bind {A B} (m : M A) (k : A -> M B) :
  terminates m -> (forall a, terminates (k a)) -> terminates (bind m k).
Proof.
  intros Hm Hk w. unfold bind. specialize (Hm w).
  destruct (m w) as [[a|e|] w']; simpl in *;
    [apply Hk|discriminate|congruence].
Qed.

(** The same at one world, with the value that [m] returns there. *)
Lemma bind_run_terminates {A B} (m : M A) (k : A -> M B) (w : World) :
  fst (m w) <> OutOfFuel ->
  (forall a w', m w = (Ok a, w') -> fst (k a w') <> OutOfFuel) ->
  fst (bind m k w) <> OutOfFuel.
Proof.
  intros Hm Hk. unfold bind.
  destruct (m w) as [[a|e|] w']; simpl in *;
    [apply Hk; reflexivity|discriminate|congruence].
Qed.

Lemma terminates_try_catch {A} (m : M A) (h : Err -> M A) :
  terminates m -> (forall e, terminates (h e)) -> terminates (try_catch m h).
Proof.
  intros Hm Hh w. unfold try_catch. specialize (Hm w).
  destruct (m w) as [[a|e|] w']; simpl in *;
    [discriminate|apply Hh|congruence].
Qed.

Lemma terminates_get_fs : terminates get_fs.
Proof. intros w. discriminate. Qed.

Lemma terminates_set_fs s : terminates (set_fs s).
Proof. intros w. discriminate. Qed.

Lemma terminates_Date_now : terminates Date_now.
Proof. intros w. discriminate. Qed.

Lemma terminates_emit e : terminates (emit e).
Proof. intros w. discriminate. Qed.

Lemma terminates_console_error line : terminates (console_error line).
Proof. intros w. discriminate. Qed.

Create HintDb terminates.

#[export] Hint Resolve terminates_ret terminates_throw terminates_get_fs
  terminates_set_fs terminates_Date_now terminates_emit
  terminates_console_error : terminates.

(** Goes through binds, handlers and case distinctions, leaving the loops. *)
Ltac terminates_step :=
  match goal with
  | |- terminates (bind _ _) => apply terminates_bind; [|intros ?]
  | |- terminates (try_catch _ _) => apply terminates_try_catch; [|intros ?]
  | |- terminates (match ?x with _ => _ end) => destruct x
  | |- terminates (let _ := _ in _) => cbv zeta
  | |- terminates _ => solve [auto with terminates]
  end.

Ltac terminates_auto := repeat terminates_step.

Lemma terminates_existsSync p : terminates (existsSync p).
Proof. unfold existsSync. terminates_auto. Qed.

Lemma terminates_readFile p : terminates (readFile p).
Proof. unfold readFile. terminates_auto. Qed.

Lemma terminates_statSync p : terminates (statSync p).
Proof. unfold statSync. terminates_auto. Qed.

Lemma terminates_writeFileSync p b : terminates (writeFileSync p b).
Proof. unfold writeFileSync. terminates_auto. Qed.

Lemma terminates_unlinkSync p : terminates (unlinkSync p).
Proof. unfold unlinkSync. terminates_auto. Qed.

#[export] Hint Resolve terminates_existsSync terminates_readFile
  terminates_statSync terminates_writeFileSync terminates_unlinkSync
  : terminates.

Lemma terminates_copyFileSync src dst : terminates (copyFileSync src dst).
Proof. unfold copyFileSync. terminates_auto. Qed.

Lemma terminates_deleteFile p : terminates (deleteFile p).
Proof. unfold deleteFile, unlink. terminates_auto. Qed.

Lemma terminates_of_codec {A} (o : option A) : terminates (of_codec o).
Proof. unfold of_codec. terminates_auto. Qed.

Lemma terminates_sharp_input p : terminates (sharp_input p).
Proof. unfold sharp_input. terminates_auto. Qed.

#[export] Hint Resolve terminates_copyFileSync terminates_deleteFile
  terminates_of_codec terminates_sharp_input : terminates.

Section EngineRuns.

Variable E : Engines.

Lemma terminates_encode input w c : terminates (encode E input w c).
Proof. unfold encode. terminates_auto. Qed.

Lemma terminates_metadata_of input : terminates (metadata_of E input).
Proof. unfold metadata_of. terminates_auto. Qed.

Lemma terminates_toBuffer_of input r : terminates (toBuffer_of E input r).
Proof. unfold toBuffer_of. terminates_auto. Qed.

Hint Resolve terminates_encode terminates_metadata_of terminates_toBuffer_of
  : terminates.

Lemma terminates_toFile input c out : terminates (toFile E input c out).
Proof. unfold toFile. terminates_auto. Qed.

Lemma terminates_runGs gs flags out inp : terminates (runGs E gs flags out inp).
Proof. unfold runGs. terminates_auto. Qed.

Hint Resolve terminates_toFile terminates_runGs : terminates.

Lemma terminates_attempt gs tb inp out strat :
  terminates (attempt E gs tb inp out strat).
Proof. unfold attempt. terminates_auto. Qed.

Lemma terminates_ladder gs tb inp out strats :
  terminates (ladder E gs tb inp out strats).
Proof.
  induction strats as [|strat rest IH]; simpl.
  - terminates_auto.
  - apply terminates_bind; [apply terminates_attempt|].
    intros [p|]; [terminates_auto|exact IH].
Qed.

Lemma terminates_checkGhostscript_from cmds :
  terminates (checkGhostscript_from E cmds).
Proof.
  induction cmds as [|cmd rest IH]; simpl.
  - terminates_auto.
  - apply terminates_bind; [terminates_auto|].
    intros _. destruct (gs_version E cmd); [terminates_auto|exact IH].
Qed.

Hint Resolve terminates_ladder terminates_checkGhostscript_from : terminates.

(** The PDF path has no unbounded loop. *)
Lemma terminates_compressPdf inp outDir t :
  terminates (compressPdf E inp outDir t).
Proof. unfold compressPdf, checkGhostscript. terminates_auto. Qed.

Lemma terminates_compressBufferRecursive fuel input out fmt t :
  (search_fuel E input <= fuel)%nat ->
  terminates (compressBufferRecursive E fuel input out fmt t).
Proof.
  intros Hfuel. unfold search_fuel in Hfuel.
  unfold compressBufferRecursive.
  destruct (no_target t); [terminates_auto|]. cbv zeta.
  apply terminates_bind; [apply terminates_encode|]. intros lowQBuffer.
  destruct (fits _ lowQBuffer).
  - apply terminates_bind; [|intros ?; terminates_auto].
    intros w. apply quality_search_terminates.
    apply Z.lt_le_trans with (2 ^ 7); [reflexivity|].
    apply Z.pow_le_mono_r; lia.
  - intros w. apply bind_run_terminates; [apply terminates_metadata_of|].
    intros meta w' Hmeta.
    assert (Hm : sharp_metadata E input = Some meta).
    { unfold metadata_of, bind, emit, of_codec in Hmeta.
      destruct (sharp_metadata E input); [|discriminate].
      unfold ret in Hmeta. congruence. }
    rewrite Hm in Hfuel. clear Hmeta. revert w'.
    apply terminates_bind; [|intros ?; terminates_auto].
    intros w'.
    apply (resize_loop_terminates E fmt (target_bytes t) input fuel
             ltac:(lia) (S (Z.to_nat (Z.log2 (width meta)))));
      [apply below_pow2|lia].
Qed.

End EngineRuns.

(** ** [compressImage] *)

Section ImageFacts.

Variable E : Engines.

Lemma sharp_input_run p w f :
  fs_lookup (fs w) p = Some f -> sharp_input p w = (Ok (content f), w).
Proof. intros H. unfold sharp_input, bind, get_fs. rewrite H. reflexivity. Qed.

Lemma sharp_input_missing p w :
  fs_lookup (fs w) p = None ->
  sharp_input p w = (Throw (Error "Input file is missing"), w).
Proof. intros H. unfold sharp_input, bind, get_fs. rewrite H. reflexivity. Qed.

Lemma metadata_of_run input w :
  metadata_of E input w =
    (match sharp_metadata E input with
     | Some m => Ok m
     | None => Throw (Error "sharp")
     end, logged EvMetadata w).
Proof.
  unfold metadata_of, bind, emit, of_codec.
  destruct (sharp_metadata E input); reflexivity.
Qed.

Lemma toBuffer_of_run input r w :
  toBuffer_of E input r w =
    (match sharp_toBuffer E input r with
     | Some b => Ok b
     | None => Throw (Error "sharp")
     end, logged (EvToBuffer r) w).
Proof.
  unfold toBuffer_of, bind, emit, of_codec.
  destruct (sharp_toBuffer E input r); reflexivity.
Qed.

(** The preprocessing step of [compressImage]. *)
Lemma preprocessing_run inputPath m w f :
  fs_lookup (fs w) inputPath = Some f ->
  (if (4000 <? width m) || (4000 <? height m)
   then file <- sharp_input inputPath ;; toBuffer_of E file (Some (4000, 4000))
   else file <- sharp_input inputPath ;; toBuffer_of E file None) w
  = (match sharp_toBuffer E (content f) (bound_of m) with
     | Some b => Ok b
     | None => Throw (Error "sharp")
     end, logged (EvToBuffer (bound_of m)) w).
Proof.
  intros Hf. unfold bound_of.
  destruct ((4000 <? width m) || (4000 <? height m));
    rewrite (bind_ok _ _ _ _ _ (sharp_input_run _ _ _ Hf));
    apply toBuffer_of_run.
Qed.

(** On an image that [sharp] reads, [compressImage] is
    [compressBufferRecursive] on the preprocessed buffer. *)
Lemma compressImage_run fuel inputPath outputDir t w f m buf :
  fs_lookup (fs w) inputPath = Some f ->
  sharp_metadata E (content f) = Some m ->
  sharp_toBuffer E (content f) (bound_of m) = Some buf ->
  compressImage E fuel inputPath outputDir t w =
    compressBufferRecursive E fuel buf
      (path_join outputDir (basename inputPath)) (format m) t
      (preprocessed m w).
Proof.
  intros Hf Hm Hbuf. unfold compressImage. cbv zeta.
  erewrite bind_ok; cycle 1.
  { rewrite (bind_ok _ _ _ _ _ (sharp_input_run _ _ _ Hf)).
    rewrite metadata_of_run, Hm. reflexivity. }
  erewrite bind_ok; cycle 1.
  { rewrite (preprocessing_run inputPath m _ f) by exact Hf.
    rewrite Hbuf. reflexivity. }
  reflexivity.
Qed.

(** On anything else it throws before the search, and before any encode. *)
Lemma compressImage_rejects fuel inputPath outputDir t w :
  (forall f m buf,
     fs_lookup (fs w) inputPath = Some f ->
     sharp_metadata E (content f) = Some m ->
     sharp_toBuffer E (content f) (bound_of m) = Some buf -> False) ->
  exists e w' evs,
    compressImage E fuel inputPath outputDir t w = (Throw e, w') /\
    fs w' = fs w /\ trace w' = (trace w ++ evs)%list /\ encode_calls evs = [].
Proof.
  intros Hno. unfold compressImage. cbv zeta.
  destruct (fs_lookup (fs w) inputPath) as [f|] eqn:Hf.
  2: { erewrite bind_throw; cycle 1.
       { erewrite bind_throw by (apply sharp_input_missing, Hf). reflexivity. }
       eexists _, _, []. rewrite app_nil_r. repeat split; reflexivity. }
  destruct (sharp_metadata E (content f)) as [m|] eqn:Hm.
  2: { erewrite bind_throw; cycle 1.
       { rewrite (bind_ok _ _ _ _ _ (sharp_input_run _ _ _ Hf)).
         rewrite metadata_of_run, Hm. reflexivity. }
       eexists _, _, [EvMetadata]. repeat split; reflexivity. }
  erewrite bind_ok; cycle 1.
  { rewrite (bind_ok _ _ _ _ _ (sharp_input_run _ _ _ Hf)).
    rewrite metadata_of_run, Hm. reflexivity. }
  destruct (sharp_toBuffer E (content f) (bound_of m)) as [buf|] eqn:Hbuf.
  { exfalso. eapply Hno; eauto. }
  erewrite bind_throw; cycle 1.
  { rewrite (preprocessing_run inputPath m _ f) by exact Hf.
    rewrite Hbuf. reflexivity. }
  eexists _, _, [EvMetadata; EvToBuffer (bound_of m)].
  split; [reflexivity|]. split; [reflexivity|]. split; [|reflexivity].
  simpl. rewrite <- app_assoc. reflexivity.
Qed.

Lemma compressImage_rejects_passes fuel inputPath outputDir t w :
  (forall f m buf,
     fs_lookup (fs w) inputPath = Some f ->
     sharp_metadata E (content f) = Some m ->
     sharp_toBuffer E (content f) (bound_of m) = Some buf -> False) ->
  exists e w' evs,
    compressImage E fuel inputPath outputDir t w = (Throw e, w') /\
    trace w' = (trace w ++ evs)%list /\ encode_calls evs = [] /\
    (List.length (encoder_passes evs) <= 1)%nat.
Proof.
  intros Hno. unfold compressImage. cbv zeta.
  destruct (fs_lookup (fs w) inputPath) as [f|] eqn:Hf.
  2: { erewrite bind_throw; cycle 1.
       { erewrite bind_throw by (apply sharp_input_missing, Hf). reflexivity. }
       eexists _, _, []. rewrite app_nil_r.
       repeat split; [reflexivity..|cbn; lia]. }
  destruct (sharp_metadata E (content f)) as [m|] eqn:Hm.
  2: { erewrite bind_throw; cycle 1.
       { rewrite (bind_ok _ _ _ _ _ (sharp_input_run _ _ _ Hf)).
         rewrite metadata_of_run, Hm. reflexivity. }
       eexists _, _, [EvMetadata]. repeat split; [reflexivity..|cbn; lia]. }
  erewrite bind_ok; cycle 1.
  { rewrite (bind_ok _ _ _ _ _ (sharp_input_run _ _ _ Hf)).
    rewrite metadata_of_run, Hm. reflexivity. }
  destruct (sharp_toBuffer E (content f) (bound_of m)) as [buf|] eqn:Hbuf.
  { exfalso. eapply Hno; eauto. }
  erewrite bind_throw; cycle 1.
  { rewrite (preprocessing_run inputPath m _ f) by exact Hf.
    rewrite Hbuf. reflexivity. }
  eexists _, _, [EvMetadata; EvToBuffer (bound_of m)].
  split; [reflexivity|]. split; [|split; [reflexivity|cbn; lia]].
  simpl. rewrite <- app_assoc. reflexivity.
Qed.

Lemma compressImage_terminates inputPath outputDir t w :
  exists n0 : nat, forall fuel, (n0 <= fuel)%nat ->
    fst (compressImage E fuel inputPath outputDir t w) <> OutOfFuel.
Proof.
  destruct (fs_lookup (fs w) inputPath) as [f|] eqn:Hf.
  2: { exists 0%nat. intros fuel _.
       destruct (compressImage_rejects fuel inputPath outputDir t w)
         as (e & w' & evs & -> & _); [congruence|discriminate]. }
  destruct (sharp_metadata E (content f)) as [m|] eqn:Hm.
  2: { exists 0%nat. intros fuel _.
       destruct (compressImage_rejects fuel inputPath outputDir t w)
         as (e & w' & evs & -> & _); [congruence|discriminate]. }
  destruct (sharp_toBuffer E (content f) (bound_of m)) as [buf|] eqn:Hbuf.
  2: { exists 0%nat. intros fuel _.
       destruct (compressImage_rejects fuel inputPath outputDir t w)
         as (e & w' & evs & -> & _); [congruence|discriminate]. }
  exists (search_fuel E buf). intros fuel Hfuel.
  rewrite (compressImage_run fuel inputPath outputDir t w f m buf Hf Hm Hbuf).
  apply terminates_compressBufferRecursive. exact Hfuel.
Qed.

End ImageFacts.

(** ** The size of the result *)

Lemma int_le_mul1024 (n : Z) (t : JsNum.t) :
  JsNum.int_le n (JsNum.mul1024 t) = true <-> JsNum.int_le_kb n t.
Proof.
  destruct t as [|s|q]; simpl.
  - split; [discriminate|tauto].
  - destruct s; simpl; split; congruence.
  - apply Qle_bool_iff.
Qed.

Lemma positive_not_falsy (t : JsNum.t) :
  JsNum.positive t -> JsNum.falsy t = false.
Proof.
  destruct t as [|s|q]; simpl; [tauto|reflexivity|].
  intros Hq. destruct (Qeq_bool q 0) eqn:Heq; [|reflexivity].
  apply Qeq_bool_iff in Heq. rewrite Heq in Hq.
  exfalso. exact (Qlt_irrefl 0 Hq).
Qed.

Lemma writeFileSync_run p b w : writeFileSync p b w = (Ok tt, written_to p b w).
Proof. reflexivity. Qed.

Lemma lookup_written_to p b w :
  fs_lookup (fs (written_to p b w)) p = Some (mkFile b (inject_Z (clock w))).
Proof. apply fs_lookup_write_eq. Qed.

Section SizeFacts.

Variable E : Engines.

Lemma quality_search_no_throw fmt tb input (fuel : nat) :
  (forall w q, is_Some (sharp_encode E input w (quality_codec fmt q))) ->
  forall w l r best world e,
    fst (quality_search E fmt tb input fuel w l r best world) <> Throw e.
Proof.
  intros Htot. induction fuel as [|fuel IH]; intros w l r best world e.
  - simpl. destruct (l <=? r); discriminate.
  - cbn [quality_search]. destruct (l <=? r); [|discriminate].
    unfold bind. rewrite getBuffer_run.
    destruct (Htot (resize_width w) ((l + r) / 2)) as [buf ->].
    destruct (fits tb buf); apply IH.
Qed.

Lemma resize_loop_no_throw fmt tb input (qfuel fuel : nat) :
  (forall w q, is_Some (sharp_encode E input w (quality_codec fmt q))) ->
  forall width0 world e,
    fst (resize_loop E fmt tb input qfuel fuel width0 world) <> Throw e.
Proof.
  intros Htot. induction fuel as [|fuel IH]; intros width0 world e;
    [discriminate|].
  cbn [resize_loop]. fold (next_width width0).
  unfold bind. rewrite getBuffer_run.
  destruct (Htot (resize_width (Some (next_width width0))) 50) as [buf ->].
  destruct (fits tb buf); [apply quality_search_no_throw, Htot|].
  rewrite getBuffer_run.
  destruct (Htot (resize_width (Some (next_width width0))) 1) as [bufLow ->].
  destruct (fits tb bufLow); [discriminate|].
  destruct (next_width width0 =? 1); [|apply IH].
  rewrite getBuffer_run.
  destruct (Htot (resize_width (Some 1)) 1) as [b1 ->]. discriminate.
Qed.

(** With a target, the search returns whenever the codec does. *)
Lemma search_returns fuel input out fmt t w :
  JsNum.falsy t = false ->
  codec_total E fmt input ->
  (search_fuel E input <= fuel)%nat ->
  exists w', compressBufferRecursive E fuel input out fmt (Some t) w
             = (Ok out, w').
Proof.
  intros Ht [Henc [meta Hmeta]] Hfuel.
  pose proof (terminates_compressBufferRecursive E fuel input out fmt (Some t)
                Hfuel w) as Hterm.
  unfold compressBufferRecursive in *.
  change (no_target (Some t)) with (JsNum.falsy t) in *.
  rewrite Ht in *. cbv zeta in *.
  unfold bind at 1. unfold bind at 1 in Hterm. rewrite getBuffer_run in *.
  destruct (Henc (resize_width None) 1) as [lowQ Hlow]. rewrite Hlow in *.
  destruct (fits _ lowQ).
  - unfold bind at 1. unfold bind at 1 in Hterm.
    pose proof (quality_search_no_throw fmt (target_bytes (Some t)) input fuel
                  Henc None 1 100 lowQ
                  (logged (EvEncode (resize_width None) (quality_codec fmt 1)) w))
      as Hthrow.
    destruct (quality_search _ _ _ _ _ _ _ _ _ _) as [[b|e|] w1].
    + rewrite (bind_ok _ _ _ _ _ (writeFileSync_run _ _ _)).
      eexists; reflexivity.
    + exfalso. exact (Hthrow e eq_refl).
    + exfalso. exact (Hterm eq_refl).
  - unfold bind at 1. unfold bind at 1 in Hterm.
    rewrite metadata_of_run, Hmeta in *.
    unfold bind at 1. unfold bind at 1 in Hterm.
    pose proof (resize_loop_no_throw fmt (target_bytes (Some t)) input fuel fuel
                  Henc (width meta)
                  (logged EvMetadata
                     (logged (EvEncode (resize_width None) (quality_codec fmt 1)) w)))
      as Hthrow.
    destruct (resize_loop _ _ _ _ _ _ _ _) as [[b|e|] w1].
    + rewrite (bind_ok _ _ _ _ _ (writeFileSync_run _ _ _)).
      eexists; reflexivity.
    + exfalso. exact (Hthrow e eq_refl).
    + exfalso. exact (Hterm eq_refl).
Qed.

(** With a target, what the search writes fits the target, provided the
    encoding at width 1 and quality 1 does. *)
Lemma search_fits fuel input out fmt t w p w' :
  JsNum.falsy t = false ->
  (forall b, sharp_encode E input (Some 1) (quality_codec fmt 1) = Some b ->
             JsNum.int_le_kb (byte_length b) t) ->
  compressBufferRecursive E fuel input out fmt (Some t) w = (Ok p, w') ->
  p = out /\
  exists g, fs_lookup (fs w') out = Some g /\
            JsNum.int_le_kb (byte_length (content g)) t.
Proof.
  intros Ht Hfloor Hrun.
  unfold compressBufferRecursive in Hrun.
  change (no_target (Some t)) with (JsNum.falsy t) in Hrun.
  rewrite Ht in Hrun. cbv zeta in Hrun.
  unfold bind at 1 in Hrun. rewrite getBuffer_run in Hrun.
  case_encode Hrun as lowQ; [|discriminate].
  destruct (fits (target_bytes (Some t)) lowQ) eqn:Hlow.
  - unfold bind at 1 in Hrun.
    destruct (quality_search _ _ _ _ _ _ _ _ _ _) as [[b|e|] w1] eqn:Hq;
      [|discriminate|discriminate].
    rewrite (bind_ok _ _ _ _ _ (writeFileSync_run _ _ _)) in Hrun.
    unfold ret in Hrun.
    assert (p = out) as -> by congruence.
    assert (w' = written_to out b w1) as -> by congruence.
    split; [reflexivity|]. eexists. split; [apply lookup_written_to|].
    simpl. apply int_le_mul1024.
    eapply quality_search_fits; [exact Hlow|exact Hq].
  - unfold bind at 1 in Hrun. rewrite metadata_of_run in Hrun.
    destruct (sharp_metadata E input) as [meta|]; [|discriminate].
    unfold bind at 1 in Hrun.
    destruct (resize_loop _ _ _ _ _ _ _ _) as [[b|e|] w1] eqn:Hloop;
      [|discriminate|discriminate].
    rewrite (bind_ok _ _ _ _ _ (writeFileSync_run _ _ _)) in Hrun.
    unfold ret in Hrun.
    assert (p = out) as -> by congruence.
    assert (w' = written_to out b w1) as -> by congruence.
    split; [reflexivity|]. eexists. split; [apply lookup_written_to|].
    simpl. apply resize_loop_result in Hloop as [Hfit|Hfloor1].
    + apply int_le_mul1024. exact Hfit.
    + apply Hfloor. exact Hfloor1.
Qed.

End SizeFacts.

(** ** The image claims *)

Lemma encode_calls_app (a b : list Event) :
  encode_calls (a ++ b) = (encode_calls a ++ encode_calls b)%list.
Proof.
  induction a as [|e a IH]; [reflexivity|].
  destruct e; simpl; rewrite IH; reflexivity.
Qed.

Lemma render_calls_app (a b : list Event) :
  render_calls (a ++ b) = (render_calls a ++ render_calls b)%list.
Proof.
  induction a as [|e a IH]; [reflexivity|].
  destruct e; simpl; rewrite IH; reflexivity.
Qed.

Section ImageClaims.

Variable E : Engines.

(** C5.  The target-path search runs to completion.  The quality search
    over [1,100] exits within seven probes, at any width and from any
    world.  The resize loop, with the product [width * 0.70] rounded as a
    double and floored, reaches a [break] within [2 * k + 1] iterations
    for any starting width below [2 ^ k]: it breaks at a probe that fits or
    at width 1 (its value is then a buffer that fits, or the encoding at
    width 1 and quality 1), and two iterations that reach neither more
    than halve the width.  So
    [compressBufferRecursive] finishes for every buffer, format and
    target, and [compressImage] for every input, output directory, target
    and world. *)
Theorem target_search_terminates :
  (forall fmt targetBytes currentBuffer w best world,
     fst (quality_search E fmt targetBytes currentBuffer 7 w 1 100 best world)
       <> OutOfFuel) /\
  (forall fmt targetBytes currentBuffer (k : nat) width0 world,
     width0 < 2 ^ Z.of_nat k ->
     fst (resize_loop E fmt targetBytes currentBuffer 7 (2 * k + 1) width0 world)
       <> OutOfFuel) /\
  (forall fmt targetBytes currentBuffer qfuel fuel width0 world b world',
     resize_loop E fmt targetBytes currentBuffer qfuel fuel width0 world
       = (Ok b, world') ->
     fits targetBytes b = true \/
     sharp_encode E currentBuffer (Some 1) (quality_codec fmt 1) = Some b) /\
  (forall fuel input out fmt t world,
     (search_fuel E input <= fuel)%nat ->
     fst (compressBufferRecursive E fuel input out fmt t world) <> OutOfFuel) /\
  (forall inputPath outputDir t world,
     exists n0 : nat, forall fuel, (n0 <= fuel)%nat ->
       fst (compressImage E fuel inputPath outputDir t world) <> OutOfFuel).
Proof.
  split; [|split; [|split; [|split]]].
  - intros fmt tb cur w best world.
    apply quality_search_terminates. reflexivity.
  - intros fmt tb cur k width0 world Hw.
    apply (resize_loop_terminates E fmt tb cur 7 ltac:(lia) k); [exact Hw|lia].
  - intros fmt tb cur qfuel fuel width0 world b world' Hrun.
    eapply resize_loop_result. exact Hrun.
  - intros fuel input out fmt t world Hfuel.
    apply terminates_compressBufferRecursive. exact Hfuel.
  - intros inputPath outputDir t world.
    apply compressImage_terminates.
Qed.

(** C1.  Take an image that [sharp] reads, [buf] its preprocessed
    (4000x4000-bounded) buffer, and a strictly positive [targetSizeKB] [t]
    such that the encoding of [buf] at width 1 and quality 1 has at most
    [t * 1024] bytes.  Then, with enough iterations allowed,
    [compressImage] comes to an end; whenever it returns, it returns the
    output path and the file there has at most [t * 1024] bytes; and it
    does return whenever the codec answers every call of the search. *)
Theorem compressImage_meets_target
    (inputPath : Path) (outputDir : Dir) (t : JsNum.t) (w : World)
    (f : File) (m : Metadata) (buf : bytes) :
  JsNum.positive t ->
  fs_lookup (fs w) inputPath = Some f ->
  sharp_metadata E (content f) = Some m ->
  sharp_toBuffer E (content f) (bound_of m) = Some buf ->
  (forall b, sharp_encode E buf (Some 1) (quality_codec (format m) 1) = Some b ->
             JsNum.int_le_kb (byte_length b) t) ->
  exists n0 : nat, forall fuel, (n0 <= fuel)%nat ->
    let out := path_join outputDir (basename inputPath) in
    fst (compressImage E fuel inputPath outputDir (Some t) w) <> OutOfFuel /\
    (forall p w',
       compressImage E fuel inputPath outputDir (Some t) w = (Ok p, w') ->
       p = out /\
       exists g, fs_lookup (fs w') out = Some g /\
                 JsNum.int_le_kb (byte_length (content g)) t) /\
    (codec_total E (format m) buf ->
     exists w', compressImage E fuel inputPath outputDir (Some t) w
                = (Ok out, w')).
Proof.
  intros Hpos Hf Hm Hbuf Hfloor.
  pose proof (positive_not_falsy t Hpos) as Ht.
  exists (search_fuel E buf). intros fuel Hfuel out.
  rewrite (compressImage_run E fuel inputPath outputDir (Some t) w f m buf
             Hf Hm Hbuf).
  split; [|split].
  - apply terminates_compressBufferRecursive. exact Hfuel.
  - intros p w' Hrun. eapply search_fits; eauto.
  - intros Htot. apply search_returns; assumption.
Qed.

(** C8, amended.  Without a target ([targetSizeKB] is [null]),
    [compressImage] does not enter a loop: its run is the same whatever the
    loop bound.  When the input is there and the codec answers, it returns
    the output path, and the engine calls it made are the metadata probe,
    the [toBuffer] of the preprocessing, which re-encodes the input with
    the defaults of its format, and one encode with no resize at the fixed
    preset of the format, whose bytes are the output file: two encoder
    passes, of which exactly one is made with the preset.  Whatever the
    outcome, it made at most one encode with explicit options and at most
    two encoder passes. *)
Theorem compressImage_no_target_one_preset_encode
    (fuel : nat) (inputPath : Path) (outputDir : Dir) (w : World) :
  let out := path_join outputDir (basename inputPath) in
  compressImage E fuel inputPath outputDir None w
    = compressImage E 0 inputPath outputDir None w /\
  (forall f m buf b,
     fs_lookup (fs w) inputPath = Some f ->
     sharp_metadata E (content f) = Some m ->
     sharp_toBuffer E (content f) (bound_of m) = Some buf ->
     sharp_encode E buf None (preset_codec (format m) out) = Some b ->
     exists w',
       compressImage E fuel inputPath outputDir None w = (Ok out, w') /\
       trace w' = (trace w ++ [EvMetadata; EvToBuffer (bound_of m);
                               EvEncode None (preset_codec (format m) out)])%list /\
       encoder_passes (trace w') =
         (encoder_passes (trace w)
          ++ [EvToBuffer (bound_of m);
              EvEncode None (preset_codec (format m) out)])%list /\
       encode_calls (trace w') =
         (encode_calls (trace w) ++ [(None, preset_codec (format m) out)])%list /\
       content <$> fs_lookup (fs w') out = Some b) /\
  match compressImage E fuel inputPath outputDir None w with
  | (Ok out', w') =>
      out' = out /\
      exists f m buf b,
        fs_lookup (fs w) inputPath = Some f /\
        sharp_metadata E (content f) = Some m /\
        sharp_toBuffer E (content f) (bound_of m) = Some buf /\
        sharp_encode E buf None (preset_codec (format m) out) = Some b
  | (Throw _, w') =>
      exists evs, trace w' = (trace w ++ evs)%list /\
                  (List.length (encode_calls evs) <= 1)%nat /\
                  (List.length (encoder_passes evs) <= 2)%nat
  | (OutOfFuel, _) => False
  end.
Proof.
  intros out. split; [reflexivity|].
  assert (Hreturns : forall f m buf b,
     fs_lookup (fs w) inputPath = Some f ->
     sharp_metadata E (content f) = Some m ->
     sharp_toBuffer E (content f) (bound_of m) = Some buf ->
     sharp_encode E buf None (preset_codec (format m) out) = Some b ->
     compressImage E fuel inputPath outputDir None w
       = (Ok out, written_to out b
                    (logged (EvEncode None (preset_codec (format m) out))
                       (preprocessed m w)))).
  { intros f m buf b Hf Hm Hbuf Hb.
    rewrite (compressImage_run E fuel inputPath outputDir None w f m buf
               Hf Hm Hbuf).
    unfold compressBufferRecursive. cbn [no_target]. fold out.
    unfold toFile, bind at 1, bind at 1. rewrite encode_run, Hb.
    rewrite writeFileSync_run. reflexivity. }
  assert (Htrace : forall m b,
     trace (written_to out b
              (logged (EvEncode None (preset_codec (format m) out))
                 (preprocessed m w)))
     = (trace w ++ [EvMetadata; EvToBuffer (bound_of m);
                    EvEncode None (preset_codec (format m) out)])%list).
  { intros m b. simpl. rewrite <- !app_assoc. reflexivity. }
  split.
  - intros f m buf b Hf Hm Hbuf Hb.
    rewrite (Hreturns f m buf b Hf Hm Hbuf Hb).
    eexists. split; [reflexivity|]. split; [apply Htrace|].
    split; [|split].
    + rewrite Htrace. unfold encoder_passes. rewrite List.filter_app.
      reflexivity.
    + rewrite Htrace, encode_calls_app. reflexivity.
    + rewrite lookup_written_to. reflexivity.
  - assert (Hreject :
      (forall f m buf,
         fs_lookup (fs w) inputPath = Some f ->
         sharp_metadata E (content f) = Some m ->
         sharp_toBuffer E (content f) (bound_of m) = Some buf -> False) ->
      match compressImage E fuel inputPath outputDir None w with
      | (Throw _, w') =>
          exists evs, trace w' = (trace w ++ evs)%list /\
                      (List.length (encode_calls evs) <= 1)%nat /\
                      (List.length (encoder_passes evs) <= 2)%nat
      | _ => False
      end).
    { intros Hno.
      destruct (compressImage_rejects_passes E fuel inputPath outputDir None w
                  Hno)
        as (e & w' & evs & -> & Htr & Henc & Hpass).
      exists evs. rewrite Henc. split; [exact Htr|]. split; [simpl; lia|lia]. }
    destruct (fs_lookup (fs w) inputPath) as [f|] eqn:Hf.
    2: { specialize (Hreject ltac:(congruence)).
         destruct (compressImage _ _ _ _ _ _) as [[?|?|] ?]; tauto. }
    destruct (sharp_metadata E (content f)) as [m|] eqn:Hm.
    2: { specialize (Hreject ltac:(congruence)).
         destruct (compressImage _ _ _ _ _ _) as [[?|?|] ?]; tauto. }
    destruct (sharp_toBuffer E (content f) (bound_of m)) as [buf|] eqn:Hbuf.
    2: { specialize (Hreject ltac:(congruence)).
         destruct (compressImage _ _ _ _ _ _) as [[?|?|] ?]; tauto. }
    clear Hreject.
    destruct (sharp_encode E buf None (preset_codec (format m) out))
      as [b|] eqn:Hb.
    + rewrite (Hreturns f m buf b eq_refl Hm Hbuf Hb).
      split; [reflexivity|]. exists f, m, buf, b. auto.
    + rewrite (compressImage_run E fuel inputPath outputDir None w f m buf
                 Hf Hm Hbuf).
      unfold compressBufferRecursive. cbn [no_target]. fold out.
      unfold toFile, bind at 1, bind at 1. rewrite encode_run, Hb.
      exists [EvMetadata; EvToBuffer (bound_of m);
              EvEncode None (preset_codec (format m) out)].
      split; [|split; simpl; lia]. simpl. rewrite <- !app_assoc. reflexivity.
Qed.

End ImageClaims.

(** C8, counterexample.  On a 100 by 50 JPEG and with no target,
    [compressImage] returns after two encoder passes, not one: the
    [toBuffer] of the preprocessing and the encode at the preset. *)
Lemma single_encode_as_worded_fails : ~ single_encode_as_worded.
Proof.
  intros Hclaim.
  destruct (Hclaim Demo.engines 0%nat Demo.upload_path PROCESSED_DIR Demo.world
              (path_join PROCESSED_DIR "a.jpg")
              (snd (compressImage Demo.engines 0 Demo.upload_path PROCESSED_DIR
                      None Demo.world)))
    as (e & He).
  - vm_compute. reflexivity.
  - vm_compute in He. discriminate He.
Qed.

Example no_target_run :
  encoder_passes
    (trace (snd (compressImage Demo.engines 0 Demo.upload_path PROCESSED_DIR
                   None Demo.world)))
  = [EvToBuffer None; EvEncode None (CJpeg 70 true)].
Proof. vm_compute. reflexivity. Qed.

(** ** The upload endpoint *)

Section UploadClaims.

Variable E : Engines.

(** C10.  When the [targetSizeKB] field of an upload parses to [NaN] or to
    zero, the request is served exactly as the same request without the
    field: [compressImage] and [compressPdf] take their no-target path. *)
Theorem upload_falsy_target_is_no_target
    (fuel : nat) (file : option UploadedFile) (s : string) (w : World) :
  parseFloat E s = JsNum.NaN \/
  (exists q, parseFloat E s = JsNum.Fin q /\ (q == 0)%Q) ->
  upload E fuel (mkUploadRequest file (Some s)) w
    = upload E fuel (mkUploadRequest file None) w /\
  (forall inputPath outputDir,
     compressImage E fuel inputPath outputDir (parse_target E (Some s)) w
       = compressImage E fuel inputPath outputDir None w /\
     compressPdf E inputPath outputDir (parse_target E (Some s)) w
       = compressPdf E inputPath outputDir None w).
Proof.
  intros Hparse.
  assert (Hcase : parse_target E (Some s) = None \/
                  parse_target E (Some s) = Some JsNum.NaN \/
                  exists d, parse_target E (Some s) = Some (JsNum.Fin (0 # d))).
  { unfold parse_target, truthy_string.
    destruct (s =? "")%string; [left; reflexivity|right].
    destruct Hparse as [->|(q & -> & Hq)]; [left; reflexivity|right].
    destruct q as [n d]. exists d.
    unfold Qeq in Hq. simpl in Hq. rewrite Z.mul_1_r in Hq. subst n.
    reflexivity. }
  unfold upload. cbn [req_file body_targetSizeKB].
  destruct Hcase as [->|[->|[d ->]]];
    (split; [reflexivity|intros inputPath outputDir; split; reflexivity]).
Qed.

Lemma on_error_run file err w :
  exists w', on_error file err w = (Ok (RespError 500 "Processing failed"), w') /\
             fs_lookup (fs w') (file_path file) = None.
Proof.
  unfold on_error, bind, console_error. rewrite deleteFile_run.
  eexists. split; [reflexivity|]. apply lookup_without_eq.
Qed.

(** Whatever the compressor did, short of running out of iterations, the
    handler answers, and the upload is gone when it does. *)
Lemma upload_tail (file : UploadedFile) (m : M Path) (w : World) :
  fst (m w) <> OutOfFuel ->
  exists resp w',
    try_catch
      (processedPath <- m ;; respond_done file (file_path file) processedPath)
      (on_error file) w = (Ok resp, w') /\
    fs_lookup (fs w') (file_path file) = None.
Proof.
  intros Hm. unfold try_catch, bind at 1.
  destruct (m w) as [[p|e|] w1]; simpl in Hm; [| |congruence].
  - unfold respond_done, bind at 1, statSync at 1, bind at 1, get_fs at 1.
    destruct (fs_lookup (fs w1) (file_path file)) as [orig|].
    2: { destruct (on_error_run file (SystemError "ENOENT") w1)
           as (w' & Hrun & Habs).
         exists (RespError 500 "Processing failed"), w'.
         split; [exact Hrun|exact Habs]. }
    unfold ret at 1. unfold bind at 1, statSync at 1, bind at 1, get_fs at 1.
    destruct (fs_lookup (fs w1) p) as [proc|].
    2: { destruct (on_error_run file (SystemError "ENOENT") w1)
           as (w' & Hrun & Habs).
         exists (RespError 500 "Processing failed"), w'.
         split; [exact Hrun|exact Habs]. }
    unfold ret at 1. unfold bind at 1. rewrite deleteFile_run.
    eexists _, _. split; [reflexivity|]. apply lookup_without_eq.
  - destruct (on_error_run file e w1) as (w' & Hrun & Habs).
    exists (RespError 500 "Processing failed"), w'.
    split; [exact Hrun|exact Habs].
Qed.

(** C2.  Every call of the upload endpoint on an uploaded file, given
    enough iterations, answers, and the upload is absent from the store
    when it does: after a successful compression, after a failure of the
    codec or the renderer, and after the rejection of a type that is
    neither PDF nor image.  In that last case the answer is 400, the output
    area is as it was, and no engine was called. *)
Theorem upload_removes_upload (req : UploadRequest) (file : UploadedFile)
    (w : World) :
  req_file req = Some file ->
  exists n0 : nat, forall fuel, (n0 <= fuel)%nat ->
    exists resp w',
      upload E fuel req w = (Ok resp, w') /\
      fs_lookup (fs w') (file_path file) = None /\
      ((mimetype file =? "application/pdf")%string = false ->
       String.prefix "image/" (mimetype file) = false ->
       resp = RespError 400 "Unsupported file type" /\
       processed (fs w') = processed (fs w) /\
       trace w' = trace w).
Proof.
  intros Hfile. unfold upload. rewrite Hfile.
  destruct (mimetype file =? "application/pdf")%string eqn:Hpdf.
  - exists 0%nat. intros fuel _.
    destruct (upload_tail file
                (compressPdf E (file_path file) PROCESSED_DIR
                   (parse_target E (body_targetSizeKB req))) w
                (terminates_compressPdf E _ _ _ w)) as (resp & w' & Hrun & Habs).
    exists resp, w'. split; [exact Hrun|]. split; [exact Habs|discriminate].
  - destruct (String.prefix "image/" (mimetype file)) eqn:Himg.
    + destruct (compressImage_terminates E (file_path file) PROCESSED_DIR
                  (parse_target E (body_targetSizeKB req)) w) as (n0 & Hn0).
      exists n0. intros fuel Hfuel.
      destruct (upload_tail file
                  (compressImage E fuel (file_path file) PROCESSED_DIR
                     (parse_target E (body_targetSizeKB req))) w
                  (Hn0 fuel Hfuel)) as (resp & w' & Hrun & Habs).
      exists resp, w'. split; [exact Hrun|]. split; [exact Habs|discriminate].
    + exists 0%nat. intros fuel _. unfold try_catch, bind.
      rewrite deleteFile_run. eexists _, _. split; [reflexivity|].
      split; [apply lookup_without_eq|]. intros _ _.
      split; [reflexivity|]. split; reflexivity.
Qed.

End UploadClaims.

(** ** The PDF ladder *)

Section PdfFacts.

Variable E : Engines.

Lemma checkGhostscript_from_run cmds w :
  exists w', checkGhostscript_from E cmds w
               = (Ok (List.find (gs_version E) cmds), w') /\
    fs w' = fs w /\ clock w' = clock w /\
    render_calls (trace w') = render_calls (trace w).
Proof.
  revert w. induction cmds as [|cmd rest IH]; intros w.
  - exists w. repeat split; reflexivity.
  - simpl. unfold bind at 1, emit.
    destruct (gs_version E cmd).
    + eexists. split; [reflexivity|]. repeat split.
      simpl. rewrite render_calls_app. simpl. apply app_nil_r.
    + destruct (IH (mkWorld (fs w) (clock w) (trace w ++ [EvGsVersion cmd])
                      (console w))) as (w' & Hrun & Hfs & Hclock & Htr).
      exists w'. split; [exact Hrun|]. repeat split; try assumption.
      rewrite Htr. simpl. rewrite render_calls_app. simpl. apply app_nil_r.
Qed.

Lemma runGs_run gs flags out inp w :
  runGs E gs flags out inp w =
    let r := gs_render E gs flags (content <$> fs_lookup (fs w) inp) in
    let w1 := logged (EvGsRender gs flags) w in
    (if exit_ok r then Ok tt else Throw (Error "GS code"),
     match written r with
     | Some b => written_to out b w1
     | None => w1
     end).
Proof.
  unfold runGs, bind, emit, get_fs. simpl.
  destruct (written (gs_render E gs flags _)) as [b|];
    destruct (exit_ok (gs_render E gs flags _)); reflexivity.
Qed.

(** The state in which an attempt starts its process: the output path has
    been cleared. *)
Lemma clear_output_run out w :
  (ex <- existsSync out ;; (if ex then unlinkSync out else ret tt)) w
    = (Ok tt, without out w).
Proof.
  unfold bind, existsSync, get_fs, ret, unlinkSync, bind, get_fs.
  destruct (fs_lookup (fs w) out) as [g|] eqn:Hl.
  - rewrite bool_decide_eq_true_2 by eauto. rewrite Hl. reflexivity.
  - rewrite bool_decide_eq_false_2 by (intros [? ?]; discriminate).
    rewrite without_absent by exact Hl. reflexivity.
Qed.

(** One attempt of the ladder, on a source that is not the output path. *)
Lemma attempt_run gs tb inp out strat w f :
  inp <> out ->
  fs_lookup (fs w) inp = Some f ->
  let r := render E gs strat (content f) in
  exists w',
    attempt E gs tb inp out strat w
      = (Ok (if meets tb r then Some out else None), w') /\
    fs_lookup (fs w') inp = Some f /\
    fs_lookup (fs w') out =
      match written r with
      | Some b => Some (mkFile b (inject_Z (clock w)))
      | None => None
      end /\
    clock w' = clock w /\
    trace w' = (trace w ++ [EvGsRender gs (ladder_flags strat)])%list.
Proof.
  intros Hne Hf r. unfold attempt, try_catch.
  assert (Hin : fs_lookup (fs (without out w)) inp = Some f).
  { rewrite lookup_without_ne by congruence. exact Hf. }
  rewrite <- (bind_assoc (existsSync out)
                (fun ex => if ex then unlinkSync out else ret tt)).
  rewrite (bind_ok _ _ _ _ _ (clear_output_run out w)).
  unfold bind at 1. rewrite runGs_run. cbv zeta.
  rewrite Hin. simpl fmap. fold (render E gs strat (content f)).
  fold r. unfold meets.
  destruct (exit_ok r).
  - destruct (written r) as [b|].
    + unfold bind at 1. rewrite existsSync_run, lookup_written_to.
      rewrite bool_decide_eq_true_2 by eauto.
      unfold bind at 1, statSync, bind at 1, get_fs.
      rewrite lookup_written_to. unfold ret at 1. cbn [content andb].
      destruct (JsNum.int_le (byte_length b) tb);
        (eexists; split; [reflexivity|]; split;
         [simpl fs; rewrite fs_lookup_write_ne by congruence; exact Hin|];
         split; [rewrite lookup_written_to; reflexivity|]; split; reflexivity).
    + unfold bind at 1. rewrite existsSync_run.
      change (fs (logged (EvGsRender gs (ladder_flags strat)) (without out w)))
        with (fs_remove out (fs w)).
      rewrite fs_lookup_remove_eq.
      rewrite bool_decide_eq_false_2 by (intros [? ?]; discriminate).
      eexists; split; [reflexivity|]. split; [exact Hin|].
      split; [apply fs_lookup_remove_eq|]. split; reflexivity.
  - simpl andb. unfold bind, console_error, ret.
    destruct (written r) as [b|];
      (eexists; split; [reflexivity|]; simpl fs; split; [|split; [|split; reflexivity]]).
    + rewrite fs_lookup_write_ne by congruence. exact Hin.
    + apply fs_lookup_write_eq.
    + exact Hin.
    + apply fs_lookup_remove_eq.
Qed.

(** The ladder, up to and including the first strategy that meets the
    target. *)
Lemma ladder_first_fit gs tb inp out f pre s post :
  inp <> out ->
  Forall (fun s' => meets tb (render E gs s' (content f)) = false) pre ->
  meets tb (render E gs s (content f)) = true ->
  forall w, fs_lookup (fs w) inp = Some f ->
  exists w',
    ladder E gs tb inp out (pre ++ s :: post) w = (Ok (Some out), w') /\
    fs_lookup (fs w') out = left_by (render E gs s (content f)) (clock w) /\
    trace w' =
      (trace w ++ map (fun s' => EvGsRender gs (ladder_flags s')) (pre ++ [s]))%list.
Proof.
  intros Hne Hpre Hs. induction Hpre as [|s0 pre Hs0 Hpre IH]; intros w Hf.
  - simpl. destruct (attempt_run gs tb inp out s w f Hne Hf)
      as (w' & Hrun & _ & Hout & _ & Htr).
    rewrite Hs in Hrun. rewrite (bind_ok _ _ _ _ _ Hrun).
    exists w'. split; [reflexivity|]. split; [exact Hout|exact Htr].
  - simpl. destruct (attempt_run gs tb inp out s0 w f Hne Hf)
      as (w1 & Hrun & Hin & _ & Hclock & Htr).
    rewrite Hs0 in Hrun. rewrite (bind_ok _ _ _ _ _ Hrun).
    destruct (IH w1 Hin) as (w' & Hrun' & Hout' & Htr').
    exists w'. split; [exact Hrun'|]. split; [congruence|].
    rewrite Htr', Htr, <- app_assoc. reflexivity.
Qed.

(** The ladder when no strategy meets the target: the output path holds
    what the last strategy left, if anything. *)
Lemma ladder_exhausted gs tb inp out f strats :
  inp <> out ->
  Forall (fun s' => meets tb (render E gs s' (content f)) = false) strats ->
  forall w, fs_lookup (fs w) inp = Some f ->
  exists w',
    ladder E gs tb inp out strats w = (Ok None, w') /\
    fs_lookup (fs w') inp = Some f /\
    fs_lookup (fs w') out =
      match last strats with
      | Some s => left_by (render E gs s (content f)) (clock w)
      | None => fs_lookup (fs w) out
      end /\
    clock w' = clock w /\
    trace w' =
      (trace w ++ map (fun s' => EvGsRender gs (ladder_flags s')) strats)%list.
Proof.
  intros Hne Hall. induction Hall as [|s0 rest Hs0 Hrest IH]; intros w Hf.
  - exists w. simpl. rewrite app_nil_r. repeat split; try reflexivity. exact Hf.
  - simpl ladder. destruct (attempt_run gs tb inp out s0 w f Hne Hf)
      as (w1 & Hrun & Hin & Hout & Hclock & Htr).
    rewrite Hs0 in Hrun. rewrite (bind_ok _ _ _ _ _ Hrun).
    destruct (IH w1 Hin) as (w' & Hrun' & Hin' & Hout' & Hclock' & Htr').
    exists w'. split; [exact Hrun'|]. split; [exact Hin'|].
    split; [|split; [congruence|]].
    + rewrite Hout'. destruct rest as [|s1 rest'].
      * simpl. exact Hout.
      * rewrite last_cons_cons, Hclock.
        destruct (last (s1 :: rest')) eqn:Hlast; [reflexivity|].
        apply last_None in Hlast. discriminate.
    + rewrite Htr', Htr, <- app_assoc. reflexivity.
Qed.

End PdfFacts.

(** ** The PDF claims *)

Lemma render_calls_ladder gs (strats : list Strategy) :
  render_calls (map (fun s' => EvGsRender gs (ladder_flags s')) strats)
    = map ladder_flags strats.
Proof.
  induction strats as [|s rest IH]; [reflexivity|].
  simpl. rewrite IH. reflexivity.
Qed.

Section PdfClaims.

Variable E : Engines.

(** With Ghostscript found and a target given, [compressPdf] is the ladder
    followed by the fallback. *)
Lemma compressPdf_target_run inputPath outputDir t w gs :
  found_gs E = Some gs ->
  JsNum.falsy t = false ->
  exists w0,
    fs w0 = fs w /\ clock w0 = clock w /\
    render_calls (trace w0) = render_calls (trace w) /\
    compressPdf E inputPath outputDir (Some t) w =
      (r <- ladder E gs (JsNum.mul1024 t) inputPath
              (path_join outputDir (basename inputPath)) strategies ;;
       match r with
       | Some p => ret p
       | None =>
           ex <- existsSync (path_join outputDir (basename inputPath)) ;;
           (if negb ex
            then copyFileSync inputPath
                   (path_join outputDir (basename inputPath))
            else ret tt) ;;;
           ret (path_join outputDir (basename inputPath))
       end) w0.
Proof.
  intros Hgs Ht.
  destruct (checkGhostscript_from_run E ["gswin64c"; "gswin32c"; "gs"] w)
    as (w0 & Hrun & Hfs & Hclock & Htr).
  fold (found_gs E) in Hrun. rewrite Hgs in Hrun.
  exists w0. split; [exact Hfs|]. split; [exact Hclock|]. split; [exact Htr|].
  unfold compressPdf, checkGhostscript. cbv zeta.
  rewrite (bind_ok _ _ _ _ _ Hrun).
  change (no_target (Some t)) with (JsNum.falsy t). rewrite Ht. reflexivity.
Qed.

(** C6.  With Ghostscript found and a target given, let [s] be the first
    strategy of the ladder whose process closes with code 0 and leaves a
    file of at most [t * 1024] bytes.  Then [compressPdf] returns with that
    file at the output path, and the rendering invocations it made are
    those of the strategies up to [s], in ladder order, and no other.  When
    [s] is the first strategy, that is exactly one invocation. *)
Theorem pdf_ladder_first_fit
    (inputPath : Path) (outputDir : Dir) (t : JsNum.t) (w : World)
    (f : File) (gs : string) (pre : list Strategy) (s : Strategy)
    (post : list Strategy) :
  dirname inputPath <> outputDir ->
  fs_lookup (fs w) inputPath = Some f ->
  found_gs E = Some gs ->
  JsNum.falsy t = false ->
  strategies = (pre ++ s :: post)%list ->
  Forall (fun s' => meets (JsNum.mul1024 t) (render E gs s' (content f)) = false)
    pre ->
  meets (JsNum.mul1024 t) (render E gs s (content f)) = true ->
  let out := path_join outputDir (basename inputPath) in
  exists w' b,
    compressPdf E inputPath outputDir (Some t) w = (Ok out, w') /\
    written (render E gs s (content f)) = Some b /\
    JsNum.int_le_kb (byte_length b) t /\
    content <$> fs_lookup (fs w') out = Some b /\
    render_calls (trace w') =
      (render_calls (trace w) ++ map ladder_flags (pre ++ [s]))%list /\
    (pre = [] ->
     render_calls (trace w') = (render_calls (trace w) ++ [ladder_flags ebook])%list).
Proof.
  intros Hdir Hf Hgs Ht Hsplit Hpre Hs out.
  assert (Hne : inputPath <> out).
  { unfold out. intros Heq. apply Hdir. rewrite Heq. reflexivity. }
  destruct (compressPdf_target_run inputPath outputDir t w gs Hgs Ht)
    as (w0 & Hfs & Hclock & Htr & ->).
  fold out. rewrite Hsplit.
  destruct (ladder_first_fit E gs (JsNum.mul1024 t) inputPath out f pre s post
              Hne Hpre Hs w0 ltac:(rewrite Hfs; exact Hf))
    as (w' & Hrun & Hout & Htr').
  rewrite (bind_ok _ _ _ _ _ Hrun).
  pose proof Hs as Hs'. unfold meets in Hs'.
  apply andb_true_iff in Hs' as [_ Hsize].
  unfold left_by in Hout.
  destruct (written (render E gs s (content f))) as [b|]; [|discriminate].
  apply int_le_mul1024 in Hsize.
  assert (Hcalls : render_calls (trace w') =
            (render_calls (trace w) ++ map ladder_flags (pre ++ [s]))%list).
  { rewrite Htr', render_calls_app, render_calls_ladder, Htr. reflexivity. }
  exists w', b. split; [reflexivity|]. split; [reflexivity|].
  split; [exact Hsize|]. split; [rewrite Hout; reflexivity|].
  split; [exact Hcalls|].
  intros ->. rewrite Hcalls. simpl in Hsplit.
  unfold strategies in Hsplit. injection Hsplit as <- _. reflexivity.
Qed.

End PdfClaims.

(** C7, amended.  With Ghostscript found and a target given, if no strategy
    of the ladder meets the target, all three are attempted and
    [compressPdf] returns the output path.  When the final strategy closed
    with code 0 and produced a file, the file there is that output; when
    the final strategy left no file, it is a copy of the source.  So an
    unmodified copy is returned in particular when no strategy leaves a
    file.  (What is returned when the final strategy fails and still leaves
    a file is not part of the statement.) *)
Theorem pdf_ladder_exhausted
    (E : Engines) (inputPath : Path) (outputDir : Dir) (t : JsNum.t)
    (w : World) (f : File) (gs : string) :
  dirname inputPath <> outputDir ->
  fs_lookup (fs w) inputPath = Some f ->
  found_gs E = Some gs ->
  JsNum.falsy t = false ->
  Forall (fun s' => meets (JsNum.mul1024 t) (render E gs s' (content f)) = false)
    strategies ->
  let out := path_join outputDir (basename inputPath) in
  let final := render E gs low_res (content f) in
  exists w',
    compressPdf E inputPath outputDir (Some t) w = (Ok out, w') /\
    render_calls (trace w') =
      (render_calls (trace w) ++ map ladder_flags strategies)%list /\
    (forall b, exit_ok final = true -> written final = Some b ->
       content <$> fs_lookup (fs w') out = Some b) /\
    (written final = None ->
     content <$> fs_lookup (fs w') out = Some (content f)) /\
    ((forall s', s' ∈ strategies -> written (render E gs s' (content f)) = None) ->
     content <$> fs_lookup (fs w') out = Some (content f)).
Proof.
  intros Hdir Hf Hgs Ht Hall out final.
  assert (Hne : inputPath <> out).
  { unfold out. intros Heq. apply Hdir. rewrite Heq. reflexivity. }
  destruct (compressPdf_target_run E inputPath outputDir t w gs Hgs Ht)
    as (w0 & Hfs & Hclock & Htr & ->).
  fold out.
  destruct (ladder_exhausted E gs (JsNum.mul1024 t) inputPath out f strategies
              Hne Hall w0 ltac:(rewrite Hfs; exact Hf))
    as (w1 & Hrun & Hin & Hout & Hclock1 & Htr1).
  rewrite (bind_ok _ _ _ _ _ Hrun).
  change (last strategies) with (Some low_res) in Hout.
  assert (Hcalls : render_calls (trace w1) =
            (render_calls (trace w) ++ map ladder_flags strategies)%list).
  { rewrite Htr1, render_calls_app, render_calls_ladder, Htr. reflexivity. }
  unfold left_by in Hout. fold final in Hout.
  unfold bind at 1. rewrite existsSync_run, Hout.
  destruct (written final) as [b|] eqn:Hlast.
  - rewrite bool_decide_eq_true_2 by eauto. cbn [negb].
    exists w1. split; [reflexivity|]. split; [exact Hcalls|].
    split; [|split].
    + intros b' _ Hb'. rewrite Hout. cbn. congruence.
    + discriminate.
    + intros Hnone. unfold final in Hlast. rewrite Hnone in Hlast;
        [discriminate|].
      unfold strategies. set_solver.
  - rewrite bool_decide_eq_false_2 by (intros [? ?]; discriminate). cbn [negb].
    unfold bind at 1, copyFileSync, bind at 1, readFile, bind at 1, get_fs.
    rewrite Hin. unfold ret at 1. rewrite writeFileSync_run.
    eexists. split; [reflexivity|]. split; [exact Hcalls|].
    split; [|split].
    + intros b' _ Hb'. discriminate.
    + intros _. rewrite lookup_written_to. reflexivity.
    + intros _. rewrite lookup_written_to. reflexivity.
Qed.

(** C7, counterexample.  With a Ghostscript whose ebook and screen presets
    each leave three bytes, over a target of one byte, and whose low-res
    preset fails without leaving a file, [compressPdf] returns a copy of the
    two-byte source, not the three bytes that the screen preset produced. *)
Lemma best_effort_as_worded_fails : ~ best_effort_as_worded.
Proof.
  intros Hclaim.
  destruct (Hclaim Demo.failing_last (path_join UPLOAD_DIR "old.pdf")
              PROCESSED_DIR Demo.one_byte Demo.world
              (mkFile (Demo.zeros 2) 7%Q) "gswin64c")
    as (w' & Hrun & Hcontent).
  - discriminate.
  - vm_compute. reflexivity.
  - reflexivity.
  - reflexivity.
  - repeat constructor.
  - assert (Hw : w' = snd (compressPdf Demo.failing_last
                             (path_join UPLOAD_DIR "old.pdf") PROCESSED_DIR
                             (Some Demo.one_byte) Demo.world))
      by (rewrite Hrun; reflexivity).
    rewrite Hw in Hcontent. vm_compute in Hcontent. discriminate Hcontent.
Qed.

Example failing_last_run :
  let run := compressPdf Demo.failing_last (path_join UPLOAD_DIR "old.pdf")
               PROCESSED_DIR (Some Demo.one_byte) Demo.world in
  fst run = Ok (path_join PROCESSED_DIR "old.pdf") /\
  content <$> fs_lookup (fs (snd run)) (path_join PROCESSED_DIR "old.pdf")
    = Some (Demo.zeros 2) /\
  last_produced Demo.failing_last "gswin64c" (Demo.zeros 2)
    = Some (Demo.ones 3) /\
  render_calls (trace (snd run)) = map ladder_flags strategies.
Proof. vm_compute. repeat split; reflexivity. Qed.

(** *** Instances *)

Lemma deleteFile_idempotent_witness :
  deleteFile (Some Demo.upload_path) Demo.world
    = (Ok tt, without Demo.upload_path Demo.world) /\
  deleteFile (Some Demo.upload_path) (without Demo.upload_path Demo.world)
    = (Ok tt, without Demo.upload_path Demo.world).
Proof.
  destruct (deleteFile_idempotent (Some Demo.upload_path) Demo.world)
    as (_ & _ & Htwice).
  split.
  - apply deleteFile_run.
  - apply Htwice. apply deleteFile_run.
Defined.

Lemma download_single_delivery_witness :
  exists userFilename w1,
    download "b.jpg" None None Demo.world
      = (Ok (RespDownload (Demo.zeros 40) userFilename), w1) /\
    download "b.jpg" None None w1
      = (Ok (RespError 404 "File not found or already deleted."), w1).
Proof.
  destruct (proj2 (download_single_delivery "b.jpg" Demo.world eq_refl)
              (mkFile (Demo.zeros 40) 900000%Q) ltac:(vm_compute; reflexivity)
              None)
    as (userFilename & w1 & Hfirst & Hsecond).
  exists userFilename, w1. split; [exact Hfirst|apply Hsecond].
Defined.

Lemma auto_cleanup_expiry_witness :
  exists w', auto_cleanup Demo.world = (Ok tt, w') /\
    fs_lookup (fs w') (path_join PROCESSED_DIR "c.jpg") = None /\
    fs_lookup (fs w') (path_join UPLOAD_DIR "a.jpg") = None /\
    fs_lookup (fs w') (path_join PROCESSED_DIR "b.jpg")
      = Some (mkFile (Demo.zeros 40) 900000%Q).
Proof.
  destruct (auto_cleanup_expiry Demo.world) as (w' & Hrun & Hall).
  exists w'. split; [exact Hrun|]. split; [|split].
  - apply (Hall PROCESSED_DIR "c.jpg" (mkFile (Demo.zeros 40) (201 # 2)));
      [vm_compute; reflexivity|vm_compute; reflexivity].
  - apply (Hall UPLOAD_DIR "a.jpg" (mkFile (Demo.zeros 3000) 5%Q));
      [vm_compute; reflexivity|vm_compute; reflexivity].
  - apply (Hall PROCESSED_DIR "b.jpg" (mkFile (Demo.zeros 40) 900000%Q));
      [vm_compute; reflexivity|vm_compute; discriminate].
Defined.

Lemma target_search_terminates_witness :
  fst (compressBufferRecursive Demo.engines 100 (Demo.zeros 3000)
         (path_join PROCESSED_DIR "a.jpg") "jpeg" (Some Demo.half_kb)
         Demo.world) <> OutOfFuel.
Proof.
  apply (proj1 (proj2 (proj2 (proj2 (target_search_terminates Demo.engines))))).
  vm_compute. lia.
Defined.

Lemma compressImage_meets_target_witness :
  exists n0 : nat, forall fuel, (n0 <= fuel)%nat ->
    exists w' g,
      compressImage Demo.engines fuel Demo.upload_path PROCESSED_DIR
        (Some Demo.half_kb) Demo.world
        = (Ok (path_join PROCESSED_DIR "a.jpg"), w') /\
      fs_lookup (fs w') (path_join PROCESSED_DIR "a.jpg") = Some g /\
      JsNum.int_le_kb (byte_length (content g)) Demo.half_kb.
Proof.
  destruct (compressImage_meets_target Demo.engines Demo.upload_path
              PROCESSED_DIR Demo.half_kb Demo.world
              (mkFile (Demo.zeros 3000) 5%Q) (mkMetadata "jpeg" 100 50)
              (Demo.zeros 3000))
    as (n0 & Hn0).
  - vm_compute. reflexivity.
  - vm_compute. reflexivity.
  - reflexivity.
  - reflexivity.
  - intros b Hb. vm_compute in Hb.
    assert (Hb' : b = Demo.zeros 11) by (vm_compute; congruence).
    rewrite Hb'. vm_compute. discriminate.
  - exists n0. intros fuel Hfuel.
    destruct (Hn0 fuel Hfuel) as (_ & Hfits & Hreturns).
    destruct Hreturns as (w' & Hrun).
    { split; [intros w q; eexists; reflexivity|eexists; reflexivity]. }
    destruct (Hfits _ _ Hrun) as (_ & g & Hg & Hsize).
    exists w', g. split; [exact Hrun|]. split; [exact Hg|exact Hsize].
Defined.

Lemma compressImage_no_target_one_preset_encode_witness :
  exists w',
    compressImage Demo.engines 0 Demo.upload_path PROCESSED_DIR None Demo.world
      = (Ok (path_join PROCESSED_DIR "a.jpg"), w') /\
    encoder_passes (trace w')
      = [EvToBuffer None; EvEncode None (CJpeg 70 true)] /\
    encode_calls (trace w') = [(None, CJpeg 70 true)] /\
    content <$> fs_lookup (fs w') (path_join PROCESSED_DIR "a.jpg")
      = Some (Demo.zeros 1070).
Proof.
  destruct (proj1 (proj2 (compressImage_no_target_one_preset_encode
                            Demo.engines 0 Demo.upload_path PROCESSED_DIR
                            Demo.world))
              (mkFile (Demo.zeros 3000) 5%Q) (mkMetadata "jpeg" 100 50)
              (Demo.zeros 3000) (Demo.zeros 1070))
    as (w' & Hrun & _ & Hpasses & Hcalls & Hcontent).
  - vm_compute. reflexivity.
  - reflexivity.
  - reflexivity.
  - vm_compute. reflexivity.
  - exists w'. split; [exact Hrun|]. split; [exact Hpasses|].
    split; [exact Hcalls|exact Hcontent].
Defined.

Lemma upload_removes_upload_witness :
  exists n0 : nat, forall fuel, (n0 <= fuel)%nat ->
    exists resp w',
      upload Demo.engines fuel
        (mkUploadRequest (Some (mkUploadedFile "a.jpg" "photo.jpg" "image/jpeg"))
           (Some "1")) Demo.world = (Ok resp, w') /\
      fs_lookup (fs w') Demo.upload_path = None.
Proof.
  destruct (upload_removes_upload Demo.engines
              (mkUploadRequest
                 (Some (mkUploadedFile "a.jpg" "photo.jpg" "image/jpeg"))
                 (Some "1"))
              (mkUploadedFile "a.jpg" "photo.jpg" "image/jpeg") Demo.world
              eq_refl) as (n0 & Hn0).
  exists n0. intros fuel Hfuel.
  destruct (Hn0 fuel Hfuel) as (resp & w' & Hrun & Habs & _).
  exists resp, w'. split; [exact Hrun|exact Habs].
Defined.

Lemma upload_falsy_target_is_no_target_witness :
  upload Demo.engines 100
    (mkUploadRequest (Some (mkUploadedFile "a.jpg" "photo.jpg" "image/jpeg"))
       (Some "0")) Demo.world
  = upload Demo.engines 100
      (mkUploadRequest (Some (mkUploadedFile "a.jpg" "photo.jpg" "image/jpeg"))
         None) Demo.world.
Proof.
  apply (upload_falsy_target_is_no_target Demo.engines 100
           (Some (mkUploadedFile "a.jpg" "photo.jpg" "image/jpeg")) "0"
           Demo.world).
  right. exists 0%Q. split; reflexivity.
Defined.

Lemma pdf_ladder_first_fit_witness :
  exists w',
    compressPdf Demo.engines (path_join UPLOAD_DIR "old.pdf") PROCESSED_DIR
      (Some (JsNum.Fin 1)) Demo.world
      = (Ok (path_join PROCESSED_DIR "old.pdf"), w') /\
    content <$> fs_lookup (fs w') (path_join PROCESSED_DIR "old.pdf")
      = Some (Demo.ones 5) /\
    render_calls (trace w') = [ladder_flags ebook].
Proof.
  destruct (pdf_ladder_first_fit Demo.engines (path_join UPLOAD_DIR "old.pdf")
              PROCESSED_DIR (JsNum.Fin 1) Demo.world (mkFile (Demo.zeros 2) 7%Q)
              "gs" [] ebook [screen; low_res])
    as (w' & b & Hrun & Hb & _ & Hcontent & _ & Hone).
  - discriminate.
  - vm_compute. reflexivity.
  - reflexivity.
  - reflexivity.
  - reflexivity.
  - constructor.
  - reflexivity.
  - exists w'. split; [exact Hrun|]. split.
    + etransitivity; [exact Hcontent|]. rewrite <- Hb. reflexivity.
    + apply (Hone eq_refl).
Defined.

Lemma pdf_ladder_exhausted_witness :
  (exists w',
     compressPdf Demo.engines (path_join UPLOAD_DIR "old.pdf")
       PROCESSED_DIR (Some Demo.one_byte) Demo.world
       = (Ok (path_join PROCESSED_DIR "old.pdf"), w') /\
     content <$> fs_lookup (fs w') (path_join PROCESSED_DIR "old.pdf")
       = Some (Demo.ones 5)) /\
  (exists w',
     compressPdf Demo.failing_last (path_join UPLOAD_DIR "old.pdf")
       PROCESSED_DIR (Some Demo.one_byte) Demo.world
       = (Ok (path_join PROCESSED_DIR "old.pdf"), w') /\
     content <$> fs_lookup (fs w') (path_join PROCESSED_DIR "old.pdf")
       = Some (Demo.zeros 2)).
Proof.
  split.
  - destruct (pdf_ladder_exhausted Demo.engines
                (path_join UPLOAD_DIR "old.pdf") PROCESSED_DIR Demo.one_byte
                Demo.world (mkFile (Demo.zeros 2) 7%Q) "gs")
      as (w' & Hrun & _ & Hfinal & _).
    + discriminate.
    + vm_compute. reflexivity.
    + reflexivity.
    + reflexivity.
    + repeat constructor.
    + exists w'. split; [exact Hrun|]. apply Hfinal; reflexivity.
  - destruct (pdf_ladder_exhausted Demo.failing_last
                (path_join UPLOAD_DIR "old.pdf") PROCESSED_DIR Demo.one_byte
                Demo.world (mkFile (Demo.zeros 2) 7%Q) "gswin64c")
      as (w' & Hrun & _ & _ & Hcopy & _).
    + discriminate.
    + vm_compute. reflexivity.
    + reflexivity.
    + reflexivity.
    + repeat constructor.
    + exists w'. split; [exact Hrun|]. apply Hcopy. reflexivity.
Defined.

(** * Further properties *)

(** ** The store during the image search *)

Section SearchStore.

Variable E : Engines.

Lemma quality_search_store fmt tb input (fuel : nat) :
  forall w l r best world,
    fs (snd (quality_search E fmt tb input fuel w l r best world)) = fs world /\
    clock (snd (quality_search E fmt tb input fuel w l r best world))
      = clock world /\
    console (snd (quality_search E fmt tb input fuel w l r best world))
      = console world.
Proof.
  induction fuel as [|fuel IH]; intros w l r best world.
  - simpl. destruct (l <=? r); repeat split; reflexivity.
  - cbn [quality_search]. destruct (l <=? r); [|repeat split; reflexivity].
    unfold bind. rewrite getBuffer_run.
    destruct (sharp_encode _ _ _ _) as [buf|]; [|repeat split; reflexivity].
    destruct (fits tb buf);
      match goal with
      | |- context [quality_search E fmt tb input fuel ?w' ?l' ?r' ?b' ?wd] =>
          destruct (IH w' l' r' b' wd) as (H1 & H2 & H3)
      end; rewrite H1, H2, H3; repeat split; reflexivity.
Qed.

Lemma resize_loop_store fmt tb input (qfuel fuel : nat) :
  forall width0 world,
    fs (snd (resize_loop E fmt tb input qfuel fuel width0 world)) = fs world /\
    clock (snd (resize_loop E fmt tb input qfuel fuel width0 world))
      = clock world /\
    console (snd (resize_loop E fmt tb input qfuel fuel width0 world))
      = console world.
Proof.
  induction fuel as [|fuel IH]; intros width0 world;
    [repeat split; reflexivity|].
  cbn [resize_loop]. fold (next_width width0).
  unfold bind. rewrite getBuffer_run.
  destruct (sharp_encode _ _ _ _) as [buf|]; [|repeat split; reflexivity].
  destruct (fits tb buf).
  - match goal with
    | |- context [quality_search E fmt tb input qfuel ?w' ?l' ?r' ?b' ?wd] =>
        destruct (quality_search_store fmt tb input qfuel w' l' r' b' wd)
          as (H1 & H2 & H3)
    end. rewrite H1, H2, H3. repeat split; reflexivity.
  - rewrite getBuffer_run.
    destruct (sharp_encode _ _ _ _) as [bufLow|]; [|repeat split; reflexivity].
    destruct (fits tb bufLow); [repeat split; reflexivity|].
    destruct (next_width width0 =? 1).
    + rewrite getBuffer_run.
      destruct (sharp_encode _ _ _ _); repeat split; reflexivity.
    + match goal with
      | |- context [resize_loop E fmt tb input qfuel fuel ?w0 ?wd] =>
          destruct (IH w0 wd) as (H1 & H2 & H3)
      end. rewrite H1, H2, H3. repeat split; reflexivity.
Qed.

(** What [compressBufferRecursive] does to the store: it writes the output
    path when it returns, and nothing when it does not. *)
Lemma compressBufferRecursive_store fuel input out fmt t w :
  match compressBufferRecursive E fuel input out fmt t w with
  | (Ok p, w') =>
      p = out /\
      exists b, fs w' = fs_write out (mkFile b (inject_Z (clock w))) (fs w)
  | (_, w') => fs w' = fs w
  end.
Proof.
  unfold compressBufferRecursive. destruct (no_target t).
  - unfold toFile, bind at 1, bind at 1. rewrite encode_run.
    destruct (sharp_encode _ _ _ _) as [b|]; [|reflexivity].
    rewrite writeFileSync_run. unfold ret. split; [reflexivity|].
    exists b. reflexivity.
  - cbv zeta. unfold bind at 1. rewrite getBuffer_run.
    destruct (sharp_encode _ _ _ _) as [lowQ|]; [|reflexivity].
    destruct (fits _ lowQ).
    + unfold bind at 1.
      match goal with
      | |- context [quality_search E fmt ?tb input fuel ?w' ?l' ?r' ?b' ?wd] =>
          destruct (quality_search_store fmt tb input fuel w' l' r' b' wd)
            as (H1 & H2 & _);
          destruct (quality_search E fmt tb input fuel w' l' r' b' wd)
            as [[b|e|] w1]
      end; simpl in H1, H2; [|exact H1|exact H1].
      rewrite (bind_ok _ _ _ _ _ (writeFileSync_run _ _ _)). unfold ret.
      split; [reflexivity|]. exists b. simpl. rewrite H1, H2. reflexivity.
    + unfold bind at 1. rewrite metadata_of_run.
      destruct (sharp_metadata E input) as [meta|]; [|reflexivity].
      unfold bind at 1.
      match goal with
      | |- context [resize_loop E fmt ?tb input fuel fuel ?w0 ?wd] =>
          destruct (resize_loop_store fmt tb input fuel fuel w0 wd)
            as (H1 & H2 & _);
          destruct (resize_loop E fmt tb input fuel fuel w0 wd)
            as [[b|e|] w1]
      end; simpl in H1, H2; [|exact H1|exact H1].
      rewrite (bind_ok _ _ _ _ _ (writeFileSync_run _ _ _)). unfold ret.
      split; [reflexivity|]. exists b. simpl. rewrite H1, H2. reflexivity.
Qed.

Lemma compressImage_store_run (fuel : nat) (inputPath : Path) (outputDir : Dir)
    (t : option JsNum.t) (w : World) :
  match compressImage E fuel inputPath outputDir t w with
  | (Ok p, w') =>
      p = path_join outputDir (basename inputPath) /\
      exists b,
        fs w' = fs_write (path_join outputDir (basename inputPath))
                  (mkFile b (inject_Z (clock w))) (fs w)
  | (_, w') => fs w' = fs w
  end.
Proof.
  destruct (fs_lookup (fs w) inputPath) as [f|] eqn:Hf.
  2: { destruct (compressImage_rejects E fuel inputPath outputDir t w)
         as (e & w' & evs & -> & Hfs & _); [congruence|exact Hfs]. }
  destruct (sharp_metadata E (content f)) as [m|] eqn:Hm.
  2: { destruct (compressImage_rejects E fuel inputPath outputDir t w)
         as (e & w' & evs & -> & Hfs & _); [congruence|exact Hfs]. }
  destruct (sharp_toBuffer E (content f) (bound_of m)) as [buf|] eqn:Hbuf.
  2: { destruct (compressImage_rejects E fuel inputPath outputDir t w)
         as (e & w' & evs & -> & Hfs & _); [congruence|exact Hfs]. }
  rewrite (compressImage_run E fuel inputPath outputDir t w f m buf Hf Hm Hbuf).
  apply (compressBufferRecursive_store fuel buf
           (path_join outputDir (basename inputPath)) (format m) t
           (preprocessed m w)).
Qed.

(** X1.  [compressImage] writes nothing but the output path, and writes it
    only on return: when it returns, the store is the one it started from
    with the output file added; when it throws, the store is the one it
    started from, so a failed compression leaves no output behind and
    never touches the upload. *)
Theorem compressImage_store (fuel : nat) (inputPath : Path) (outputDir : Dir)
    (t : option JsNum.t) (w : World) :
  match compressImage E fuel inputPath outputDir t w with
  | (Ok p, w') =>
      p = path_join outputDir (basename inputPath) /\
      exists b,
        fs w' = fs_write (path_join outputDir (basename inputPath))
                  (mkFile b (inject_Z (clock w))) (fs w)
  | (_, w') => fs w' = fs w
  end.
Proof. apply compressImage_store_run. Qed.

End SearchStore.

(** ** The cost of the image search *)

Section SearchCost.

Variable E : Engines.

Lemma encodes_logged_encode w c world :
  encodes (logged (EvEncode w c) world) = S (encodes world).
Proof.
  unfold encodes, logged. simpl. rewrite encode_calls_app, length_app.
  simpl. lia.
Qed.

Lemma encodes_logged_metadata world :
  encodes (logged EvMetadata world) = encodes world.
Proof.
  unfold encodes, logged. simpl. rewrite encode_calls_app, length_app.
  simpl. lia.
Qed.

Lemma encodes_written_to p b world :
  encodes (written_to p b world) = encodes world.
Proof. reflexivity. Qed.

(** A quality search over fewer than [2 ^ j] qualities probes at most [j]
    times. *)
Lemma quality_search_encodes fmt tb input (fuel : nat) :
  forall (j : nat) w l r best world,
    r - l + 1 < 2 ^ Z.of_nat j ->
    (encodes (snd (quality_search E fmt tb input fuel w l r best world))
     <= encodes world + j)%nat.
Proof.
  induction fuel as [|fuel IH]; intros j w l r best world Hlen.
  - simpl. destruct (l <=? r); simpl; lia.
  - cbn [quality_search].
    destruct (Z.leb_spec l r) as [Hle|Hgt]; [|simpl; lia].
    destruct j as [|j]; [simpl in Hlen; lia|].
    unfold bind. rewrite getBuffer_run.
    rewrite Nat2Z.inj_succ, Z.pow_succ_r in Hlen by lia.
    pose proof (Z.div_mod (l + r) 2 ltac:(lia)) as Hdm.
    pose proof (Z.mod_pos_bound (l + r) 2 ltac:(lia)) as Hmod.
    destruct (sharp_encode _ _ _ _) as [buf|];
      [|simpl; rewrite encodes_logged_encode; lia].
    destruct (fits tb buf);
      match goal with
      | |- context [quality_search E fmt tb input fuel ?w' ?l' ?r' ?b' ?wd] =>
          pose proof (IH j w' l' r' b' wd ltac:(lia)) as Hrec
      end; rewrite encodes_logged_encode in Hrec; lia.
Qed.

(** One iteration of the resize loop: it stops after at most eight encodes,
    or goes round again after two. *)
Lemma resize_loop_encodes_step fmt tb input qfuel fuel width0 world (B : nat) :
  (encodes world + 8 <= B)%nat ->
  (next_width width0 <> 1 ->
   forall world2, encodes world2 = (encodes world + 2)%nat ->
     (encodes (snd (resize_loop E fmt tb input qfuel fuel (next_width width0)
                      world2)) <= B)%nat) ->
  (encodes (snd (resize_loop E fmt tb input qfuel (S fuel) width0 world))
   <= B)%nat.
Proof.
  intros HB Hnext.
  cbn [resize_loop]. fold (next_width width0).
  unfold bind. rewrite getBuffer_run.
  destruct (sharp_encode _ _ _ _) as [buf|];
    [|unfold ret; cbn [snd]; rewrite encodes_logged_encode; lia].
  destruct (fits tb buf).
  - match goal with
    | |- context [quality_search E fmt tb input qfuel ?w' ?l' ?r' ?b' ?wd] =>
        pose proof (quality_search_encodes fmt tb input qfuel 7 w' l' r' b' wd
                      ltac:(reflexivity)) as Hq
    end. rewrite encodes_logged_encode in Hq. lia.
  - rewrite getBuffer_run.
    destruct (sharp_encode _ _ _ _) as [bufLow|];
      [|unfold ret; cbn [snd]; rewrite !encodes_logged_encode; lia].
    destruct (fits tb bufLow); [unfold ret; cbn [snd]; rewrite !encodes_logged_encode; lia|].
    destruct (Z.eqb_spec (next_width width0) 1) as [H1|H1].
    + rewrite getBuffer_run.
      destruct (sharp_encode _ _ _ _); unfold ret; cbn [snd];
        rewrite !encodes_logged_encode; lia.
    + apply Hnext; [exact H1|]. rewrite !encodes_logged_encode. lia.
Qed.

Lemma resize_loop_encodes fmt tb input qfuel :
  forall (k fuel : nat) width0 world,
    width0 < 2 ^ Z.of_nat k ->
    (encodes (snd (resize_loop E fmt tb input qfuel fuel width0 world))
     <= encodes world + 4 * k + 8)%nat.
Proof.
  induction k as [|k IH]; intros fuel width0 world Hw.
  - destruct fuel as [|fuel]; [cbn [resize_loop]; unfold out_of_fuel; cbn [snd]; lia|].
    apply resize_loop_encodes_step; [lia|]. intros Hne.
    destruct (next_width_bounds width0) as [Hlow Hdec].
    specialize (Hdec Hne). simpl in Hw. lia.
  - destruct fuel as [|fuel]; [cbn [resize_loop]; unfold out_of_fuel; cbn [snd]; lia|].
    apply resize_loop_encodes_step; [lia|]. intros H1 world2 Hw2.
    destruct fuel as [|fuel]; [cbn [resize_loop]; unfold out_of_fuel; cbn [snd]; lia|].
    apply resize_loop_encodes_step; [lia|]. intros H2 world3 Hw3.
    pose proof (next_width_twice_halves width0 H1 H2) as Hhalf.
    rewrite Nat2Z.inj_succ, Z.pow_succ_r in Hw by lia.
    pose proof (IH fuel (next_width (next_width width0)) world3 ltac:(lia)).
    lia.
Qed.

Lemma preset_path_encodes fuel input out fmt t w :
  no_target t = true ->
  (encodes (snd (compressBufferRecursive E fuel input out fmt t w))
   <= encodes w + 1)%nat.
Proof.
  intros Hno. unfold compressBufferRecursive. rewrite Hno.
  unfold toFile, bind at 1, bind at 1. rewrite encode_run.
  destruct (sharp_encode _ _ _ _) as [b|]; [rewrite writeFileSync_run|];
    unfold ret; cbn [snd];
    rewrite ?encodes_written_to, encodes_logged_encode; lia.
Qed.

(** X2.  The recompression cost of one call is bounded, whatever the
    encoder answers and however long the loops are allowed to run: for a
    buffer whose width is below [2 ^ k], [compressBufferRecursive] makes at
    most [4 * k + 9] encode calls, and at most one without a target. *)
Theorem search_encode_bound (fuel : nat) (input : bytes) (out : Path)
    (fmt : string) (t : option JsNum.t) (w : World) (k : nat) :
  (forall m, sharp_metadata E input = Some m -> width m < 2 ^ Z.of_nat k) ->
  (encodes (snd (compressBufferRecursive E fuel input out fmt t w))
   <= encodes w + 4 * k + 9)%nat /\
  (no_target t = true ->
   (encodes (snd (compressBufferRecursive E fuel input out fmt t w))
    <= encodes w + 1)%nat).
Proof.
  intros Hwidth. split; [|apply preset_path_encodes].
  destruct (no_target t) eqn:Hno.
  { pose proof (preset_path_encodes fuel input out fmt t w Hno). lia. }
  unfold compressBufferRecursive. rewrite Hno. cbv zeta.
  unfold bind at 1. rewrite getBuffer_run.
  destruct (sharp_encode _ _ _ _) as [lowQ|];
    [|cbn [snd]; rewrite encodes_logged_encode; lia].
  destruct (fits _ lowQ).
  - unfold bind at 1.
    match goal with
    | |- context [quality_search E fmt ?tb input fuel ?w' ?l' ?r' ?b' ?wd] =>
        pose proof (quality_search_encodes fmt tb input fuel 7 w' l' r' b' wd
                      ltac:(reflexivity)) as Hq;
        destruct (quality_search E fmt tb input fuel w' l' r' b' wd)
          as [[b|e|] w1]
    end; cbn [snd] in Hq; rewrite encodes_logged_encode in Hq;
      [rewrite (bind_ok _ _ _ _ _ (writeFileSync_run _ _ _))| |];
      unfold ret; cbn [snd]; rewrite ?encodes_written_to; lia.
  - unfold bind at 1. rewrite metadata_of_run.
    destruct (sharp_metadata E input) as [meta|] eqn:Hmeta;
      [|cbn [snd]; rewrite encodes_logged_metadata, encodes_logged_encode; lia].
    unfold bind at 1.
    match goal with
    | |- context [resize_loop E fmt ?tb input fuel fuel ?w0 ?wd] =>
        pose proof (resize_loop_encodes fmt tb input fuel k fuel w0 wd
                      (Hwidth meta eq_refl)) as Hl;
        destruct (resize_loop E fmt tb input fuel fuel w0 wd)
          as [[b|e|] w1]
    end; cbn [snd] in Hl;
      rewrite encodes_logged_metadata, encodes_logged_encode in Hl;
      [rewrite (bind_ok _ _ _ _ _ (writeFileSync_run _ _ _))| |];
      unfold ret; cbn [snd]; rewrite ?encodes_written_to; lia.
Qed.

End SearchCost.

(** ** The quality that the search settles on *)

Section SearchQuality.

Variable E : Engines.
Variable fmt : string.
Variable tb : JsNum.t.
Variable input : bytes.

(** The binary search keeps [best] at quality [l - 1] once a probe has
    fitted, and a failed probe at [r + 1]; the quality it settles on is
    never below [l - 1]. *)
Lemma quality_search_best (fuel : nat) :
  forall w l r best world b world',
    1 <= l -> l <= r + 1 -> r <= 100 ->
    (l = 1 \/ (2 <= l /\ at_quality E fmt input w (l - 1) = Some best)) ->
    fits tb best = true ->
    (r = 100 \/
     exists b', at_quality E fmt input w (r + 1) = Some b' /\
                fits tb b' = false) ->
    quality_search E fmt tb input fuel w l r best world = (Ok b, world') ->
    (exists q, l - 1 <= q /\ best_quality E fmt tb input w q b) \/
    (b = best /\ l = 1 /\
     exists b1, at_quality E fmt input w 1 = Some b1 /\ fits tb b1 = false).
Proof.
  assert (Hdone : forall w l r best,
    1 <= l -> r < l -> l <= r + 1 -> r <= 100 ->
    (l = 1 \/ (2 <= l /\ at_quality E fmt input w (l - 1) = Some best)) ->
    fits tb best = true ->
    (r = 100 \/
     exists b', at_quality E fmt input w (r + 1) = Some b' /\
                fits tb b' = false) ->
    (exists q, l - 1 <= q /\ best_quality E fmt tb input w q best) \/
    (best = best /\ l = 1 /\
     exists b1, at_quality E fmt input w 1 = Some b1 /\ fits tb b1 = false)).
  { intros w l r best Hl Hgt Hlr Hr Hbest Hfit Hfail.
    assert (l = r + 1) as -> by lia.
    destruct Hbest as [H1|[H2 Hq]].
    - right. split; [reflexivity|]. split; [exact H1|].
      destruct Hfail as [->|(b' & Hb' & Hnot)]; [lia|].
      exists b'. rewrite <- H1. split; assumption.
    - left. exists r. replace (r + 1 - 1) with r in Hq by lia.
      split; [lia|].
      split; [lia|]. split; [exact Hq|]. split; [exact Hfit|exact Hfail]. }
  induction fuel as [|fuel IH];
    intros w l r best world b world' Hl Hlr Hr Hbest Hfit Hfail Hrun.
  - simpl in Hrun. destruct (Z.leb_spec l r); [discriminate|].
    unfold ret in Hrun. assert (best = b) as <- by congruence.
    eapply Hdone; eauto.
  - cbn [quality_search] in Hrun.
    destruct (Z.leb_spec l r) as [Hle|Hgt].
    2: { unfold ret in Hrun. assert (best = b) as <- by congruence.
         eapply Hdone; eauto. }
    unfold bind in Hrun. rewrite getBuffer_run in Hrun.
    fold (at_quality E fmt input w ((l + r) / 2)) in Hrun.
    destruct (at_quality E fmt input w ((l + r) / 2)) as [buf|] eqn:Hmid;
      [|discriminate].
    pose proof (Z.div_mod (l + r) 2 ltac:(lia)) as Hdm.
    pose proof (Z.mod_pos_bound (l + r) 2 ltac:(lia)) as Hmod.
    destruct (fits tb buf) eqn:Hbuf.
    + eapply (IH w ((l + r) / 2 + 1) r buf) in Hrun; try lia; try assumption.
      * destruct Hrun as [(q & Hge & Hq)|(_ & H1 & _)]; [|lia].
        left. exists q. split; [lia|exact Hq].
      * right. split; [lia|].
        replace ((l + r) / 2 + 1 - 1) with ((l + r) / 2) by lia. exact Hmid.
    + eapply (IH w l ((l + r) / 2 - 1) best) in Hrun; try lia; try assumption.
      right. exists buf.
      replace ((l + r) / 2 - 1 + 1) with ((l + r) / 2) by lia.
      split; assumption.
Qed.

(** Under [monotone_fit], the best quality is the largest that fits. *)
Lemma best_quality_largest w q b :
  monotone_fit E fmt tb input w ->
  best_quality E fmt tb input w q b ->
  forall q' b', q < q' <= 100 ->
    at_quality E fmt input w q' = Some b' -> fits tb b' = false.
Proof.
  intros Hmono (Hq & _ & _ & Hnext) q' b' Hq' Hb'.
  destruct Hnext as [->|(b1 & Hb1 & Hnot)]; [lia|].
  destruct (fits tb b') eqn:Hfit; [|reflexivity].
  rewrite <- Hnot. symmetry.
  apply (Hmono (q + 1) q' b1 b'); try assumption; lia.
Qed.

End SearchQuality.

(** X3.  When the encoding at quality 1 and native resolution fits the
    target, the file that [compressBufferRecursive] writes is an encoding
    at native resolution, at a quality in [1,100] that fits and whose
    successor does not fit (or at 100).  When a larger quality never fits
    where a smaller one fails, that is the largest quality that fits. *)
Theorem native_fit_best_quality (E : Engines) (fuel : nat) (input : bytes)
    (out : Path) (fmt : string) (t : JsNum.t) (w : World) (lowQ : bytes)
    (p : Path) (w' : World) :
  JsNum.falsy t = false ->
  at_quality E fmt input None 1 = Some lowQ ->
  fits (JsNum.mul1024 t) lowQ = true ->
  compressBufferRecursive E fuel input out fmt (Some t) w = (Ok p, w') ->
  exists q b,
    best_quality E fmt (JsNum.mul1024 t) input None q b /\
    content <$> fs_lookup (fs w') out = Some b /\
    (monotone_fit E fmt (JsNum.mul1024 t) input None ->
     forall q' b', q < q' <= 100 ->
       at_quality E fmt input None q' = Some b' ->
       fits (JsNum.mul1024 t) b' = false).
Proof.
  intros Ht Hlow Hfits Hrun.
  unfold compressBufferRecursive in Hrun.
  change (no_target (Some t)) with (JsNum.falsy t) in Hrun.
  rewrite Ht in Hrun. cbv zeta in Hrun.
  change (target_bytes (Some t)) with (JsNum.mul1024 t) in Hrun.
  unfold bind at 1 in Hrun. rewrite getBuffer_run in Hrun.
  fold (at_quality E fmt input None 1) in Hrun. rewrite Hlow, Hfits in Hrun.
  unfold bind at 1 in Hrun.
  destruct (quality_search _ _ _ _ _ _ _ _ _ _) as [[b|e|] w1] eqn:Hq;
    [|discriminate|discriminate].
  rewrite (bind_ok _ _ _ _ _ (writeFileSync_run _ _ _)) in Hrun.
  unfold ret in Hrun.
  assert (w' = written_to out b w1) as -> by congruence.
  apply quality_search_best in Hq;
    [|lia|lia|lia|left; reflexivity|exact Hfits|left; reflexivity].
  destruct Hq as [(q & _ & Hbest)|(_ & _ & b1 & Hb1 & Hnot)]; [|congruence].
  exists q, b. split; [exact Hbest|].
  split; [rewrite lookup_written_to; reflexivity|].
  intros Hmono. eapply best_quality_largest; eassumption.
Qed.

(** ** What the resize loop settles on *)

Section LoopOutcome.

Variable E : Engines.
Variable fmt : string.
Variable tb : JsNum.t.
Variable input : bytes.

Lemma loop_width_succ (width0 : Z) (n : nat) :
  loop_width (next_width width0) n = loop_width width0 (S n).
Proof. unfold loop_width. symmetry. apply Nat.iter_succ_r. Qed.

(** The search that follows a fitting probe at 50 probes 50 first. *)
Lemma quality_search_from_50 (qfuel : nat) (w : option Z) (buf b : bytes)
    (world world' : World) :
  at_quality E fmt input w 50 = Some buf ->
  fits tb buf = true ->
  quality_search E fmt tb input qfuel w 1 100 buf world = (Ok b, world') ->
  exists q, 50 <= q /\ best_quality E fmt tb input w q b.
Proof.
  intros H50 Hfit Hrun.
  destruct qfuel as [|qfuel]; [discriminate|].
  cbn [quality_search] in Hrun.
  change (1 <=? 100) with true in Hrun. cbv iota in Hrun.
  change ((1 + 100) / 2) with 50 in Hrun.
  unfold bind in Hrun. rewrite getBuffer_run in Hrun.
  fold (at_quality E fmt input w 50) in Hrun.
  rewrite H50, Hfit in Hrun.
  apply quality_search_best in Hrun;
    [|lia|lia|lia|right; split; [lia|exact H50]|exact Hfit|left; reflexivity].
  destruct Hrun as [(q & Hge & Hq)|(_ & H1 & _)]; [|lia].
  exists q. split; [lia|exact Hq].
Qed.

Lemma resize_loop_outcome (qfuel fuel : nat) :
  forall width0 world b world',
    resize_loop E fmt tb input qfuel fuel width0 world = (Ok b, world') ->
    exists n, (1 <= n)%nat /\
      break_at E fmt tb input (loop_width width0 n) b /\
      forall m, (1 <= m < n)%nat ->
        no_probe_fits E fmt tb input (loop_width width0 m) /\
        loop_width width0 m <> 1.
Proof.
  induction fuel as [|fuel IH]; intros width0 world b world' Hrun;
    [discriminate|].
  cbn [resize_loop] in Hrun. fold (next_width width0) in Hrun.
  unfold bind at 1 in Hrun. rewrite getBuffer_run in Hrun.
  fold (at_quality E fmt input (Some (next_width width0)) 50) in Hrun.
  destruct (at_quality E fmt input (Some (next_width width0)) 50)
    as [buf|] eqn:H50; [|discriminate].
  destruct (fits tb buf) eqn:Hfit.
  - exists 1%nat. split; [lia|]. split; [|intros m Hm; lia].
    left. eapply quality_search_from_50; eassumption.
  - unfold bind at 1 in Hrun. rewrite getBuffer_run in Hrun.
    fold (at_quality E fmt input (Some (next_width width0)) 1) in Hrun.
    destruct (at_quality E fmt input (Some (next_width width0)) 1)
      as [bufLow|] eqn:H1; [|discriminate].
    destruct (fits tb bufLow) eqn:HfitLow.
    + unfold ret in Hrun. assert (bufLow = b) as <- by congruence.
      exists 1%nat. split; [lia|]. split; [|intros m Hm; lia].
      right. split; [exact H1|]. split; [eauto|]. left. exact HfitLow.
    + destruct (Z.eqb_spec (next_width width0) 1) as [Hone|Hone].
      * rewrite getBuffer_run in Hrun.
        fold (at_quality E fmt input (Some 1) 1) in Hrun.
        rewrite Hone in H1. rewrite H1 in Hrun.
        assert (bufLow = b) as <- by congruence.
        exists 1%nat. split; [lia|]. split; [|intros m Hm; lia].
        right. change (loop_width width0 1) with (next_width width0).
        rewrite Hone. split; [exact H1|]. split; [|right; reflexivity].
        exists buf. rewrite <- Hone. split; [exact H50|exact Hfit].
      * apply IH in Hrun. destruct Hrun as (n & Hn & Hbreak & Hbefore).
        exists (S n). split; [lia|]. rewrite <- loop_width_succ.
        split; [exact Hbreak|]. intros m Hm.
        destruct m as [|m]; [lia|]. rewrite <- loop_width_succ.
        destruct m as [|m].
        -- change (loop_width (next_width width0) 0) with (next_width width0).
           split; [|exact Hone]. exists buf, bufLow. auto.
        -- apply Hbefore. lia.
Qed.

End LoopOutcome.

(** X4.  When the encoding at quality 1 and native resolution does not fit
    the target, the file that [compressBufferRecursive] writes comes from
    the first width of the chain [width, 0.70 * width, ...] (floored, not
    below 1, the native width left out) at which the encoding at quality 50
    or the one at quality 1 fits, or from width 1 when none does.  If the
    encoding at 50 fits there, the file is an encoding at that width at a
    quality of at least 50 that fits and whose successor does not fit (or
    100); otherwise it is the encoding at quality 1. *)
Theorem resize_path_first_fitting_width (E : Engines) (fuel : nat)
    (input : bytes) (out : Path) (fmt : string) (t : JsNum.t) (w : World)
    (lowQ : bytes) (meta : Metadata) (p : Path) (w' : World) :
  JsNum.falsy t = false ->
  at_quality E fmt input None 1 = Some lowQ ->
  fits (JsNum.mul1024 t) lowQ = false ->
  sharp_metadata E input = Some meta ->
  compressBufferRecursive E fuel input out fmt (Some t) w = (Ok p, w') ->
  exists n b,
    (1 <= n)%nat /\
    content <$> fs_lookup (fs w') out = Some b /\
    break_at E fmt (JsNum.mul1024 t) input (loop_width (width meta) n) b /\
    forall m, (1 <= m < n)%nat ->
      no_probe_fits E fmt (JsNum.mul1024 t) input (loop_width (width meta) m) /\
      loop_width (width meta) m <> 1.
Proof.
  intros Ht Hlow Hfits Hmeta Hrun.
  unfold compressBufferRecursive in Hrun.
  change (no_target (Some t)) with (JsNum.falsy t) in Hrun.
  rewrite Ht in Hrun. cbv zeta in Hrun.
  change (target_bytes (Some t)) with (JsNum.mul1024 t) in Hrun.
  unfold bind at 1 in Hrun. rewrite getBuffer_run in Hrun.
  fold (at_quality E fmt input None 1) in Hrun. rewrite Hlow, Hfits in Hrun.
  unfold bind at 1 in Hrun. rewrite metadata_of_run, Hmeta in Hrun.
  unfold bind at 1 in Hrun.
  destruct (resize_loop _ _ _ _ _ _ _ _) as [[b|e|] w1] eqn:Hloop;
    [|discriminate|discriminate].
  rewrite (bind_ok _ _ _ _ _ (writeFileSync_run _ _ _)) in Hrun.
  unfold ret in Hrun.
  assert (w' = written_to out b w1) as -> by congruence.
  apply resize_loop_outcome in Hloop. destruct Hloop as (n & Hn & Hbreak & Hbefore).
  exists n, b. split; [exact Hn|].
  split; [rewrite lookup_written_to; reflexivity|].
  split; [exact Hbreak|exact Hbefore].
Qed.

(** ** Operations that change one path *)

Lemma only_at_refl out w : only_at out w w.
Proof. split; [intros; reflexivity|reflexivity]. Qed.

Lemma only_at_trans out w1 w2 w3 :
  only_at out w1 w2 -> only_at out w2 w3 -> only_at out w1 w3.
Proof.
  intros [H1 C1] [H2 C2]. split; [|congruence].
  intros q Hq. rewrite H2, H1 by exact Hq. reflexivity.
Qed.

Lemma touches_only_ret out {A} (a : A) : touches_only out (ret a).
Proof. intros w. apply only_at_refl. Qed.

Lemma touches_only_throw out {A} (e : Err) : touches_only out (@throw A e).
Proof. intros w. apply only_at_refl. Qed.

Lemma touches_only_bind out {A B} (m : M A) (k : A -> M B) :
  touches_only out m -> (forall a, touches_only out (k a)) ->
  touches_only out (bind m k).
Proof.
  intros Hm Hk w. unfold bind. specialize (Hm w).
  destruct (m w) as [[a|e|] w']; cbn [snd] in *; [|exact Hm|exact Hm].
  eapply only_at_trans; [exact Hm|apply Hk].
Qed.

Lemma touches_only_try_catch out {A} (m : M A) (h : Err -> M A) :
  touches_only out m -> (forall e, touches_only out (h e)) ->
  touches_only out (try_catch m h).
Proof.
  intros Hm Hh w. unfold try_catch. specialize (Hm w).
  destruct (m w) as [[a|e|] w']; cbn [snd] in *; [exact Hm| |exact Hm].
  eapply only_at_trans; [exact Hm|apply Hh].
Qed.

Lemma touches_only_get_fs out : touches_only out get_fs.
Proof. intros w. apply only_at_refl. Qed.

Lemma touches_only_Date_now out : touches_only out Date_now.
Proof. intros w. apply only_at_refl. Qed.

Lemma touches_only_emit out e : touches_only out (emit e).
Proof. intros w. split; [intros; reflexivity|reflexivity]. Qed.

Lemma touches_only_console_error out line :
  touches_only out (console_error line).
Proof. intros w. split; [intros; reflexivity|reflexivity]. Qed.

Lemma touches_only_writeFileSync out b : touches_only out (writeFileSync out b).
Proof.
  intros w. rewrite writeFileSync_run. split; [|reflexivity].
  intros q Hq. cbn [snd]. unfold written_to. cbn [fs].
  apply fs_lookup_write_ne. congruence.
Qed.

Lemma touches_only_unlinkSync out : touches_only out (unlinkSync out).
Proof.
  intros w. unfold unlinkSync, bind, get_fs.
  destruct (fs_lookup (fs w) out); [|apply only_at_refl].
  split; [|reflexivity]. intros q Hq. cbn [snd set_fs fs].
  apply fs_lookup_remove_ne. congruence.
Qed.

Create HintDb touches.

#[export] Hint Resolve touches_only_ret touches_only_throw
  touches_only_get_fs touches_only_Date_now touches_only_emit
  touches_only_console_error touches_only_writeFileSync
  touches_only_unlinkSync : touches.

Ltac touches_step :=
  match goal with
  | |- touches_only _ (bind _ _) => apply touches_only_bind; [|intros ?]
  | |- touches_only _ (try_catch _ _) =>
      apply touches_only_try_catch; [|intros ?]
  | |- touches_only _ (match ?x with _ => _ end) => destruct x
  | |- touches_only _ (let _ := _ in _) => cbv zeta
  | |- touches_only _ _ => solve [auto with touches]
  end.

Ltac touches_auto := repeat touches_step.

Lemma touches_only_existsSync out p : touches_only out (existsSync p).
Proof. unfold existsSync. touches_auto. Qed.

Lemma touches_only_readFile out p : touches_only out (readFile p).
Proof. unfold readFile. touches_auto. Qed.

Lemma touches_only_statSync out p : touches_only out (statSync p).
Proof. unfold statSync. touches_auto. Qed.

#[export] Hint Resolve touches_only_existsSync touches_only_readFile
  touches_only_statSync : touches.

Lemma touches_only_copyFileSync out src : touches_only out (copyFileSync src out).
Proof. unfold copyFileSync. touches_auto. Qed.

#[export] Hint Resolve touches_only_copyFileSync : touches.

Section PdfStore.

Variable E : Engines.

Lemma touches_only_runGs gs flags out inp :
  touches_only out (runGs E gs flags out inp).
Proof. unfold runGs. touches_auto. Qed.

Hint Resolve touches_only_runGs : touches.

Lemma touches_only_attempt gs tb inp out strat :
  touches_only out (attempt E gs tb inp out strat).
Proof. unfold attempt. touches_auto. Qed.

Lemma touches_only_ladder gs tb inp out strats :
  touches_only out (ladder E gs tb inp out strats).
Proof.
  induction strats as [|strat rest IH]; simpl.
  - touches_auto.
  - apply touches_only_bind; [apply touches_only_attempt|].
    intros [p|]; [touches_auto|exact IH].
Qed.

Lemma touches_only_checkGhostscript_from out cmds :
  touches_only out (checkGhostscript_from E cmds).
Proof.
  induction cmds as [|cmd rest IH]; simpl.
  - touches_auto.
  - apply touches_only_bind; [touches_auto|].
    intros _. destruct (gs_version E cmd); [touches_auto|exact IH].
Qed.

Hint Resolve touches_only_ladder touches_only_checkGhostscript_from : touches.

Lemma touches_only_compressPdf inp outDir t :
  touches_only (path_join outDir (basename inp)) (compressPdf E inp outDir t).
Proof. unfold compressPdf, checkGhostscript. touches_auto. Qed.

End PdfStore.

(** ** [checkGhostscript] and the paths of [compressPdf] around the ladder *)

Section PdfPaths.

Variable E : Engines.

Lemma checkGhostscript_from_probes cmds :
  forall w, exists probed,
    trace (snd (checkGhostscript_from E cmds w))
      = (trace w ++ map EvGsVersion probed)%list /\
    match List.find (gs_version E) cmds with
    | Some gs =>
        exists pre post,
          cmds = (pre ++ gs :: post)%list /\
          Forall (fun c => gs_version E c = false) pre /\
          gs_version E gs = true /\
          probed = (pre ++ [gs])%list
    | None =>
        probed = cmds /\ Forall (fun c => gs_version E c = false) cmds
    end.
Proof.
  induction cmds as [|cmd rest IH]; intros w.
  - exists []. simpl. rewrite app_nil_r. split; [reflexivity|].
    split; [reflexivity|constructor].
  - simpl. unfold bind at 1, emit.
    destruct (gs_version E cmd) eqn:Hcmd.
    + exists [cmd]. split; [reflexivity|].
      exists [], rest. repeat split; [constructor|exact Hcmd].
    + destruct (IH (mkWorld (fs w) (clock w) (trace w ++ [EvGsVersion cmd])
                      (console w))) as (probed & Htr & Hfind).
      exists (cmd :: probed). split.
      * rewrite Htr. cbn [trace map]. rewrite <- app_assoc. reflexivity.
      * destruct (List.find (gs_version E) rest) as [gs|].
        -- destruct Hfind as (pre & post & -> & Hpre & Hgs & ->).
           exists (cmd :: pre), post. repeat split;
             [constructor; assumption|exact Hgs].
        -- destruct Hfind as [-> Hall]. split; [reflexivity|].
           constructor; assumption.
Qed.

(** X5.  [checkGhostscript] tries [gswin64c], [gswin32c] and [gs] in that
    order, returns the first whose [--version] run closes with code 0 and
    starts no process after it; it returns [null] when all three fail.  It
    never throws and changes no file. *)
Theorem checkGhostscript_first_available (w : World) :
  exists w' probed,
    checkGhostscript E w = (Ok (found_gs E), w') /\
    fs w' = fs w /\
    trace w' = (trace w ++ map EvGsVersion probed)%list /\
    match found_gs E with
    | Some gs =>
        exists pre post,
          ["gswin64c"; "gswin32c"; "gs"] = (pre ++ gs :: post)%list /\
          Forall (fun c => gs_version E c = false) pre /\
          gs_version E gs = true /\
          probed = (pre ++ [gs])%list
    | None =>
        probed = ["gswin64c"; "gswin32c"; "gs"] /\
        Forall (fun c => gs_version E c = false) ["gswin64c"; "gswin32c"; "gs"]
    end.
Proof.
  destruct (checkGhostscript_from_run E ["gswin64c"; "gswin32c"; "gs"] w)
    as (w' & Hrun & Hfs & _).
  destruct (checkGhostscript_from_probes ["gswin64c"; "gswin32c"; "gs"] w)
    as (probed & Htr & Hfind).
  exists w', probed. split; [exact Hrun|]. split; [exact Hfs|].
  split; [|exact Hfind].
  unfold checkGhostscript in *. rewrite Hrun in Htr. exact Htr.
Qed.

(** The run of [compressPdf] after [checkGhostscript] has answered. *)
Lemma compressPdf_after_check (w : World) :
  exists w0,
    fs w0 = fs w /\ clock w0 = clock w /\
    render_calls (trace w0) = render_calls (trace w) /\
    checkGhostscript E w = (Ok (found_gs E), w0).
Proof.
  destruct (checkGhostscript_from_run E ["gswin64c"; "gswin32c"; "gs"] w)
    as (w0 & Hrun & Hfs & Hclock & Htr).
  exists w0. repeat split; assumption.
Qed.

Lemma copyFileSync_run src dst w f :
  fs_lookup (fs w) src = Some f ->
  copyFileSync src dst w = (Ok tt, written_to dst (content f) w).
Proof.
  intros Hf. unfold copyFileSync, bind at 1, readFile, bind at 1, get_fs.
  rewrite Hf. unfold ret at 1. apply writeFileSync_run.
Qed.

Lemma copyFileSync_missing src dst w :
  fs_lookup (fs w) src = None ->
  copyFileSync src dst w = (Throw (SystemError "ENOENT"), w).
Proof.
  intros Hf. unfold copyFileSync, bind at 1, readFile, bind at 1, get_fs.
  rewrite Hf. reflexivity.
Qed.

Lemma pdf_without_gs_run (inputPath : Path) (outputDir : Dir)
    (t : option JsNum.t) (w : World) :
  found_gs E = None ->
  let out := path_join outputDir (basename inputPath) in
  (forall f, fs_lookup (fs w) inputPath = Some f ->
     exists w',
       compressPdf E inputPath outputDir t w = (Ok out, w') /\
       content <$> fs_lookup (fs w') out = Some (content f) /\
       render_calls (trace w') = render_calls (trace w)) /\
  (fs_lookup (fs w) inputPath = None ->
     exists e w',
       compressPdf E inputPath outputDir t w = (Throw e, w') /\
       fs w' = fs w).
Proof.
  intros Hgs out.
  destruct (compressPdf_after_check w)
    as (w0 & Hfs & Hclock & Htr & Hcheck).
  rewrite Hgs in Hcheck.
  unfold compressPdf. cbv zeta. rewrite (bind_ok _ _ _ _ _ Hcheck).
  fold out.
  split.
  - intros f Hf. unfold bind at 1, console_error.
    match goal with
    | |- context [bind (copyFileSync inputPath out) _ ?wx] =>
        assert (Hin : fs_lookup (fs wx) inputPath = Some f)
          by (cbn [fs]; rewrite Hfs; exact Hf)
    end.
    rewrite (bind_ok _ _ _ _ _ (copyFileSync_run inputPath out _ f Hin)).
    eexists. split; [reflexivity|].
    split; [rewrite lookup_written_to; reflexivity|exact Htr].
  - intros Hf. unfold bind at 1, console_error.
    match goal with
    | |- context [bind (copyFileSync inputPath out) _ ?wx] =>
        assert (Hin : fs_lookup (fs wx) inputPath = None)
          by (cbn [fs]; rewrite Hfs; exact Hf)
    end.
    rewrite (bind_throw _ _ _ _ _ (copyFileSync_missing inputPath out _ Hin)).
    eexists _, _. split; [reflexivity|exact Hfs].
Qed.

Lemma pdf_no_target_run (inputPath : Path) (outputDir : Dir)
    (t : option JsNum.t) (w : World) (f : File) (gs : string) :
  found_gs E = Some gs ->
  no_target t = true ->
  dirname inputPath <> outputDir ->
  fs_lookup (fs w) inputPath = Some f ->
  let out := path_join outputDir (basename inputPath) in
  let r := gs_render E gs no_target_flags (Some (content f)) in
  exists w',
    compressPdf E inputPath outputDir t w = (Ok out, w') /\
    render_calls (trace w') = (render_calls (trace w) ++ [no_target_flags])%list /\
    content <$> fs_lookup (fs w') out =
      if exit_ok r
      then match written r with
           | Some b => Some b
           | None => content <$> fs_lookup (fs w) out
           end
      else Some (content f).
Proof.
  intros Hgs Hno Hdir Hf out r.
  assert (Hne : inputPath <> out).
  { unfold out. intros Heq. apply Hdir. rewrite Heq. reflexivity. }
  destruct (compressPdf_after_check w)
    as (w0 & Hfs & Hclock & Htr & Hcheck).
  rewrite Hgs in Hcheck.
  unfold compressPdf. cbv zeta. rewrite (bind_ok _ _ _ _ _ Hcheck).
  rewrite Hno. fold out. unfold try_catch, bind at 1.
  rewrite runGs_run. cbv zeta. rewrite Hfs, Hf. cbn [fmap option_fmap option_map].
  fold r.
  assert (Hcalls : forall w1, trace w1 = trace (logged (EvGsRender gs no_target_flags) w0) ->
            render_calls (trace w1)
            = (render_calls (trace w) ++ [no_target_flags])%list).
  { intros w1 ->. cbn [logged trace]. rewrite render_calls_app, Htr.
    reflexivity. }
  destruct (exit_ok r).
  - destruct (written r) as [b|]; unfold ret.
    + eexists. split; [reflexivity|].
      split; [apply Hcalls; reflexivity|].
      rewrite lookup_written_to. reflexivity.
    + eexists. split; [reflexivity|].
      split; [apply Hcalls; reflexivity|].
      cbn [logged fs]. rewrite Hfs. reflexivity.
  - unfold bind at 1, console_error.
    destruct (written r) as [b|];
      match goal with
      | |- context [bind (copyFileSync inputPath out) _ ?wx] =>
          assert (Hin : fs_lookup (fs wx) inputPath = Some f)
            by (cbn [fs written_to logged];
                rewrite ?fs_lookup_write_ne by congruence;
                rewrite Hfs; exact Hf)
      end;
      rewrite (bind_ok _ _ _ _ _ (copyFileSync_run inputPath out _ f Hin));
      (eexists; split; [reflexivity|];
       split; [apply Hcalls; reflexivity|];
       rewrite lookup_written_to; reflexivity).
Qed.

(** X6.  Without Ghostscript, [compressPdf] starts no rendering process and
    the output is the input, byte for byte, with or without a target; when
    the input is missing it throws and the store is as it was. *)
Theorem pdf_without_ghostscript (inputPath : Path) (outputDir : Dir)
    (t : option JsNum.t) (w : World) :
  found_gs E = None ->
  let out := path_join outputDir (basename inputPath) in
  (forall f, fs_lookup (fs w) inputPath = Some f ->
     exists w',
       compressPdf E inputPath outputDir t w = (Ok out, w') /\
       content <$> fs_lookup (fs w') out = Some (content f) /\
       render_calls (trace w') = render_calls (trace w)) /\
  (fs_lookup (fs w) inputPath = None ->
     exists e w',
       compressPdf E inputPath outputDir t w = (Throw e, w') /\
       fs w' = fs w).
Proof. apply pdf_without_gs_run. Qed.

(** X7.  With Ghostscript and no target, [compressPdf] runs the renderer
    once, with the screen preset.  If the process closes with code 0 the
    output path holds what it wrote, or what was there before when it
    wrote nothing; if it fails, the output is a copy of the input. *)
Theorem pdf_no_target_single_render (inputPath : Path) (outputDir : Dir)
    (t : option JsNum.t) (w : World) (f : File) (gs : string) :
  found_gs E = Some gs ->
  no_target t = true ->
  dirname inputPath <> outputDir ->
  fs_lookup (fs w) inputPath = Some f ->
  let out := path_join outputDir (basename inputPath) in
  let r := gs_render E gs no_target_flags (Some (content f)) in
  exists w',
    compressPdf E inputPath outputDir t w = (Ok out, w') /\
    render_calls (trace w') = (render_calls (trace w) ++ [no_target_flags])%list /\
    content <$> fs_lookup (fs w') out =
      if exit_ok r
      then match written r with
           | Some b => Some b
           | None => content <$> fs_lookup (fs w) out
           end
      else Some (content f).
Proof. apply pdf_no_target_run. Qed.

End PdfPaths.

(** ** [compressPdf] with a target, whatever the renderer does *)

Section PdfTotal.

Variable E : Engines.

(** The ladder inside [compressPdf], up to the first strategy that meets
    the target. *)
Lemma pdf_first_fit_run inputPath outputDir t w f gs pre s post :
  dirname inputPath <> outputDir ->
  fs_lookup (fs w) inputPath = Some f ->
  found_gs E = Some gs ->
  JsNum.falsy t = false ->
  strategies = (pre ++ s :: post)%list ->
  Forall (fun s' => meets (JsNum.mul1024 t) (render E gs s' (content f)) = false)
    pre ->
  meets (JsNum.mul1024 t) (render E gs s (content f)) = true ->
  exists w' b,
    compressPdf E inputPath outputDir (Some t) w
      = (Ok (path_join outputDir (basename inputPath)), w') /\
    written (render E gs s (content f)) = Some b /\
    content <$> fs_lookup (fs w') (path_join outputDir (basename inputPath))
      = Some b /\
    render_calls (trace w') =
      (render_calls (trace w) ++ map ladder_flags (pre ++ [s]))%list.
Proof.
  intros Hdir Hf Hgs Ht Hsplit Hpre Hs.
  set (out := path_join outputDir (basename inputPath)).
  assert (Hne : inputPath <> out).
  { unfold out. intros Heq. apply Hdir. rewrite Heq. reflexivity. }
  destruct (compressPdf_target_run E inputPath outputDir t w gs Hgs Ht)
    as (w0 & Hfs & Hclock & Htr & ->).
  fold out. rewrite Hsplit.
  destruct (ladder_first_fit E gs (JsNum.mul1024 t) inputPath out f pre s post
              Hne Hpre Hs w0 ltac:(rewrite Hfs; exact Hf))
    as (w' & Hrun & Hout & Htr').
  rewrite (bind_ok _ _ _ _ _ Hrun).
  pose proof Hs as Hs'. unfold meets in Hs'.
  apply andb_true_iff in Hs' as [_ Hsize].
  unfold left_by in Hout.
  destruct (written (render E gs s (content f))) as [b|]; [|discriminate].
  exists w', b. split; [reflexivity|]. split; [reflexivity|].
  split; [rewrite Hout; reflexivity|].
  rewrite Htr', render_calls_app, render_calls_ladder, Htr. reflexivity.
Qed.

(** The ladder inside [compressPdf] when no strategy meets the target. *)
Lemma pdf_exhausted_run inputPath outputDir t w f gs :
  dirname inputPath <> outputDir ->
  fs_lookup (fs w) inputPath = Some f ->
  found_gs E = Some gs ->
  JsNum.falsy t = false ->
  Forall (fun s' => meets (JsNum.mul1024 t) (render E gs s' (content f)) = false)
    strategies ->
  exists w',
    compressPdf E inputPath outputDir (Some t) w
      = (Ok (path_join outputDir (basename inputPath)), w') /\
    content <$> fs_lookup (fs w') (path_join outputDir (basename inputPath)) =
      Some (default (content f) (written (render E gs low_res (content f)))) /\
    render_calls (trace w') =
      (render_calls (trace w) ++ map ladder_flags strategies)%list.
Proof.
  intros Hdir Hf Hgs Ht Hall.
  set (out := path_join outputDir (basename inputPath)).
  assert (Hne : inputPath <> out).
  { unfold out. intros Heq. apply Hdir. rewrite Heq. reflexivity. }
  destruct (compressPdf_target_run E inputPath outputDir t w gs Hgs Ht)
    as (w0 & Hfs & Hclock & Htr & ->).
  fold out.
  destruct (ladder_exhausted E gs (JsNum.mul1024 t) inputPath out f strategies
              Hne Hall w0 ltac:(rewrite Hfs; exact Hf))
    as (w1 & Hrun & Hin & Hout & Hclock1 & Htr1).
  rewrite (bind_ok _ _ _ _ _ Hrun).
  change (last strategies) with (Some low_res) in Hout.
  assert (Hcalls : render_calls (trace w1) =
            (render_calls (trace w) ++ map ladder_flags strategies)%list).
  { rewrite Htr1, render_calls_app, render_calls_ladder, Htr. reflexivity. }
  unfold left_by in Hout.
  unfold bind at 1. rewrite existsSync_run, Hout.
  destruct (written (render E gs low_res (content f))) as [b|] eqn:Hlast.
  - rewrite bool_decide_eq_true_2 by eauto. cbn [negb].
    exists w1. split; [reflexivity|]. split; [rewrite Hout; reflexivity|].
    exact Hcalls.
  - rewrite bool_decide_eq_false_2 by (intros [? ?]; discriminate). cbn [negb].
    unfold bind at 1, copyFileSync, bind at 1, readFile, bind at 1, get_fs.
    rewrite Hin. unfold ret at 1. rewrite writeFileSync_run.
    eexists. split; [reflexivity|].
    split; [rewrite lookup_written_to; reflexivity|exact Hcalls].
Qed.

(** With Ghostscript and a target, on an input that is there,
    [compressPdf] returns the output path and a file is there. *)
Lemma compressPdf_target_outcome inputPath outputDir t w f gs :
  dirname inputPath <> outputDir ->
  fs_lookup (fs w) inputPath = Some f ->
  found_gs E = Some gs ->
  JsNum.falsy t = false ->
  let out := path_join outputDir (basename inputPath) in
  exists w' b (n : nat),
    compressPdf E inputPath outputDir (Some t) w = (Ok out, w') /\
    content <$> fs_lookup (fs w') out = Some b /\
    (b = content f \/
     exists s, s ∈ strategies /\
               written (render E gs s (content f)) = Some b) /\
    render_calls (trace w')
      = (render_calls (trace w) ++ map ladder_flags (take n strategies))%list /\
    (1 <= n <= 3)%nat.
Proof.
  intros Hdir Hf Hgs Ht out.
  set (tb := JsNum.mul1024 t).
  destruct (meets tb (render E gs ebook (content f))) eqn:H1.
  { destruct (pdf_first_fit_run inputPath outputDir t w f gs [] ebook
                [screen; low_res] Hdir Hf Hgs Ht eq_refl ltac:(constructor) H1)
      as (w' & b & Hrun & Hb & Hcontent & Hcalls).
    exists w', b, 1%nat. split; [exact Hrun|]. split; [exact Hcontent|].
    split; [right; exists ebook; split; [unfold strategies; set_solver|exact Hb]|].
    split; [exact Hcalls|lia]. }
  destruct (meets tb (render E gs screen (content f))) eqn:H2.
  { destruct (pdf_first_fit_run inputPath outputDir t w f gs [ebook] screen
                [low_res] Hdir Hf Hgs Ht eq_refl
                ltac:(repeat constructor; exact H1) H2)
      as (w' & b & Hrun & Hb & Hcontent & Hcalls).
    exists w', b, 2%nat. split; [exact Hrun|]. split; [exact Hcontent|].
    split; [right; exists screen; split; [unfold strategies; set_solver|exact Hb]|].
    split; [exact Hcalls|lia]. }
  destruct (meets tb (render E gs low_res (content f))) eqn:H3.
  { destruct (pdf_first_fit_run inputPath outputDir t w f gs [ebook; screen]
                low_res [] Hdir Hf Hgs Ht eq_refl
                ltac:(repeat constructor; assumption) H3)
      as (w' & b & Hrun & Hb & Hcontent & Hcalls).
    exists w', b, 3%nat. split; [exact Hrun|]. split; [exact Hcontent|].
    split; [right; exists low_res; split; [unfold strategies; set_solver|exact Hb]|].
    split; [exact Hcalls|lia]. }
  destruct (pdf_exhausted_run inputPath outputDir t w f gs Hdir Hf Hgs Ht
              ltac:(repeat constructor; assumption))
    as (w' & Hrun & Hcontent & Hcalls).
  exists w', (default (content f) (written (render E gs low_res (content f)))),
    3%nat.
  split; [exact Hrun|]. split; [exact Hcontent|].
  split; [|split; [exact Hcalls|lia]].
  destruct (written (render E gs low_res (content f))) as [b|] eqn:Hw.
  - right. exists low_res. split; [unfold strategies; set_solver|exact Hw].
  - left. reflexivity.
Qed.

(** X8.  With Ghostscript and a target, on an input that is there,
    [compressPdf] never throws: it returns the output path, and the file
    there is what one of the three strategies wrote or a copy of the
    input.  It starts between one and three rendering processes, the
    strategies of the ladder in order, and leaves the input as it was. *)
Theorem pdf_target_always_output (inputPath : Path) (outputDir : Dir)
    (t : JsNum.t) (w : World) (f : File) (gs : string) :
  dirname inputPath <> outputDir ->
  fs_lookup (fs w) inputPath = Some f ->
  found_gs E = Some gs ->
  JsNum.falsy t = false ->
  let out := path_join outputDir (basename inputPath) in
  exists w' b (n : nat),
    compressPdf E inputPath outputDir (Some t) w = (Ok out, w') /\
    content <$> fs_lookup (fs w') out = Some b /\
    (b = content f \/
     exists s, s ∈ strategies /\
               written (render E gs s (content f)) = Some b) /\
    render_calls (trace w')
      = (render_calls (trace w) ++ map ladder_flags (take n strategies))%list /\
    (1 <= n <= 3)%nat /\
    fs_lookup (fs w') inputPath = Some f.
Proof.
  intros Hdir Hf Hgs Ht out.
  destruct (compressPdf_target_outcome inputPath outputDir t w f gs
              Hdir Hf Hgs Ht) as (w' & b & n & Hrun & Hb & Hsrc & Hcalls & Hn).
  exists w', b, n. repeat (split; [assumption|]).
  destruct (touches_only_compressPdf E inputPath outputDir (Some t) w)
    as [Hframe _].
  rewrite Hrun in Hframe. cbn [snd] in Hframe. rewrite Hframe; [exact Hf|].
  intros Heq. apply Hdir. rewrite Heq. reflexivity.
Qed.

(** X9.  Whatever the target, the renderer and the outcome, [compressPdf]
    changes no file other than the one at its output path. *)
Theorem compressPdf_touches_only_output (inputPath : Path) (outputDir : Dir)
    (t : option JsNum.t) (w : World) (q : Path) :
  q <> path_join outputDir (basename inputPath) ->
  fs_lookup (fs (snd (compressPdf E inputPath outputDir t w))) q
    = fs_lookup (fs w) q.
Proof.
  intros Hq.
  destruct (touches_only_compressPdf E inputPath outputDir t w) as [Hframe _].
  apply Hframe. exact Hq.
Qed.

(** On an input that is there, [compressPdf] returns the output path; and
    if no file is there afterwards, none was there before. *)
Lemma compressPdf_present inputPath outputDir t w f :
  dirname inputPath <> outputDir ->
  fs_lookup (fs w) inputPath = Some f ->
  exists w1,
    compressPdf E inputPath outputDir t w
      = (Ok (path_join outputDir (basename inputPath)), w1) /\
    (fs_lookup (fs w1) (path_join outputDir (basename inputPath)) = None ->
     fs_lookup (fs w) (path_join outputDir (basename inputPath)) = None).
Proof.
  intros Hdir Hf.
  destruct (found_gs E) as [gs|] eqn:Hgs.
  - destruct (no_target t) eqn:Hno.
    + destruct (pdf_no_target_run E inputPath outputDir t w f gs Hgs Hno Hdir Hf)
        as (w1 & Hrun & _ & Hcontent).
      exists w1. split; [exact Hrun|]. intros Hnone.
      rewrite Hnone in Hcontent. cbv zeta in Hcontent.
      set (r := gs_render E gs no_target_flags (Some (content f))) in Hcontent.
      destruct (exit_ok r); [|discriminate Hcontent].
      destruct (written r); [discriminate Hcontent|].
      destruct (fs_lookup (fs w) (path_join outputDir (basename inputPath)));
        [discriminate Hcontent|reflexivity].
    + destruct t as [t|]; [|discriminate].
      destruct (compressPdf_target_outcome inputPath outputDir t w f gs
                  Hdir Hf Hgs Hno) as (w1 & b & n & Hrun & Hb & _).
      exists w1. split; [exact Hrun|]. intros Hnone.
      rewrite Hnone in Hb. discriminate.
  - destruct (proj1 (pdf_without_gs_run E inputPath outputDir t w Hgs) f Hf)
      as (w1 & Hrun & Hb & _).
    exists w1. split; [exact Hrun|]. intros Hnone.
    rewrite Hnone in Hb. discriminate.
Qed.

End PdfTotal.

(** ** What the upload endpoint answers *)

Section UploadAnswers.

Variable E : Engines.

Lemma on_error_world file err w :
  on_error file err w
    = (Ok (RespError 500 "Processing failed"),
       without (file_path file) (complained w)).
Proof.
  unfold on_error, bind, console_error. fold (complained w).
  rewrite deleteFile_run. reflexivity.
Qed.

(** The [try] block after the compressor, and the [catch] block, case by
    case. *)
Lemma upload_tail_cases (file : UploadedFile) (m : M Path) (w : World) :
  try_catch
    (processedPath <- m ;; respond_done file (file_path file) processedPath)
    (on_error file) w
  = match m w with
    | (Ok p, w1) =>
        match fs_lookup (fs w1) (file_path file), fs_lookup (fs w1) p with
        | Some orig, Some proc =>
            (Ok (RespDone (basename p) (originalname file)
                   (byte_length (content orig)) (byte_length (content proc))),
             without (file_path file) w1)
        | _, _ =>
            (Ok (RespError 500 "Processing failed"),
             without (file_path file) (complained w1))
        end
    | (Throw e, w1) =>
        (Ok (RespError 500 "Processing failed"),
         without (file_path file) (complained w1))
    | (OutOfFuel, w1) => (OutOfFuel, w1)
    end.
Proof.
  unfold try_catch, bind at 1.
  destruct (m w) as [[p|e|] w1]; [|apply on_error_world|reflexivity].
  unfold respond_done, bind at 1, statSync at 1, bind at 1, get_fs at 1.
  destruct (fs_lookup (fs w1) (file_path file)) as [orig|];
    [|apply on_error_world].
  unfold ret at 1. unfold bind at 1, statSync at 1, bind at 1, get_fs at 1.
  destruct (fs_lookup (fs w1) p) as [proc|]; [|apply on_error_world].
  unfold ret at 1. unfold bind at 1. rewrite deleteFile_run. reflexivity.
Qed.

Lemma upload_path_not_output (file : UploadedFile) :
  file_path file <> path_join PROCESSED_DIR (basename (file_path file)).
Proof. discriminate. Qed.

Lemma upload_done_run (fuel : nat) (req : UploadRequest)
    (file : UploadedFile) (w w' : World) (id originalName : string)
    (originalSize compressedSize : Z) :
  req_file req = Some file ->
  upload E fuel req w
    = (Ok (RespDone id originalName originalSize compressedSize), w') ->
  id = filename file /\
  originalName = originalname file /\
  exists f g,
    fs_lookup (fs w) (file_path file) = Some f /\
    originalSize = byte_length (content f) /\
    fs_lookup (fs w') (path_join PROCESSED_DIR id) = Some g /\
    compressedSize = byte_length (content g) /\
    fs_lookup (fs w') (file_path file) = None.
Proof.
  intros Hfile Hrun. unfold upload in Hrun. rewrite Hfile in Hrun.
  pose proof (upload_path_not_output file) as Hne.
  assert (Hshape : forall (m : M Path),
    (forall p w1, m w = (Ok p, w1) ->
       fs_lookup (fs w1) (file_path file) = fs_lookup (fs w) (file_path file)) ->
    (forall p w1 f, m w = (Ok p, w1) ->
       fs_lookup (fs w) (file_path file) = Some f ->
       p = path_join PROCESSED_DIR (filename file)) ->
    try_catch
      (processedPath <- m ;; respond_done file (file_path file) processedPath)
      (on_error file) w
    = (Ok (RespDone id originalName originalSize compressedSize), w') ->
    id = filename file /\
    originalName = originalname file /\
    exists f g,
      fs_lookup (fs w) (file_path file) = Some f /\
      originalSize = byte_length (content f) /\
      fs_lookup (fs w') (path_join PROCESSED_DIR id) = Some g /\
      compressedSize = byte_length (content g) /\
      fs_lookup (fs w') (file_path file) = None).
  { intros m Hm Hp Htail. rewrite upload_tail_cases in Htail.
    destruct (m w) as [[p|e|] w1] eqn:Hmw; [| |discriminate].
    2: { discriminate. }
    pose proof (Hm p w1 eq_refl) as Hsame.
    destruct (fs_lookup (fs w1) (file_path file)) as [orig|] eqn:Horig;
      [|discriminate].
    pose proof (Hp p w1 orig eq_refl ltac:(congruence)) as ->.
    destruct (fs_lookup (fs w1) (path_join PROCESSED_DIR (filename file)))
      as [proc|] eqn:Hproc; [|discriminate].
    cbn [basename path_join] in Htail.
    assert (id = filename file) as -> by congruence.
    assert (originalName = originalname file) as -> by congruence.
    assert (originalSize = byte_length (content orig)) as -> by congruence.
    assert (compressedSize = byte_length (content proc)) as -> by congruence.
    assert (w' = without (file_path file) w1) as -> by congruence.
    split; [reflexivity|]. split; [reflexivity|].
    exists orig, proc. split; [congruence|]. split; [reflexivity|].
    split; [|split; [reflexivity|apply lookup_without_eq]].
    rewrite lookup_without_ne by discriminate. exact Hproc. }
  destruct (mimetype file =? "application/pdf")%string.
  - apply Hshape in Hrun; [exact Hrun| |].
    + intros p w1 Hm.
      pose proof (touches_only_compressPdf E (file_path file) PROCESSED_DIR
                    (parse_target E (body_targetSizeKB req)) w) as [Hframe _].
      rewrite Hm in Hframe. cbn [snd] in Hframe.
      exact (Hframe (file_path file) Hne).
    + intros p w1 f Hm Hf.
      destruct (compressPdf_present E (file_path file) PROCESSED_DIR
                  (parse_target E (body_targetSizeKB req)) w f
                  ltac:(discriminate) Hf) as (w1' & Hrun' & _).
      rewrite Hrun' in Hm. cbn [basename file_path path_join] in Hm.
      congruence.
  - destruct (String.prefix "image/" (mimetype file)).
    + apply Hshape in Hrun; [exact Hrun| |].
      * intros p w1 Hm.
        pose proof (compressImage_store_run E fuel (file_path file)
                      PROCESSED_DIR (parse_target E (body_targetSizeKB req)) w)
          as Hstore.
        rewrite Hm in Hstore. destruct Hstore as [_ [b Hfs]].
        rewrite Hfs. apply fs_lookup_write_ne. discriminate.
      * intros p w1 f Hm _.
        pose proof (compressImage_store_run E fuel (file_path file)
                      PROCESSED_DIR (parse_target E (body_targetSizeKB req)) w)
          as Hstore.
        rewrite Hm in Hstore. destruct Hstore as [-> _]. reflexivity.
    + unfold try_catch, bind in Hrun. rewrite deleteFile_run in Hrun.
      discriminate.
Qed.

(** X10.  A [done] answer of the upload endpoint is accurate: [id] names the
    upload, [originalSize] is the size of the upload as it was stored,
    [compressedSize] is the size of the file now in the output area under
    [id], and the upload is gone. *)
Theorem upload_done_report (fuel : nat) (req : UploadRequest)
    (file : UploadedFile) (w w' : World) (id originalName : string)
    (originalSize compressedSize : Z) :
  req_file req = Some file ->
  upload E fuel req w
    = (Ok (RespDone id originalName originalSize compressedSize), w') ->
  id = filename file /\
  originalName = originalname file /\
  exists f g,
    fs_lookup (fs w) (file_path file) = Some f /\
    originalSize = byte_length (content f) /\
    fs_lookup (fs w') (path_join PROCESSED_DIR id) = Some g /\
    compressedSize = byte_length (content g) /\
    fs_lookup (fs w') (file_path file) = None.
Proof. apply upload_done_run. Qed.

(** X11.  The life of an upload: once the upload endpoint has answered
    [done] with an id, a download of that id delivers a file of exactly the
    reported compressed size; after the transfer neither the upload nor the
    compressed file is left in the store, and a second download of the id
    is answered with 404. *)
Theorem upload_then_download (fuel : nat) (req : UploadRequest)
    (file : UploadedFile) (name : option string) (w w1 : World)
    (id originalName : string) (originalSize compressedSize : Z) :
  req_file req = Some file ->
  upload E fuel req w
    = (Ok (RespDone id originalName originalSize compressedSize), w1) ->
  exists data w2,
    download id name None w1
      = (Ok (RespDownload data
               match truthy_string name with Some n => n | None => id end),
         w2) /\
    byte_length data = compressedSize /\
    fs_lookup (fs w2) (path_join PROCESSED_DIR id) = None /\
    fs_lookup (fs w2) (file_path file) = None /\
    download id name None w2
      = (Ok (RespError 404 "File not found or already deleted."), w2).
Proof.
  intros Hfile Hrun.
  destruct (upload_done_run fuel req file w w1 id originalName originalSize
              compressedSize Hfile Hrun)
    as (_ & _ & f & g & _ & _ & Hg & Hsize & Hgone).
  exists (content g), (without (path_join PROCESSED_DIR id) w1).
  split; [apply download_present; exact Hg|].
  split; [symmetry; exact Hsize|].
  split; [apply lookup_without_eq|].
  split; [rewrite lookup_without_ne by discriminate; exact Hgone|].
  apply download_absent. apply lookup_without_eq.
Qed.

Lemma fs_ext (s1 s2 : FS) :
  (forall q, fs_lookup s1 q = fs_lookup s2 q) -> s1 = s2.
Proof.
  intros H. destruct s1 as [u1 p1], s2 as [u2 p2]. f_equal; apply map_eq.
  - intros n. exact (H (mkPath UPLOAD_DIR n)).
  - intros n. exact (H (mkPath PROCESSED_DIR n)).
Qed.

(** X12.  An error answer of the upload endpoint (400 or 500) on an upload
    that is in the store leaves no output behind: the store is the one the
    request started from, without the upload. *)
Theorem upload_error_leaves_no_output (fuel : nat) (req : UploadRequest)
    (file : UploadedFile) (w w' : World) (f : File) (status : Z)
    (message : string) :
  req_file req = Some file ->
  fs_lookup (fs w) (file_path file) = Some f ->
  upload E fuel req w = (Ok (RespError status message), w') ->
  fs w' = fs_remove (file_path file) (fs w).
Proof.
  intros Hfile Hf Hrun. unfold upload in Hrun. rewrite Hfile in Hrun.
  pose proof (upload_path_not_output file) as Hne.
  destruct (mimetype file =? "application/pdf")%string.
  - rewrite upload_tail_cases in Hrun.
    destruct (compressPdf_present E (file_path file) PROCESSED_DIR
                (parse_target E (body_targetSizeKB req)) w f
                ltac:(discriminate) Hf) as (w1 & Hm & Hnone).
    pose proof (touches_only_compressPdf E (file_path file) PROCESSED_DIR
                  (parse_target E (body_targetSizeKB req)) w) as [Hframe _].
    rewrite Hm in Hrun, Hframe. cbn [snd] in Hframe.
    rewrite (Hframe (file_path file) Hne), Hf in Hrun.
    destruct (fs_lookup (fs w1)
                (path_join PROCESSED_DIR (basename (file_path file))))
      as [proc|] eqn:Hproc; [discriminate|].
    assert (w' = without (file_path file) (complained w1)) as -> by congruence.
    cbn [without complained fs]. f_equal. apply fs_ext. intros q.
    destruct (decide (q = path_join PROCESSED_DIR (basename (file_path file))))
      as [->|Hq].
    + rewrite Hproc. symmetry. apply Hnone. reflexivity.
    + apply Hframe. exact Hq.
  - destruct (String.prefix "image/" (mimetype file)).
    + rewrite upload_tail_cases in Hrun.
      pose proof (compressImage_store_run E fuel (file_path file)
                    PROCESSED_DIR (parse_target E (body_targetSizeKB req)) w)
        as Hstore.
      destruct (compressImage _ _ _ _ _ _) as [[p|e|] w1]; [| |discriminate].
      * destruct Hstore as [-> [b Hfs]]. rewrite Hfs in Hrun.
        rewrite fs_lookup_write_ne, Hf, fs_lookup_write_eq in Hrun
          by discriminate.
        discriminate.
      * assert (w' = without (file_path file) (complained w1)) as ->
          by congruence.
        cbn [without complained fs]. rewrite Hstore. reflexivity.
    + unfold try_catch, bind in Hrun. rewrite deleteFile_run in Hrun.
      unfold ret in Hrun.
      assert (w' = without (file_path file) w) as -> by congruence.
      reflexivity.
Qed.

End UploadAnswers.

(** ** [deleteFiles] *)

Lemma deleteFiles_run (filePaths : list (option Path)) :
  forall w, exists w',
    deleteFiles filePaths w = (Ok tt, w') /\
    clock w' = clock w /\ trace w' = trace w /\ console w' = console w /\
    forall q, fs_lookup (fs w') q =
      if bool_decide (Some q ∈ filePaths) then None else fs_lookup (fs w) q.
Proof.
  unfold deleteFiles.
  induction filePaths as [|x l IH]; intros w.
  - exists w. repeat split; reflexivity.
  - cbn [forEach]. unfold bind at 1. destruct x as [p|].
    + rewrite deleteFile_run.
      destruct (IH (without p w)) as (w' & Hrun & Hc & Ht & Hco & Hq).
      exists w'. split; [exact Hrun|].
      split; [rewrite Hc; reflexivity|]. split; [rewrite Ht; reflexivity|].
      split; [rewrite Hco; reflexivity|].
      intros q. rewrite Hq.
      destruct (decide (Some q ∈ l)) as [Hin|Hnin].
      * rewrite !bool_decide_eq_true_2; [reflexivity| |exact Hin].
        apply elem_of_cons. right. exact Hin.
      * rewrite (bool_decide_eq_false_2 _ Hnin).
        destruct (decide (p = q)) as [->|Hne].
        -- rewrite lookup_without_eq.
           rewrite bool_decide_eq_true_2; [reflexivity|].
           apply elem_of_cons. left. reflexivity.
        -- rewrite lookup_without_ne by exact Hne.
           rewrite bool_decide_eq_false_2; [reflexivity|].
           intros [Heq|Hin]%elem_of_cons; [congruence|contradiction].
    + cbn [deleteFile]. unfold ret at 1.
      destruct (IH w) as (w' & Hrun & Hc & Ht & Hco & Hq).
      exists w'. split; [exact Hrun|]. split; [exact Hc|].
      split; [exact Ht|]. split; [exact Hco|].
      intros q. rewrite Hq.
      destruct (decide (Some q ∈ l)) as [Hin|Hnin].
      * rewrite !bool_decide_eq_true_2; [reflexivity| |exact Hin].
        apply elem_of_cons. right. exact Hin.
      * rewrite !bool_decide_eq_false_2; [reflexivity| |exact Hnin].
        intros [Heq|Hin]%elem_of_cons; [discriminate|contradiction].
Qed.

(** X13.  [deleteFiles] never throws, whatever the list holds (falsy
    entries, paths that are absent, the same path twice).  Afterwards every
    path of the list is absent, every other path holds what it held, and
    nothing was written to the console. *)
Theorem deleteFiles_removes_listed (filePaths : list (option Path))
    (w : World) :
  exists w',
    deleteFiles filePaths w = (Ok tt, w') /\
    console w' = console w /\
    forall q, fs_lookup (fs w') q =
      if bool_decide (Some q ∈ filePaths) then None else fs_lookup (fs w) q.
Proof.
  destruct (deleteFiles_run filePaths w) as (w' & Hrun & _ & _ & Hco & Hq).
  exists w'. split; [exact Hrun|]. split; [exact Hco|exact Hq].
Qed.

(** ** The download endpoint, whatever the transfer does *)

(** X14.  For an id that is a plain file name, the download endpoint never
    throws and never touches a file other than the one asked for.  When the
    transfer fails the world is left as it was, so the file is still there
    and a later download that succeeds delivers its bytes. *)
Theorem download_failed_transfer_keeps_file (id : string)
    (name name' : option string) (send_err : option Err) (w : World) :
  plain_name id = true ->
  exists resp w',
    download id name send_err w = (Ok resp, w') /\
    (forall q, q <> path_join PROCESSED_DIR id ->
               fs_lookup (fs w') q = fs_lookup (fs w) q) /\
    (forall e f, send_err = Some e ->
       fs_lookup (fs w) (path_join PROCESSED_DIR id) = Some f ->
       resp = RespAborted /\ w' = w /\
       exists w'', download id name' None w' =
         (Ok (RespDownload (content f)
                match truthy_string name' with Some n => n | None => id end),
          w'') /\
         fs_lookup (fs w'') (path_join PROCESSED_DIR id) = None).
Proof.
  intros _.
  destruct (fs_lookup (fs w) (path_join PROCESSED_DIR id)) as [f|] eqn:Hf.
  - destruct send_err as [e|].
    + exists RespAborted, w. split.
      * unfold download, bind. rewrite existsSync_run, Hf.
        rewrite bool_decide_eq_true_2 by eauto. cbn [negb].
        unfold readFile, bind, get_fs. rewrite Hf. reflexivity.
      * split; [reflexivity|]. intros e' f' _ Hf'.
        assert (f' = f) as -> by congruence.
        split; [reflexivity|]. split; [reflexivity|].
        exists (without (path_join PROCESSED_DIR id) w).
        split; [apply download_present; exact Hf|apply lookup_without_eq].
    + eexists _, _. split; [apply download_present; exact Hf|].
      split; [|intros; discriminate].
      intros q Hq. apply lookup_without_ne. congruence.
  - eexists _, _. split; [apply download_absent; exact Hf|].
    split; [reflexivity|]. intros e f _ Habs. discriminate.
Qed.

(** ** The ZIP endpoint *)

Lemma queue_files_run (fileIds : list string) (w : World) :
  queue_files fileIds w = (Ok (omap (queued_entry (fs w)) fileIds), w).
Proof.
  induction fileIds as [|id rest IH]; [reflexivity|].
  cbn [queue_files]. unfold bind at 1. rewrite existsSync_run.
  unfold bind at 1. rewrite IH. unfold ret. cbn [omap list_omap].
  assert (Hq : queued_entry (fs w) id =
               if bool_decide (is_Some (fs_lookup (fs w) (path_join PROCESSED_DIR id)))
               then Some (id, path_join PROCESSED_DIR id) else None)
    by reflexivity.
  rewrite Hq. destruct (bool_decide _); reflexivity.
Qed.

Lemma archive_entries_queued (s : FS) (fileIds : list string) :
  omap (fun e => f ← fs_lookup s (snd e); Some (fst e, content f))
       (omap (queued_entry s) fileIds)
  = omap (zip_entry s) fileIds.
Proof.
  induction fileIds as [|id rest IH]; [reflexivity|].
  cbn [omap list_omap].
  assert (Hq : queued_entry s id =
               if bool_decide (is_Some (fs_lookup s (path_join PROCESSED_DIR id)))
               then Some (id, path_join PROCESSED_DIR id) else None)
    by reflexivity.
  assert (Hz : zip_entry s id =
               (f ← fs_lookup s (path_join PROCESSED_DIR id); Some (id, content f)))
    by reflexivity.
  rewrite Hq, Hz.
  destruct (fs_lookup s (path_join PROCESSED_DIR id)) as [f|] eqn:Hf.
  - rewrite bool_decide_eq_true_2 by eauto. cbn [omap list_omap snd fst].
    rewrite Hf. cbn [mbind option_bind]. f_equal. exact IH.
  - rewrite bool_decide_eq_false_2 by (intros [? ?]; discriminate).
    cbn [mbind option_bind]. exact IH.
Qed.

Lemma queued_paths (s : FS) (fileIds : list string) (q : Path) :
  Some q ∈ (Some ∘ snd) <$> omap (queued_entry s) fileIds
  <-> exists id, id ∈ fileIds /\ q = path_join PROCESSED_DIR id /\
                 is_Some (fs_lookup s q).
Proof.
  rewrite list_elem_of_fmap. split.
  - intros [[id p] [Heq Hin]]. cbn [snd compose] in Heq.
    assert (q = p) as -> by congruence.
    apply list_elem_of_omap in Hin. destruct Hin as (id' & Hid' & Hq).
    unfold queued_entry in Hq.
    destruct (bool_decide (is_Some _)) eqn:Hb; [|discriminate].
    apply bool_decide_eq_true_1 in Hb.
    assert (id' = id) as -> by congruence.
    assert (p = path_join PROCESSED_DIR id) as -> by congruence.
    exists id. split; [exact Hid'|]. split; [reflexivity|exact Hb].
  - intros (id & Hin & -> & Hsome).
    exists (id, path_join PROCESSED_DIR id). split; [reflexivity|].
    apply list_elem_of_omap. exists id. split; [exact Hin|].
    unfold queued_entry. rewrite bool_decide_eq_true_2 by exact Hsome.
    reflexivity.
Qed.

Lemma streamZip_ended_run (fileIds : list string)
    (appended : list (string * bytes) -> list (string * bytes))
    (headersSent : bool) (w : World) :
  fileIds <> [] ->
  exists w',
    streamZip fileIds appended true None headersSent w =
      (Ok (ZipAttachment (appended (omap (zip_entry (fs w)) fileIds))), w') /\
    console w' = console w /\
    (forall id, id ∈ fileIds ->
                fs_lookup (fs w') (path_join PROCESSED_DIR id) = None) /\
    (forall q, (forall id, id ∈ fileIds -> q <> path_join PROCESSED_DIR id) ->
               fs_lookup (fs w') q = fs_lookup (fs w) q).
Proof.
  intros Hne.
  destruct (deleteFiles_run
              ((Some ∘ snd) <$> omap (queued_entry (fs w)) fileIds) w)
    as (w' & Hdel & _ & _ & Hco & Hq).
  exists w'. split.
  - destruct fileIds as [|id rest]; [congruence|].
    unfold streamZip. unfold bind at 1. rewrite queue_files_run.
    unfold bind at 1. unfold archive_entries, bind at 1, get_fs, ret at 1.
    rewrite archive_entries_queued.
    unfold bind at 1. rewrite Hdel. reflexivity.
  - split; [exact Hco|]. split.
    + intros id Hin. rewrite Hq.
      destruct (fs_lookup (fs w) (path_join PROCESSED_DIR id)) as [f|] eqn:Hf.
      * rewrite bool_decide_eq_true_2; [reflexivity|].
        apply queued_paths. exists id. rewrite Hf. eauto.
      * destruct (bool_decide _); reflexivity.
    + intros q Hnot. rewrite Hq.
      rewrite bool_decide_eq_false_2; [reflexivity|].
      intros (id & Hin & -> & _)%queued_paths. exact (Hnot id Hin eq_refl).
Qed.

(** X15.  A ZIP request with at least one id, all of them plain file
    names, whose archive is sent to the end and holds each queued file
    once, answers with an archive holding, in some order, one entry per id
    that is present in the processed directory, under the id as its name
    and with the bytes of that file; ids that are absent are skipped.
    Afterwards no id of the request is present, and every other file is as
    it was. *)
Theorem streamZip_delivers_then_deletes (fileIds : list string)
    (appended : list (string * bytes) -> list (string * bytes))
    (headersSent : bool) (w : World) :
  fileIds <> [] ->
  Forall (fun id => plain_name id = true) fileIds ->
  (forall l, appended l ≡ₚ l) ->
  exists entries w',
    streamZip fileIds appended true None headersSent w =
      (Ok (ZipAttachment entries), w') /\
    entries ≡ₚ omap (zip_entry (fs w)) fileIds /\
    (forall id, id ∈ fileIds ->
                fs_lookup (fs w') (path_join PROCESSED_DIR id) = None) /\
    (forall q, (forall id, id ∈ fileIds -> q <> path_join PROCESSED_DIR id) ->
               fs_lookup (fs w') q = fs_lookup (fs w) q).
Proof.
  intros Hne _ Hperm.
  destruct (streamZip_ended_run fileIds appended headersSent w Hne)
    as (w' & Hrun & _ & Hgone & Hframe).
  eexists _, w'. split; [exact Hrun|]. split; [apply Hperm|].
  split; [exact Hgone|exact Hframe].
Qed.

(** X16.  As long as the archive has not ended, the ZIP endpoint deletes
    nothing: the store is the one the request started from, whether the
    archive failed or not.  A request without ids is answered with status
    400 and changes nothing at all. *)
Theorem streamZip_deletes_only_on_end (fileIds : list string)
    (appended : list (string * bytes) -> list (string * bytes))
    (archive_err : option Err) (headersSent : bool) (w : World) :
  exists resp w',
    streamZip fileIds appended false archive_err headersSent w
      = (Ok resp, w') /\
    fs w' = fs w /\
    (fileIds = [] -> resp = ZipError 400 "No files specified" /\ w' = w) /\
    (fileIds <> [] -> forall e, archive_err = Some e ->
       resp = (if headersSent then ZipBroken else ZipFailed e) /\
       console w' = (console w ++ ["Archive error"])%list).
Proof.
  destruct fileIds as [|id rest].
  - eexists _, _. split; [reflexivity|]. split; [reflexivity|].
    split; [intros _; split; reflexivity|congruence].
  - unfold streamZip. unfold bind at 1. rewrite queue_files_run.
    unfold bind at 1. unfold archive_entries, bind at 1, get_fs, ret at 1.
    unfold bind at 1, ret at 1.
    destruct archive_err as [e|].
    + unfold bind at 1, console_error. destruct headersSent; cbn [negb].
      * eexists _, _. split; [reflexivity|]. split; [reflexivity|].
        split; [congruence|]. intros _ e' He'.
        assert (e' = e) as -> by congruence. split; reflexivity.
      * eexists _, _. split; [reflexivity|]. split; [reflexivity|].
        split; [congruence|]. intros _ e' He'.
        assert (e' = e) as -> by congruence. split; reflexivity.
    + eexists _, _. split; [reflexivity|]. split; [reflexivity|].
      split; [congruence|]. intros _ e' He'. discriminate.
Qed.

(** ** The auto-cleanup, again *)

Lemma auto_cleanup_run (w : World) :
  exists w', auto_cleanup w = (Ok tt, w') /\
    clock w' = clock w /\ trace w' = trace w /\
    forall q, fs_lookup (fs w') q =
      match fs_lookup (fs w) q with
      | Some f => if expired (clock w) f then None else Some f
      | None => None
      end.
Proof.
  unfold auto_cleanup, bind, Date_now.
  destruct (sweep_run (clock w) PROCESSED_DIR w) as (w1 & Hrun1 & Hc1 & Ht1 & Hq1).
  rewrite Hrun1.
  destruct (sweep_run (clock w) UPLOAD_DIR w1) as (w2 & Hrun2 & Hc2 & Ht2 & Hq2).
  exists w2. split; [exact Hrun2|].
  split; [congruence|]. split; [congruence|].
  intros q. rewrite Hq2, Hq1.
  destruct (fs_lookup (fs w) q) as [f|]; [|reflexivity].
  destruct q as [[] n]; cbn [dirname].
  - rewrite (bool_decide_eq_false_2 (UPLOAD_DIR = PROCESSED_DIR)) by discriminate.
    rewrite (bool_decide_eq_true_2 (UPLOAD_DIR = UPLOAD_DIR)) by reflexivity.
    cbn [andb]. reflexivity.
  - rewrite (bool_decide_eq_true_2 (PROCESSED_DIR = PROCESSED_DIR)) by reflexivity.
    rewrite (bool_decide_eq_false_2 (PROCESSED_DIR = UPLOAD_DIR)) by discriminate.
    cbn [andb]. destruct (expired (clock w) f); reflexivity.
Qed.

(** X17.  A cleanup cycle only deletes: a file that is in the store after
    the cycle was there before it, with the same bytes and the same
    modification time.  A second cycle at the same clock reading finds
    nothing left to delete. *)
Theorem auto_cleanup_only_deletes (w : World) :
  exists w',
    auto_cleanup w = (Ok tt, w') /\
    (forall q f, fs_lookup (fs w') q = Some f -> fs_lookup (fs w) q = Some f) /\
    exists w'', auto_cleanup w' = (Ok tt, w'') /\ fs w'' = fs w'.
Proof.
  destruct (auto_cleanup_run w) as (w' & Hrun & Hc & _ & Hq).
  exists w'. split; [exact Hrun|]. split.
  - intros q f. rewrite Hq.
    destruct (fs_lookup (fs w) q) as [g|]; [|discriminate].
    destruct (expired (clock w) g); [discriminate|tauto].
  - destruct (auto_cleanup_run w') as (w'' & Hrun' & _ & _ & Hq').
    exists w''. split; [exact Hrun'|].
    apply fs_ext. intros q. rewrite Hq', Hc.
    destruct (fs_lookup (fs w') q) as [f|] eqn:Hf; [|reflexivity].
    rewrite Hq in Hf.
    destruct (fs_lookup (fs w) q) as [g|]; [|discriminate].
    destruct (expired (clock w) g) eqn:Hex; [discriminate|].
    assert (g = f) as -> by congruence. rewrite Hex. reflexivity.
Qed.

(** ** The client's list of files *)

Lemma handleFiles_bound (files : list Entry) (new_ids : list string) :
  (List.length files <= MAX_FILES)%nat ->
  (List.length (handleFiles files new_ids) <= MAX_FILES)%nat.
Proof.
  intros H. unfold handleFiles.
  destruct (Nat.ltb_spec MAX_FILES (List.length files + List.length new_ids));
    [exact H|].
  rewrite length_app, length_map. lia.
Qed.

Lemma removeFile_bound (files : list Entry) (id : string) :
  (List.length (removeFile files id) <= List.length files)%nat.
Proof.
  unfold removeFile. induction files as [|f files IH]; [reflexivity|].
  cbn [List.filter]. destruct (negb _); cbn [List.length]; lia.
Qed.

(** X18.  Whatever the user does (adding files, removing one, clearing the
    list), in whatever order, the list of the client never holds more than
    [MAX_FILES] files; a selection that would exceed the limit is refused
    as a whole and leaves the list as it was. *)
Theorem files_never_exceed_MAX_FILES (actions : list Action) :
  (List.length (fold_left act actions []) <= MAX_FILES)%nat /\
  (forall files new_ids,
     (MAX_FILES < List.length files + List.length new_ids)%nat ->
     handleFiles files new_ids = files).
Proof.
  split.
  - assert (H : forall files, (List.length files <= MAX_FILES)%nat ->
              (List.length (fold_left act actions files) <= MAX_FILES)%nat).
    { induction actions as [|a actions IH]; intros files Hlen; [exact Hlen|].
      cbn [fold_left]. apply IH. destruct a as [new_ids|id|]; cbn [act].
      - apply handleFiles_bound. exact Hlen.
      - pose proof (removeFile_bound files id). lia.
      - cbn. unfold MAX_FILES. lia. }
    apply H. cbn. unfold MAX_FILES. lia.
  - intros files new_ids Hlt. unfold handleFiles.
    destruct (Nat.ltb_spec MAX_FILES (List.length files + List.length new_ids));
      [reflexivity|lia].
Qed.

(** ** The batches of [startCompression] *)

Lemma batches_run {A} (queue : list A) :
  forall fuel i, (List.length queue - i <= fuel)%nat ->
    exists bs, batches fuel queue i = Some bs /\
      concat bs = drop i queue /\
      Forall (fun b => (1 <= List.length b <= CONCURRENT_UPLOADS)%nat) bs /\
      (List.length bs * CONCURRENT_UPLOADS
       < List.length queue - i + CONCURRENT_UPLOADS)%nat.
Proof.
  induction fuel as [|fuel IH]; intros i Hfuel.
  - exists []. cbn [batches].
    destruct (Nat.ltb_spec i (List.length queue)); [lia|].
    split; [reflexivity|]. split; [|split; [constructor|cbn; unfold CONCURRENT_UPLOADS; lia]].
    rewrite drop_ge by lia. reflexivity.
  - cbn [batches]. destruct (Nat.ltb_spec i (List.length queue)) as [Hlt|Hge].
    + destruct (IH (i + CONCURRENT_UPLOADS)%nat) as (bs & Hbs & Hcat & Hall & Hn).
      { unfold CONCURRENT_UPLOADS. lia. }
      rewrite Hbs. eexists. split; [reflexivity|]. split; [|split].
      * cbn [concat]. rewrite Hcat. unfold slice.
        replace (i + CONCURRENT_UPLOADS - i)%nat with CONCURRENT_UPLOADS by lia.
        rewrite <- drop_drop. apply take_drop.
      * constructor; [|exact Hall]. unfold slice.
        rewrite length_take, length_drop. unfold CONCURRENT_UPLOADS. lia.
      * cbn [List.length]. unfold CONCURRENT_UPLOADS in *. lia.
    + exists []. split; [reflexivity|]. split; [|split; [constructor|cbn; unfold CONCURRENT_UPLOADS; lia]].
      rewrite drop_ge by lia. reflexivity.
Qed.

(** X19.  The loop of [startCompression] cuts the queue into consecutive
    batches: put end to end they are the queue, so every queued file is
    handed over exactly once and in order; no batch is empty and none has
    more than [CONCURRENT_UPLOADS] files; and there are no more batches
    than the queue needs. *)
Theorem batches_partition_queue {A} (queue : list A) :
  exists bs,
    batches (List.length queue) queue 0 = Some bs /\
    concat bs = queue /\
    Forall (fun b => (1 <= List.length b <= CONCURRENT_UPLOADS)%nat) bs /\
    (List.length bs * CONCURRENT_UPLOADS
     < List.length queue + CONCURRENT_UPLOADS)%nat.
Proof.
  destruct (batches_run queue (List.length queue) 0) as (bs & H1 & H2 & H3 & H4);
    [lia|].
  exists bs. split; [exact H1|]. split; [exact H2|].
  split; [exact H3|]. rewrite Nat.sub_0_r in H4. exact H4.
Qed.

(** ** [startCompression] *)

Lemma fold_alter_lookup {A} (g : A -> A) (l : list nat) :
  (forall x, g (g x) = g x) ->
  forall (xs : list A) (j : nat),
    fold_left (fun ys i => alter g i ys) l xs !! j
    = if decide (j ∈ l) then g <$> xs !! j else xs !! j.
Proof.
  intros Hg. induction l as [|i l IH]; intros xs j.
  - cbn [fold_left]. destruct (decide (j ∈ [])) as [H|_]; [inversion H|reflexivity].
  - cbn [fold_left]. rewrite IH.
    destruct (decide (i = j)) as [->|Hne].
    + rewrite list_lookup_alter_eq.
      destruct (decide (j ∈ j :: l)) as [_|Hn];
        [|exfalso; apply Hn; left].
      destruct (decide (j ∈ l)); [|reflexivity].
      destruct (xs !! j); cbn; [rewrite Hg|]; reflexivity.
    + rewrite list_lookup_alter_ne by exact Hne.
      destruct (decide (j ∈ l)) as [Hin|Hnin].
      * destruct (decide (j ∈ i :: l)) as [_|Hn]; [reflexivity|].
        exfalso. apply Hn. right. exact Hin.
      * destruct (decide (j ∈ i :: l)) as [Hin|_]; [|reflexivity].
        apply elem_of_cons in Hin. destruct Hin; [congruence|contradiction].
Qed.

Lemma pending_from_elem (files : list Entry) :
  forall i j, j ∈ pending_from i files <->
    exists f, (i <= j)%nat /\ files !! (j - i)%nat = Some f /\
              status f = "pending".
Proof.
  induction files as [|f files IH]; intros i j.
  - cbn [pending_from]. split; [intros H; inversion H|].
    intros (g & _ & Hl & _). discriminate.
  - cbn [pending_from]. destruct (String.eqb_spec (status f) "pending") as [Hp|Hp].
    + rewrite elem_of_cons, IH. split.
      * intros [->|(g & Hle & Hl & Hs)].
        -- exists f. rewrite Nat.sub_diag. repeat split; [lia|exact Hp].
        -- exists g. split; [lia|]. split; [|exact Hs].
           replace (j - i)%nat with (S (j - S i)) by lia. exact Hl.
      * intros (g & Hle & Hl & Hs).
        destruct (decide (j = i)) as [->|Hne]; [left; reflexivity|].
        right. exists g. split; [lia|]. split; [|exact Hs].
        replace (j - i)%nat with (S (j - S i)) in Hl by lia. exact Hl.
    + rewrite IH. split.
      * intros (g & Hle & Hl & Hs). exists g. split; [lia|]. split; [|exact Hs].
        replace (j - i)%nat with (S (j - S i)) by lia. exact Hl.
      * intros (g & Hle & Hl & Hs).
        destruct (decide (j = i)) as [->|Hne].
        -- rewrite Nat.sub_diag in Hl. cbn in Hl. congruence.
        -- exists g. split; [lia|]. split; [|exact Hs].
           replace (j - i)%nat with (S (j - S i)) in Hl by lia. exact Hl.
Qed.

Lemma pending_from_length (files : list Entry) :
  forall i, (List.length (pending_from i files) <= List.length files)%nat.
Proof.
  induction files as [|f files IH]; intros i; [reflexivity|].
  cbn [pending_from]. pose proof (IH (S i)).
  destruct (status f =? "pending")%string; cbn [List.length]; lia.
Qed.

Section ClientFacts.

Variable responds_ok : string -> bool.

Lemma settled_settled (f : Entry) :
  settled responds_ok (settled responds_ok f) = settled responds_ok f.
Proof. reflexivity. Qed.

Lemma processFile_finish_fold (batch : list nat) :
  forall st,
    fold_left (processFile_finish responds_ok) batch st
    = (fold_left (fun ys i => alter (settled responds_ok) i ys) batch (fst st),
       (snd st + List.length batch)%nat).
Proof.
  induction batch as [|i batch IH]; intros [files n].
  - cbn. rewrite Nat.add_0_r. reflexivity.
  - cbn [fold_left]. rewrite IH. cbn [processFile_finish fst snd List.length].
    f_equal. lia.
Qed.

Lemma run_batch_lookup (st : list Entry * nat) (batch : list nat) (j : nat) :
  fst (run_batch responds_ok st batch) !! j
  = (if decide (j ∈ batch) then settled responds_ok <$> fst st !! j
     else fst st !! j) /\
  snd (run_batch responds_ok st batch) = (snd st + List.length batch)%nat.
Proof.
  unfold run_batch. rewrite processFile_finish_fold. cbn [fst snd].
  split; [|reflexivity].
  rewrite fold_alter_lookup by apply settled_settled.
  unfold processFile_start.
  rewrite (fold_alter_lookup (set_status "processing")) by reflexivity.
  destruct (decide (j ∈ batch)); [|reflexivity].
  destruct (fst st !! j); reflexivity.
Qed.

Lemma run_batches_lookup (bs : list (list nat)) :
  forall (st : list Entry * nat) (j : nat),
    fst (fold_left (run_batch responds_ok) bs st) !! j
    = (if decide (j ∈ concat bs) then settled responds_ok <$> fst st !! j
       else fst st !! j) /\
    snd (fold_left (run_batch responds_ok) bs st)
    = (snd st + List.length (concat bs))%nat.
Proof.
  induction bs as [|b bs IH]; intros st j.
  - cbn [fold_left concat List.length].
    destruct (decide (j ∈ [])) as [H|_]; [inversion H|].
    split; [reflexivity|lia].
  - cbn [fold_left concat].
    destruct (IH (run_batch responds_ok st b) j) as [Hl Hn].
    destruct (run_batch_lookup st b j) as [Hl1 Hn1].
    rewrite Hl, Hn, Hl1, Hn1, length_app. split; [|lia].
    destruct (decide (j ∈ concat bs)) as [Hin|Hnin].
    + destruct (decide (j ∈ (b ++ concat bs)%list)) as [_|Hn'];
        [|exfalso; apply Hn', elem_of_app; right; exact Hin].
      destruct (decide (j ∈ b)); [|reflexivity].
      destruct (fst st !! j); reflexivity.
    + destruct (decide (j ∈ b)) as [Hb|Hb].
      * destruct (decide (j ∈ (b ++ concat bs)%list)) as [_|Hn'];
          [reflexivity|exfalso; apply Hn', elem_of_app; left; exact Hb].
      * destruct (decide (j ∈ (b ++ concat bs)%list)) as [Hin|_]; [|reflexivity].
        apply elem_of_app in Hin. destruct Hin; contradiction.
Qed.

(** X20.  [startCompression] leaves the loop; by then every object that was
    pending is done or in error, according to the answer to its upload,
    and every other object is as it was: the list keeps its length, its
    order and its ids.  The counter of the progress bar has reached the
    length of the queue. *)
Theorem startCompression_settles_pending (files : list Entry) :
  exists files',
    startCompression responds_ok (List.length files) files
      = Some (files', List.length (pending_from 0 files)) /\
    forall j, files' !! j =
      (fun f => if (status f =? "pending")%string
                then settled responds_ok f else f) <$> files !! j.
Proof.
  unfold startCompression.
  destruct (batches_run (pending_from 0 files) (List.length files) 0)
    as (bs & Hbs & Hcat & _ & _).
  { pose proof (pending_from_length files 0). lia. }
  rewrite Hbs. rewrite drop_0 in Hcat.
  exists (fst (fold_left (run_batch responds_ok) bs (files, O))). split.
  - destruct (run_batches_lookup bs (files, O) 0%nat) as [_ Hn].
    rewrite Hcat in Hn. cbn [snd Nat.add] in Hn. rewrite <- Hn.
    destruct (fold_left _ _ _); reflexivity.
  - intros j. destruct (run_batches_lookup bs (files, O) j) as [Hl _].
    rewrite Hl, Hcat. cbn [fst].
    destruct (files !! j) as [f|] eqn:Hf.
    + cbn [fmap option_fmap option_map].
      destruct (String.eqb_spec (status f) "pending") as [Hp|Hp].
      * destruct (decide (j ∈ pending_from 0 files)) as [_|Hn]; [reflexivity|].
        exfalso. apply Hn, pending_from_elem. exists f.
        rewrite Nat.sub_0_r. repeat split; [lia|exact Hf|exact Hp].
      * destruct (decide (j ∈ pending_from 0 files)) as [Hin|_]; [|reflexivity].
        apply pending_from_elem in Hin. destruct Hin as (g & _ & Hg & Hs).
        rewrite Nat.sub_0_r in Hg. congruence.
    + destruct (decide (j ∈ pending_from 0 files)); reflexivity.
Qed.

End ClientFacts.

(** ** The properties at sample inputs *)

Lemma search_encode_bound_witness :
  (encodes (snd (compressBufferRecursive Demo.engines 100 (Demo.zeros 3000)
                   Samples.out_path "jpeg" (Some Demo.half_kb) Demo.world))
   <= encodes Demo.world + 4 * 7 + 9)%nat.
Proof.
  apply (proj1 (search_encode_bound Demo.engines 100 (Demo.zeros 3000)
                  Samples.out_path "jpeg" (Some Demo.half_kb) Demo.world 7
                  ltac:(intros m Hm;
                        assert (m = mkMetadata "jpeg" 100 50) as ->
                          by (cbn in Hm; congruence);
                        reflexivity))).
Defined.

Lemma native_fit_best_quality_witness :
  exists q b,
    best_quality Demo.engines "jpeg" (JsNum.mul1024 Samples.kb_1050)
      (Demo.zeros 3000) None q b /\
    content <$> fs_lookup
      (fs (snd (compressBufferRecursive Demo.engines 100 (Demo.zeros 3000)
                  Samples.out_path "jpeg" (Some Samples.kb_1050) Demo.world)))
      Samples.out_path = Some b.
Proof.
  destruct (native_fit_best_quality Demo.engines 100 (Demo.zeros 3000)
              Samples.out_path "jpeg" Samples.kb_1050 Demo.world
              (Demo.zeros 1001) Samples.out_path
              (snd (compressBufferRecursive Demo.engines 100 (Demo.zeros 3000)
                      Samples.out_path "jpeg" (Some Samples.kb_1050)
                      Demo.world)))
    as (q & b & Hbest & Hcontent & _).
  - reflexivity.
  - vm_compute. reflexivity.
  - vm_compute. reflexivity.
  - vm_compute. reflexivity.
  - exists q, b. split; [exact Hbest|exact Hcontent].
Defined.

Lemma resize_path_first_fitting_width_witness :
  exists n b,
    (1 <= n)%nat /\
    content <$> fs_lookup
      (fs (snd (compressBufferRecursive Demo.engines 100 (Demo.zeros 3000)
                  Samples.out_path "jpeg" (Some Demo.half_kb) Demo.world)))
      Samples.out_path = Some b /\
    break_at Demo.engines "jpeg" (JsNum.mul1024 Demo.half_kb)
      (Demo.zeros 3000) (loop_width 100 n) b.
Proof.
  destruct (resize_path_first_fitting_width Demo.engines 100 (Demo.zeros 3000)
              Samples.out_path "jpeg" Demo.half_kb Demo.world
              (Demo.zeros 1001) (mkMetadata "jpeg" 100 50) Samples.out_path
              (snd (compressBufferRecursive Demo.engines 100 (Demo.zeros 3000)
                      Samples.out_path "jpeg" (Some Demo.half_kb)
                      Demo.world)))
    as (n & b & Hn & Hcontent & Hbreak & _).
  - reflexivity.
  - vm_compute. reflexivity.
  - vm_compute. reflexivity.
  - reflexivity.
  - vm_compute. reflexivity.
  - exists n, b. split; [exact Hn|]. split; [exact Hcontent|exact Hbreak].
Defined.

Lemma pdf_without_ghostscript_witness :
  exists w',
    compressPdf Samples.no_gs Samples.pdf_path PROCESSED_DIR
      (Some (JsNum.Fin 1)) Demo.world
      = (Ok (path_join PROCESSED_DIR "old.pdf"), w') /\
    content <$> fs_lookup (fs w') (path_join PROCESSED_DIR "old.pdf")
      = Some (Demo.zeros 2) /\
    render_calls (trace w') = [].
Proof.
  destruct (proj1 (pdf_without_ghostscript Samples.no_gs Samples.pdf_path
                     PROCESSED_DIR (Some (JsNum.Fin 1)) Demo.world eq_refl)
              Samples.pdf_file ltac:(vm_compute; reflexivity))
    as (w' & Hrun & Hcontent & Hcalls).
  exists w'. split; [exact Hrun|]. split; [exact Hcontent|exact Hcalls].
Defined.

Lemma pdf_no_target_single_render_witness :
  exists w',
    compressPdf Demo.engines Samples.pdf_path PROCESSED_DIR None Demo.world
      = (Ok (path_join PROCESSED_DIR "old.pdf"), w') /\
    render_calls (trace w') = [no_target_flags] /\
    content <$> fs_lookup (fs w') (path_join PROCESSED_DIR "old.pdf")
      = Some (Demo.ones 5).
Proof.
  destruct (pdf_no_target_single_render Demo.engines Samples.pdf_path
              PROCESSED_DIR None Demo.world Samples.pdf_file "gs")
    as (w' & Hrun & Hcalls & Hcontent).
  - reflexivity.
  - reflexivity.
  - discriminate.
  - vm_compute. reflexivity.
  - exists w'. split; [exact Hrun|]. split; [exact Hcalls|exact Hcontent].
Defined.

Lemma pdf_target_always_output_witness :
  exists w' b,
    compressPdf Demo.failing_last Samples.pdf_path PROCESSED_DIR
      (Some Demo.one_byte) Demo.world
      = (Ok (path_join PROCESSED_DIR "old.pdf"), w') /\
    content <$> fs_lookup (fs w') (path_join PROCESSED_DIR "old.pdf") = Some b /\
    fs_lookup (fs w') Samples.pdf_path = Some Samples.pdf_file.
Proof.
  destruct (pdf_target_always_output Demo.failing_last Samples.pdf_path
              PROCESSED_DIR Demo.one_byte Demo.world Samples.pdf_file
              "gswin64c")
    as (w' & b & n & Hrun & Hcontent & _ & _ & _ & Hinput).
  - discriminate.
  - vm_compute. reflexivity.
  - reflexivity.
  - reflexivity.
  - exists w', b. split; [exact Hrun|]. split; [exact Hcontent|exact Hinput].
Defined.

Lemma compressPdf_touches_only_output_witness :
  fs_lookup
    (fs (snd (compressPdf Demo.engines Samples.pdf_path PROCESSED_DIR
                (Some (JsNum.Fin 1)) Demo.world)))
    (path_join PROCESSED_DIR "b.jpg")
  = fs_lookup (fs Demo.world) (path_join PROCESSED_DIR "b.jpg").
Proof.
  apply (compressPdf_touches_only_output Demo.engines Samples.pdf_path
           PROCESSED_DIR (Some (JsNum.Fin 1)) Demo.world
           (path_join PROCESSED_DIR "b.jpg")).
  discriminate.
Defined.

Lemma upload_done_report_witness :
  exists f g,
    fs_lookup (fs Demo.world) Demo.upload_path = Some f /\
    3000 = byte_length (content f) /\
    fs_lookup (fs (snd (upload Demo.engines 100 Samples.photo_request
                          Demo.world)))
      (path_join PROCESSED_DIR "a.jpg") = Some g /\
    1024 = byte_length (content g).
Proof.
  destruct (upload_done_report Demo.engines 100 Samples.photo_request
              Samples.photo Demo.world
              (snd (upload Demo.engines 100 Samples.photo_request Demo.world))
              "a.jpg" "photo.jpg" 3000 1024)
    as (_ & _ & f & g & Hf & Hsize & Hg & Hsize' & _).
  - reflexivity.
  - vm_compute. reflexivity.
  - exists f, g. split; [exact Hf|]. split; [exact Hsize|].
    split; [exact Hg|exact Hsize'].
Defined.

Lemma upload_then_download_witness :
  exists data w2,
    download "a.jpg" (Some "photo.jpg") None
      (snd (upload Demo.engines 100 Samples.photo_request Demo.world))
      = (Ok (RespDownload data "photo.jpg"), w2) /\
    byte_length data = 1024 /\
    fs_lookup (fs w2) (path_join PROCESSED_DIR "a.jpg") = None.
Proof.
  destruct (upload_then_download Demo.engines 100 Samples.photo_request
              Samples.photo (Some "photo.jpg") Demo.world
              (snd (upload Demo.engines 100 Samples.photo_request Demo.world))
              "a.jpg" "photo.jpg" 3000 1024)
    as (data & w2 & Hrun & Hsize & Hgone & _).
  - reflexivity.
  - vm_compute. reflexivity.
  - exists data, w2. split; [exact Hrun|]. split; [exact Hsize|exact Hgone].
Defined.

Lemma upload_error_leaves_no_output_witness :
  fs (snd (upload Demo.engines 100 Samples.note_request Demo.world))
  = fs_remove Demo.upload_path (fs Demo.world).
Proof.
  apply (upload_error_leaves_no_output Demo.engines 100 Samples.note_request
           Samples.note Demo.world
           (snd (upload Demo.engines 100 Samples.note_request Demo.world))
           (mkFile (Demo.zeros 3000) 5%Q) 400 "Unsupported file type").
  - reflexivity.
  - vm_compute. reflexivity.
  - vm_compute. reflexivity.
Defined.

Lemma download_failed_transfer_keeps_file_witness :
  exists resp w',
    download "b.jpg" None (Some (Error "aborted")) Demo.world = (Ok resp, w') /\
    resp = RespAborted /\ w' = Demo.world.
Proof.
  destruct (download_failed_transfer_keeps_file "b.jpg" None None
              (Some (Error "aborted")) Demo.world eq_refl)
    as (resp & w' & Hrun & _ & Hfail).
  destruct (Hfail (Error "aborted") (mkFile (Demo.zeros 40) 900000%Q) eq_refl
              ltac:(vm_compute; reflexivity))
    as (Hresp & Hw & _).
  exists resp, w'. split; [exact Hrun|]. split; [exact Hresp|exact Hw].
Defined.

Lemma streamZip_delivers_then_deletes_witness :
  exists entries w',
    streamZip ["b.jpg"; "zz"; "c.jpg"] reverse true None false Demo.world
      = (Ok (ZipAttachment entries), w') /\
    entries ≡ₚ [("b.jpg", Demo.zeros 40); ("c.jpg", Demo.zeros 40)] /\
    fs_lookup (fs w') (path_join PROCESSED_DIR "b.jpg") = None /\
    fs_lookup (fs w') Demo.upload_path = fs_lookup (fs Demo.world) Demo.upload_path.
Proof.
  destruct (streamZip_delivers_then_deletes ["b.jpg"; "zz"; "c.jpg"] reverse
              false Demo.world ltac:(discriminate)
              ltac:(repeat constructor) (@reverse_Permutation _))
    as (entries & w' & Hrun & Hentries & Hgone & Hframe).
  exists entries, w'. split; [exact Hrun|]. split; [exact Hentries|]. split.
  - apply Hgone. set_solver.
  - apply Hframe. intros id _. discriminate.
Defined.

Lemma streamZip_deletes_only_on_end_witness :
  exists resp w',
    streamZip [] reverse false None false Demo.world = (Ok resp, w') /\
    resp = ZipError 400 "No files specified" /\ w' = Demo.world.
Proof.
  destruct (streamZip_deletes_only_on_end [] reverse None false Demo.world)
    as (resp & w' & Hrun & _ & Hempty & _).
  destruct (Hempty eq_refl) as [Hresp Hw].
  exists resp, w'. split; [exact Hrun|]. split; [exact Hresp|exact Hw].
Defined.

Lemma auto_cleanup_only_deletes_witness :
  fs_lookup (fs Demo.world) (path_join PROCESSED_DIR "b.jpg")
  = Some (mkFile (Demo.zeros 40) 900000%Q).
Proof.
  destruct (auto_cleanup_only_deletes Demo.world) as (w' & Hrun & Honly & _).
  apply Honly.
  assert (Hw : w' = snd (auto_cleanup Demo.world)) by (rewrite Hrun; reflexivity).
  rewrite Hw. vm_compute. reflexivity.
Defined.

Lemma files_never_exceed_MAX_FILES_witness :
  handleFiles [mkEntry "a" "pending"] (repeat "x" 200) = [mkEntry "a" "pending"].
Proof.
  apply (proj2 (files_never_exceed_MAX_FILES [])).
  vm_compute. lia.
Defined.
